(** * Cloud Storage Dashboard: state containers and validation pipeline

    A shallow embedding of the reactive state layer of the dashboard
    ([validation.ts], [storageStore.ts], [uiStore.ts], [tabRegistry.ts],
    [fetchStorageData.ts]) together with the properties of its
    specification.

    Modelling conventions.
    - A JavaScript [number] is [NaN], an infinity or a finite value, the
      finite values being rationals.  Comparisons are exact, as they are
      on doubles.  Sums, differences, products and quotients are rounded
      to the nearest double, ties to even, with gradual underflow and
      overflow to an infinity, as IEEE-754 binary64 arithmetic rounds
      them.  The sign of zero is not modelled; the code never observes
      it.
    - Values whose static type is [unknown] or [any] are terms of [value];
      a TypeScript type assertion is the projection of such a value onto
      the record of the asserted interface.
    - Strings are sequences of 8-bit code units: the text the model
      speaks of is text whose characters lie below U+0100.
    - A Svelte [writable] is its current value together with the history
      of the values it has held, which is what subscribers are shown.
    - [new Date()] reads a clock that is passed in as an argument. *)

From Stdlib Require Import ZArith QArith Qround Qabs Qpower Qreduction Lqa Lia.
From Stdlib Require Import List String Ascii Bool DecimalString.
From Stdlib Require Import Sorting.Sorted Sorting.Permutation.
Import ListNotations.

Local Open Scope string_scope.
Local Open Scope Q_scope.

(** ** JavaScript numbers *)

Inductive number : Type :=
| NaN
| PInf
| NInf
| Fin (q : Q).

Module Num.

Definition of_Z (z : Z) : number := Fin (inject_Z z).

Definition isFinite (n : number) : bool :=
  match n with Fin _ => true | _ => false end.

Definition isNaN (n : number) : bool :=
  match n with NaN => true | _ => false end.

(** [Number.isInteger] *)
Definition isInteger (n : number) : bool :=
  match n with
  | Fin q => Qeq_bool (inject_Z (Qfloor q)) q
  | _ => false
  end.

(** The outcome of comparing two numbers; [None] when either is [NaN],
    in which case every relational operator answers [false]. *)
Definition compare (a b : number) : option comparison :=
  match a, b with
  | NaN, _ | _, NaN => None
  | Fin p, Fin q => Some (p ?= q)
  | PInf, PInf => Some Eq
  | NInf, NInf => Some Eq
  | PInf, _ => Some Gt
  | _, PInf => Some Lt
  | NInf, _ => Some Lt
  | _, NInf => Some Gt
  end.

Definition gt (a b : number) : bool :=
  match compare a b with Some Gt => true | _ => false end.

Definition lt (a b : number) : bool :=
  match compare a b with Some Lt => true | _ => false end.

Definition le (a b : number) : bool :=
  match compare a b with Some Lt | Some Eq => true | _ => false end.

Definition neg (a : number) : number :=
  match a with
  | NaN => NaN
  | PInf => NInf
  | NInf => PInf
  | Fin q => Fin (- q)
  end.

(** *** Rounding to the nearest double

    A double is an integer of at most 53 bits times a power of two whose
    exponent lies between -1074 and 971. *)

(** The integer nearest to [s], the even one of the two when [s] lies
    half way. *)
Definition nearestEven (s : Q) : Z :=
  let f := Qfloor s in
  match Qcompare (s - inject_Z f) (1 # 2) with
  | Lt => f
  | Gt => (f + 1)%Z
  | Eq => if Z.even f then f else (f + 1)%Z
  end.

(** The exponent of the unit in the last place of the doubles around a
    positive [a]: the one at which [a] takes 53 bits, and -1074 where
    that would lie lower, in the subnormal range.  The difference of
    the bit lengths of numerator and denominator is the binary
    logarithm of [a] or one more, which the test settles. *)
Definition ulpExponent (a : Q) : Z :=
  let low := Z.max (-1074) (Z.log2 (Qnum a) - Z.log2 (Zpos (Qden a)) - 53) in
  if (2 ^ 53 <=? Qfloor (a / 2 ^ low))%Z then (low + 1)%Z else low.

Definition roundPositive (a : Q) : number :=
  let e := ulpExponent a in
  let r := inject_Z (nearestEven (a / 2 ^ e)) * 2 ^ e in
  if Qle_bool (2 ^ 1024) r then PInf else Fin (Qred r).

(** The double nearest to [q], or the infinity that [q] overflows to. *)
Definition round (q : Q) : number :=
  match Qcompare q 0 with
  | Eq => Fin 0
  | Gt => roundPositive q
  | Lt => neg (roundPositive (- q))
  end.

(** The rounded sum.  The exact sum [s] of two doubles is a multiple of
    [2 ^ -1074], hence zero or at least that large, and only such sums
    are rounded; a sum of other rationals that lies closer to zero is
    left as it is. *)
Definition sum (s : Q) : number :=
  if Qle_bool (2 ^ (-1074)) (Qabs s) then round s else Fin (Qred s).

(** *** Arithmetic *)

Definition add (a b : number) : number :=
  match a, b with
  | NaN, _ | _, NaN => NaN
  | Fin p, Fin q => sum (p + q)
  | PInf, NInf | NInf, PInf => NaN
  | PInf, _ | _, PInf => PInf
  | NInf, _ | _, NInf => NInf
  end.

(** [a - b] is [a + (-b)]. *)
Definition sub (a b : number) : number := add a (neg b).

(** An infinity scaled by a finite factor. *)
Definition scale_inf (positive : bool) (q : Q) : number :=
  match q ?= 0 with
  | Eq => NaN
  | Gt => if positive then PInf else NInf
  | Lt => if positive then NInf else PInf
  end.

Definition mul (a b : number) : number :=
  match a, b with
  | NaN, _ | _, NaN => NaN
  | Fin p, Fin q => round (p * q)
  | PInf, Fin q | Fin q, PInf => scale_inf true q
  | NInf, Fin q | Fin q, NInf => scale_inf false q
  | PInf, PInf | NInf, NInf => PInf
  | PInf, NInf | NInf, PInf => NInf
  end.

(** Division; a zero divisor is taken to be [+0]. *)
Definition div (a b : number) : number :=
  match a, b with
  | NaN, _ | _, NaN => NaN
  | Fin p, Fin q =>
      match q ?= 0 with
      | Eq => match p ?= 0 with Eq => NaN | Gt => PInf | Lt => NInf end
      | _ => round (p / q)
      end
  | Fin _, _ => Fin 0
  | PInf, Fin q => match q ?= 0 with Lt => NInf | _ => PInf end
  | NInf, Fin q => match q ?= 0 with Lt => PInf | _ => NInf end
  | _, _ => NaN
  end.

(** [Math.floor]; the floor of a double is a double. *)
Definition floor (a : number) : number :=
  match a with
  | Fin q => of_Z (Qfloor q)
  | _ => a
  end.

End Num.

(** ** Strings *)

Module Str.

(** Decimal rendering of a non-negative integer, as a template literal
    renders it. *)
Definition of_nat (n : nat) : string :=
  NilEmpty.string_of_uint (Nat.to_uint n).

(** [parts.join(sep)] *)
Fixpoint join (sep : string) (parts : list string) : string :=
  match parts with
  | [] => ""
  | [s] => s
  | s :: rest => s ++ sep ++ join sep rest
  end.

(** White space and line terminators among the code units below 256. *)
Definition isWhiteSpace (c : ascii) : bool :=
  let n := nat_of_ascii c in
  ((9 <=? n) && (n <=? 13) || (n =? 32) || (n =? 160))%nat.

Fixpoint trimStart (s : string) : string :=
  match s with
  | String c rest => if isWhiteSpace c then trimStart rest else s
  | EmptyString => EmptyString
  end.

Fixpoint trimEnd (s : string) : string :=
  match s with
  | EmptyString => EmptyString
  | String c rest =>
      match trimEnd rest with
      | EmptyString => if isWhiteSpace c then EmptyString else String c EmptyString
      | kept => String c kept
      end
  end.

Definition trim (s : string) : string := trimEnd (trimStart s).

End Str.

(** ** Dynamically typed values *)

#[warnings="-register-all"]
Inductive value : Type :=
| VUndefined
| VNull
| VBoolean (b : bool)
| VNumber (n : number)
| VString (s : string)
| VFunction
| VDate (time : number)
| VArray (elems : list value)
| VObject (props : list (string * value)).

Inductive typeName : Type :=
| TUndefined | TObject | TBoolean | TNumber | TString | TFunction.

Module Js.

Definition typeof (v : value) : typeName :=
  match v with
  | VUndefined => TUndefined
  | VNull | VDate _ | VArray _ | VObject _ => TObject
  | VBoolean _ => TBoolean
  | VNumber _ => TNumber
  | VString _ => TString
  | VFunction => TFunction
  end.

Definition typeName_eqb (a b : typeName) : bool :=
  match a, b with
  | TUndefined, TUndefined | TObject, TObject | TBoolean, TBoolean
  | TNumber, TNumber | TString, TString | TFunction, TFunction => true
  | _, _ => false
  end.

(** [ToBoolean] *)
Definition truthy (v : value) : bool :=
  match v with
  | VUndefined | VNull => false
  | VBoolean b => b
  | VNumber (Fin q) => negb (Qeq_bool q 0)
  | VNumber NaN => false
  | VNumber _ => true
  | VString s => negb (String.eqb s "")
  | VFunction | VDate _ | VArray _ | VObject _ => true
  end.

Fixpoint lookup (key : string) (props : list (string * value)) : option value :=
  match props with
  | [] => None
  | (k, v) :: rest => if String.eqb k key then Some v else lookup key rest
  end.

(** Property read [v.key] for the data properties the code reads; a
    property that is absent reads as [undefined]. *)
Definition get (v : value) (key : string) : value :=
  match v with
  | VObject props =>
      match lookup key props with Some x => x | None => VUndefined end
  | _ => VUndefined
  end.

Definition isArray (v : value) : bool :=
  match v with VArray _ => true | _ => false end.

Fixpoint indexed (i : nat) (elems : list value) : list (string * value) :=
  match elems with
  | [] => []
  | x :: rest => (Str.of_nat i, x) :: indexed (S i) rest
  end.

Definition chars (s : string) : list value :=
  map (fun c => VString (String c EmptyString)) (list_ascii_of_string s).

(** [Object.entries]: own enumerable string-keyed properties. *)
Definition entries (v : value) : list (string * value) :=
  match v with
  | VObject props => props
  | VArray elems => indexed 0 elems
  | VString s => indexed 0 (chars s)
  | _ => []
  end.

(** [Object.values] *)
Definition values (v : value) : list value := map snd (entries v).

(** Writing property [key] of an object literal under construction: an
    existing property keeps its position. *)
Fixpoint assign (key : string) (x : value) (props : list (string * value))
  : list (string * value) :=
  match props with
  | [] => [(key, x)]
  | (k, v) :: rest =>
      if String.eqb k key then (k, x) :: rest else (k, v) :: assign key x rest
  end.

End Js.

(** ** The interfaces of [types/index.ts] *)

(** A [Date] is its time value in milliseconds, [NaN] for an invalid date. *)
Record Date : Type := mkDate { getTime : number }.

Definition Date_now (clock : Z) : Date := mkDate (Num.of_Z clock).

Module FileItem.
Record t : Type := mk {
  id : string;
  name : string;
  size : number;
  type : string;
  lastModified : Date;
  path : string
}.
End FileItem.

Module StorageData.
Record t : Type := mk {
  totalStorage : number;
  usedStorage : number;
  files : list FileItem.t;
  storageByType : list (string * number);
  lastUpdated : Date
}.
End StorageData.

Module TabDefinition.
Record t : Type := mk {
  id : string;
  label : string;
  icon : option string;
  component : value;
  order : option number
}.
End TabDefinition.

Module UIState.
Inductive Theme : Type := light | dark | auto.
Record t : Type := mk {
  activeTabId : string;
  theme : Theme;
  isLoading : bool;
  error : option string
}.
End UIState.

(** ** Typed values at run time

    [Encode] gives the run-time object of a typed record; [Cast] is the
    view of a run-time value at an interface, which is what a type
    assertion or a type guard grants. *)

Module Encode.

Definition date (d : Date) : value := VDate (getTime d).

Definition file (f : FileItem.t) : value :=
  VObject [ ("id", VString (FileItem.id f));
            ("name", VString (FileItem.name f));
            ("size", VNumber (FileItem.size f));
            ("type", VString (FileItem.type f));
            ("lastModified", date (FileItem.lastModified f));
            ("path", VString (FileItem.path f)) ].

Definition record (m : list (string * number)) : value :=
  VObject (map (fun kv => (fst kv, VNumber (snd kv))) m).

Definition storage (d : StorageData.t) : value :=
  VObject [ ("totalStorage", VNumber (StorageData.totalStorage d));
            ("usedStorage", VNumber (StorageData.usedStorage d));
            ("files", VArray (map file (StorageData.files d)));
            ("storageByType", record (StorageData.storageByType d));
            ("lastUpdated", date (StorageData.lastUpdated d)) ].

Definition optional (key : string) (v : option value) : list (string * value) :=
  match v with Some x => [(key, x)] | None => [] end.

Definition tab (t : TabDefinition.t) : value :=
  VObject ([ ("id", VString (TabDefinition.id t));
             ("label", VString (TabDefinition.label t)) ]
           ++ optional "icon" (option_map VString (TabDefinition.icon t))
           ++ [ ("component", TabDefinition.component t) ]
           ++ optional "order" (option_map VNumber (TabDefinition.order t))).

End Encode.

Module Cast.

Definition asNumber (v : value) : number :=
  match v with VNumber n => n | _ => NaN end.

Definition asString (v : value) : string :=
  match v with VString s => s | _ => "" end.

Definition asDate (v : value) : Date :=
  match v with VDate t => mkDate t | _ => mkDate NaN end.

Definition asArray (v : value) : list value :=
  match v with VArray elems => elems | _ => [] end.

Definition asFileItem (v : value) : FileItem.t :=
  FileItem.mk (asString (Js.get v "id"))
              (asString (Js.get v "name"))
              (asNumber (Js.get v "size"))
              (asString (Js.get v "type"))
              (asDate (Js.get v "lastModified"))
              (asString (Js.get v "path")).

Definition asRecord (v : value) : list (string * number) :=
  map (fun kv => (fst kv, asNumber (snd kv))) (Js.entries v).

End Cast.

(** ** [utils/validation.ts] *)

Module Validation.

Import Js.

(** [typeof v !== 'string' || v.trim() === ''] *)
Definition notNonEmptyString (v : value) : bool :=
  match v with
  | VString s => String.eqb (Str.trim s) ""
  | _ => true
  end.

(** [typeof v !== 'number' || v < 0 || !Number.isFinite(v)] *)
Definition notNonNegativeNumber (v : value) : bool :=
  match v with
  | VNumber n => Num.lt n (Fin 0) || negb (Num.isFinite n)
  | _ => true
  end.

(** [typeof v !== 'number' || v <= 0 || !Number.isFinite(v)] *)
Definition notPositiveNumber (v : value) : bool :=
  match v with
  | VNumber n => Num.le n (Fin 0) || negb (Num.isFinite n)
  | _ => true
  end.

(** [!(v instanceof Date) || isNaN(v.getTime())] *)
Definition notValidDate (v : value) : bool :=
  match v with
  | VDate t => Num.isNaN t
  | _ => true
  end.

(** [!v || typeof v !== 'object'] *)
Definition notAnObject (v : value) : bool :=
  negb (truthy v) || negb (typeName_eqb (typeof v) TObject).

Definition validateFileItem (item : value) : bool :=
  if notAnObject item then false else
  let file := item in
  if notNonEmptyString (get file "id") then false else
  if notNonEmptyString (get file "name") then false else
  if notNonNegativeNumber (get file "size") then false else
  if notNonEmptyString (get file "type") then false else
  if notValidDate (get file "lastModified") then false else
  if notNonEmptyString (get file "path") then false else
  true.

Record Result : Type := mkResult {
  isValid : bool;
  data : option StorageData.t;
  errors : list string
}.

(** [if (cond) errors.push(message)] *)
Definition push (errors : list string) (cond : bool) (message : string)
  : list string :=
  if cond then (errors ++ [message])%list else errors.

Definition msgObject := "Storage data must be an object".
Definition msgTotal := "totalStorage must be a positive number".
Definition msgUsed := "usedStorage must be a non-negative number".
Definition msgExceeds := "usedStorage cannot exceed totalStorage".
Definition msgFiles := "files must be an array".
Definition msgByType := "storageByType must be an object".
Definition msgEntry (type : string) : string :=
  "storageByType['" ++ type ++ "'] must be a non-negative number".
Definition msgSum := "Sum of storageByType cannot exceed usedStorage".
Definition msgDate := "lastUpdated must be a valid Date object".
Definition msgFiltered (filteredCount : nat) : string :=
  "Filtered out " ++ Str.of_nat filteredCount ++ " invalid file item(s)".

Definition bothNumbersAnd (rel : number -> number -> bool) (a b : value) : bool :=
  match a, b with
  | VNumber x, VNumber y => rel x y
  | _, _ => false
  end.

(** The loop over [Object.entries(storage.storageByType)]. *)
Definition entryErrors (byType : value) : list string :=
  flat_map (fun kv => if notNonNegativeNumber (snd kv) then [msgEntry (fst kv)] else [])
           (entries byType).

(** [Object.values(...).reduce((sum, val) => sum + (typeof val === 'number' ? val : 0), 0)] *)
Definition storageByTypeSum (byType : value) : number :=
  fold_left (fun sum val =>
               Num.add sum (match val with VNumber n => n | _ => Fin 0 end))
            (values byType) (Fin 0).

(** The checks made before the early return, in source order. *)
Definition criticalErrors (storage : value) : list string :=
  let total := get storage "totalStorage" in
  let used := get storage "usedStorage" in
  let byType := get storage "storageByType" in
  let errors := [] in
  let errors := push errors (notPositiveNumber total) msgTotal in
  let errors := push errors (notNonNegativeNumber used) msgUsed in
  let errors := push errors (bothNumbersAnd (fun t u => Num.gt u t) total used) msgExceeds in
  let errors := push errors (negb (isArray (get storage "files"))) msgFiles in
  let errors :=
    push errors
         (negb (truthy byType) || negb (typeName_eqb (typeof byType) TObject)
          || isArray byType)
         msgByType in
  let errors :=
    if truthy byType && typeName_eqb (typeof byType) TObject then
      let errors := (errors ++ entryErrors byType)%list in
      push errors
           (match used with
            | VNumber u => Num.gt (storageByTypeSum byType) u
            | _ => false
            end)
           msgSum
    else errors in
  push errors (notValidDate (get storage "lastUpdated")) msgDate.

Definition validateStorageData (data : value) : Result :=
  if notAnObject data then mkResult false None [msgObject] else
  let storage := data in
  let errors := criticalErrors storage in
  if (0 <? List.length errors)%nat then mkResult false None errors else
  let files := Cast.asArray (get storage "files") in
  let validFiles := map Cast.asFileItem (filter validateFileItem files) in
  let invalidFileCount := List.length files in
  let filteredCount := (invalidFileCount - List.length validFiles)%nat in
  let errors := push errors (0 <? filteredCount)%nat (msgFiltered filteredCount) in
  let validatedData :=
    StorageData.mk (Cast.asNumber (get storage "totalStorage"))
                   (Cast.asNumber (get storage "usedStorage"))
                   validFiles
                   (Cast.asRecord (get storage "storageByType"))
                   (Cast.asDate (get storage "lastUpdated")) in
  mkResult true (Some validatedData)
           (if (0 <? filteredCount)%nat then errors else []).

Definition validateTabDefinition (tab : value) : bool :=
  if notAnObject tab then false else
  let tabDef := tab in
  if notNonEmptyString (get tabDef "id") then false else
  if notNonEmptyString (get tabDef "label") then false else
  if match get tabDef "icon" with
     | VUndefined | VString _ => false
     | _ => true
     end then false else
  if negb (truthy (get tabDef "component"))
     || (negb (typeName_eqb (typeof (get tabDef "component")) TFunction)
         && negb (typeName_eqb (typeof (get tabDef "component")) TObject))
  then false else
  if match get tabDef "order" with
     | VUndefined => false
     | VNumber n => Num.lt n (Fin 0) || negb (Num.isInteger n)
     | _ => true
     end then false else
  true.

End Validation.

(** ** Exceptions and the [writable] store of [svelte/store] *)

(** What a [throw] carries: an [Error] with its message, or anything else. *)
Inductive thrown : Type :=
| Error (message : string)
| NotAnError (v : value).

Inductive completion (A : Type) : Type :=
| Normal (a : A)
| Throw (e : thrown).

Arguments Normal {A} a.
Arguments Throw {A} e.

Module Writable.

Section Store.

Context {T : Type}.

Record t : Type := mk {
  current : T;
  history : list T
}.

Definition create (initial : T) : t := mk initial [initial].

(** [set]: the stored objects never compare equal to their successors,
    so every call replaces the value and notifies the subscribers. *)
Definition set (v : T) (w : t) : t := mk v (history w ++ [v])%list.

(** [update(fn)] is [set(fn(value))]; when [fn] throws, [set] is not
    reached. *)
Definition update (fn : T -> completion T) (w : t) : completion unit * t :=
  match fn (current w) with
  | Normal v => (Normal tt, set v w)
  | Throw e => (Throw e, w)
  end.

(** [update] with an updater that cannot throw. *)
Definition modify (fn : T -> T) (w : t) : t :=
  snd (update (fun v => Normal (fn v)) w).

End Store.

Arguments t : clear implicits.

End Writable.

(** ** [stores/storageStore.ts] *)

Module StorageStore.

Import StorageData.

Definition withUsedStorage (n : number) (now : Date) (data : t) : t :=
  mk (totalStorage data) n (files data) (storageByType data) now.

Definition withTotalStorage (n : number) (now : Date) (data : t) : t :=
  mk n (usedStorage data) (files data) (storageByType data) now.

Definition withFiles (l : list FileItem.t) (now : Date) (data : t) : t :=
  mk (totalStorage data) (usedStorage data) l (storageByType data) now.

Definition withStorageByType (m : list (string * number)) (now : Date) (data : t) : t :=
  mk (totalStorage data) (usedStorage data) (files data) m now.

Definition withLastUpdated (now : Date) (data : t) : t :=
  mk (totalStorage data) (usedStorage data) (files data) (storageByType data) now.

(** The module is loaded at instant [loaded]. *)
Definition initialStorageData (loaded : Z) : t :=
  mk (Num.of_Z (15 * 1024 ^ 3))
     (Num.of_Z (1024 ^ 3))
     []
     [ ("documents", Num.of_Z (512 * 1024 ^ 2));
       ("images", Num.of_Z (256 * 1024 ^ 2));
       ("videos", Num.of_Z (256 * 1024 ^ 2)) ]
     (Date_now loaded).

(** [Object.values(m).reduce((a, b) => a + b, 0)] *)
Definition sumValues (m : list (string * number)) : number :=
  fold_left Num.add (map snd m) (Fin 0).

(** [Object.fromEntries(Object.entries(m).map(([k, v]) => [k, Math.floor(v * scale)]))] *)
Definition scaleEntries (scale : number) (m : list (string * number))
  : list (string * number) :=
  map (fun kv => (fst kv, Num.floor (Num.mul (snd kv) scale))) m.

(** The correction that [customSet] and [customUpdate] both apply to
    the candidate before validating it. *)
Definition clamp (data : t) : t :=
  let sum := sumValues (storageByType data) in
  if Num.gt sum (usedStorage data) && Num.gt sum (Fin 0) then
    let scale := Num.div (usedStorage data) sum in
    mk (totalStorage data) (usedStorage data) (files data)
       (scaleEntries scale (storageByType data)) (lastUpdated data)
  else data.

Definition invalidMessage (errors : list string) : string :=
  "Invalid storage data: " ++ Str.join ", " errors.

(** Validation of the corrected candidate: the validated data, or the
    [Error] that is thrown. *)
Definition validated (fixedData : t) : completion t :=
  let validation := Validation.validateStorageData (Encode.storage fixedData) in
  match Validation.isValid validation, Validation.data validation with
  | true, Some d => Normal d
  | _, _ => Throw (Error (invalidMessage (Validation.errors validation)))
  end.

Definition store : Type := Writable.t t.

Definition customSet (data : t) (w : store) : completion unit * store :=
  let fixedData := clamp data in
  match validated fixedData with
  | Throw e => (Throw e, w)
  | Normal d => (Normal tt, Writable.set d w)
  end.

Definition customUpdate (updater : t -> t) (w : store) : completion unit * store :=
  Writable.update
    (fun currentData =>
       let newData := updater currentData in
       let fixedData := clamp newData in
       validated fixedData)
    w.

Definition updateUsedStorage (usedStorage : number) (now : Z) : store -> completion unit * store :=
  customUpdate (withUsedStorage usedStorage (Date_now now)).

Definition updateTotalStorage (totalStorage : number) (now : Z) : store -> completion unit * store :=
  customUpdate (withTotalStorage totalStorage (Date_now now)).

Definition updateFiles (files : list FileItem.t) (now : Z) : store -> completion unit * store :=
  customUpdate (withFiles files (Date_now now)).

Definition addFile (file : FileItem.t) (now : Z) : store -> completion unit * store :=
  customUpdate (fun data => withFiles (files data ++ [file]) (Date_now now) data).

Definition removeFile (fileId : string) (now : Z) : store -> completion unit * store :=
  customUpdate
    (fun data =>
       withFiles (filter (fun f => negb (String.eqb (FileItem.id f) fileId)) (files data))
                 (Date_now now) data).

Definition updateStorageByType (storageByType : list (string * number)) (now : Z)
  : store -> completion unit * store :=
  customUpdate
    (fun data =>
       let sum := sumValues storageByType in
       let fixedStorageByType :=
         if Num.gt sum (usedStorage data) && Num.gt sum (Fin 0) then
           let scale := Num.div (usedStorage data) sum in
           scaleEntries scale storageByType
         else storageByType in
       withStorageByType fixedStorageByType (Date_now now) data).

Definition updateTimestamp (now : Z) (w : store) : store :=
  Writable.modify (withLastUpdated (Date_now now)) w.

Definition reset (loaded now : Z) (w : store) : store :=
  Writable.set (withLastUpdated (Date_now now) (initialStorageData loaded)) w.

Definition storageStore (loaded : Z) : store :=
  Writable.create (initialStorageData loaded).

(** The operations of the store, and a program as a list of calls, each
    made at some instant. *)
Inductive operation : Type :=
| Set_ (data : t)
| Update (updater : t -> t)
| UpdateUsedStorage (usedStorage : number)
| UpdateTotalStorage (totalStorage : number)
| UpdateFiles (files : list FileItem.t)
| AddFile (file : FileItem.t)
| RemoveFile (fileId : string)
| UpdateStorageByType (storageByType : list (string * number))
| UpdateTimestamp
| Reset.

Definition call (loaded : Z) (op : operation) (now : Z) (w : store)
  : completion unit * store :=
  match op with
  | Set_ data => customSet data w
  | Update updater => customUpdate updater w
  | UpdateUsedStorage n => updateUsedStorage n now w
  | UpdateTotalStorage n => updateTotalStorage n now w
  | UpdateFiles l => updateFiles l now w
  | AddFile f => addFile f now w
  | RemoveFile i => removeFile i now w
  | UpdateStorageByType m => updateStorageByType m now w
  | UpdateTimestamp => (Normal tt, updateTimestamp now w)
  | Reset => (Normal tt, reset loaded now w)
  end.

(** A caller that catches what a call throws and carries on. *)
Definition run (loaded : Z) (calls : list (operation * Z)) (w : store) : store :=
  fold_left (fun w c => snd (call loaded (fst c) (snd c) w)) calls w.

End StorageStore.

(** ** [Array.prototype.sort]

    The sort is stable, and a comparator result of [NaN] counts as [+0].
    With a consistent comparator every stable sort returns the same
    array; it is computed here by insertion.  A comparator that is not
    consistent, as one that answers [NaN] for some pairs and a sign for
    others, leaves the order to the engine: of such a sort only what
    holds of every arrangement of the elements is stated, and what is
    stated of the order carries the hypothesis that no key is [NaN]. *)

Module ArraySort.

Section Sort.

Context {A : Type}.
Variable comparefn : A -> A -> number.

(** [x] must come after [y]. *)
Definition after (x y : A) : bool := Num.gt (comparefn x y) (Fin 0).

Fixpoint insert (x : A) (sorted : list A) : list A :=
  match sorted with
  | [] => [x]
  | y :: rest => if after x y then y :: insert x rest else x :: y :: rest
  end.

Fixpoint sort (l : list A) : list A :=
  match l with
  | [] => []
  | x :: rest => insert x (sort rest)
  end.

End Sort.

End ArraySort.

(** ** [stores/tabRegistry.ts] *)

Module TabRegistry.

Import TabDefinition.

(** [tab.order ?? 100] *)
Definition orderOrDefault (tab : t) : number :=
  match order tab with
  | Some n => n
  | None => Num.of_Z 100
  end.

Definition sortTabs (tabs : list t) : list t :=
  ArraySort.sort
    (fun a b =>
       let orderA := orderOrDefault a in
       let orderB := orderOrDefault b in
       Num.sub orderA orderB)
    tabs.

Definition registry : Type := Writable.t (list t).

Definition tabRegistry : registry := Writable.create [].

(** [tabs.some((tab) => tab.id === tabId)] *)
Definition someWithId (tabId : string) (tabs : list t) : bool :=
  existsb (fun tab => String.eqb (id tab) tabId) tabs.

(** The updater of [registerTab], with the flag it sets. *)
Definition registering (tabDef : t) (tabs : list t) : bool * list t :=
  let isDuplicate := someWithId (id tabDef) tabs in
  if isDuplicate then (false, tabs)
  else
    let tabWithOrder :=
      mk (id tabDef) (label tabDef) (icon tabDef) (component tabDef)
         (Some (orderOrDefault tabDef)) in
    let newTabs := (tabs ++ [tabWithOrder])%list in
    (true, sortTabs newTabs).

Definition registerTab (tabDef : t) (w : registry) : bool * registry :=
  let r := registering tabDef (Writable.current w) in
  (fst r, Writable.set (snd r) w).

Definition unregisterTab (tabId : string) (w : registry) : bool * registry :=
  let tabs := Writable.current w in
  let initialLength := List.length tabs in
  let newTabs := filter (fun tab => negb (String.eqb (id tab) tabId)) tabs in
  ((List.length newTabs <? initialLength)%nat, Writable.set newTabs w).


Definition hasTab (tabId : string) (w : registry) : bool :=
  someWithId tabId (Writable.current w).

Definition clear (w : registry) : registry := Writable.set [] w.

Definition set (tabs : list t) (w : registry) : registry :=
  Writable.set (sortTabs tabs) w.

Inductive operation : Type :=
| RegisterTab (tabDef : t)
| SetTabs (tabs : list t).

Definition call (op : operation) (w : registry) : registry :=
  match op with
  | RegisterTab tabDef => snd (registerTab tabDef w)
  | SetTabs tabs => set tabs w
  end.

Definition run (ops : list operation) (w : registry) : registry :=
  fold_left (fun w op => call op w) ops w.

End TabRegistry.

(** ** [stores/uiStore.ts] *)

Module UIStore.

Import UIState.

Definition initialUIState : t := mk "storage-overview" auto false None.

Definition store : Type := Writable.t t.

Definition uiStore : store := Writable.create initialUIState.

Definition setActiveTab (tabId : string) : store -> store :=
  Writable.modify (fun state => mk tabId (theme state) (isLoading state) (error state)).

Definition setTheme (theme : Theme) : store -> store :=
  Writable.modify (fun state => mk (activeTabId state) theme (isLoading state) (error state)).

Definition setLoading (isLoading : bool) : store -> store :=
  Writable.modify (fun state => mk (activeTabId state) (theme state) isLoading (error state)).

Definition setError (error : option string) : store -> store :=
  Writable.modify (fun state => mk (activeTabId state) (theme state) (isLoading state) error).

Definition clearError : store -> store :=
  Writable.modify (fun state => mk (activeTabId state) (theme state) (isLoading state) None).

Definition reset : store -> store := Writable.set initialUIState.

End UIStore.

(** ** [utils/fetchStorageData.ts] *)

Module Fetch.

(** What [await fetch(...)] yields: a response with its status and the
    outcome of [await response.json()]. *)
Record Response : Type := mkResponse {
  ok : bool;
  status : nat;
  json : completion value
}.

(** A response as the network delivers it: [ok] holds for 200 to 299. *)
Definition received (status : nat) (body : completion value) : Response :=
  mkResponse ((200 <=? status) && (status <=? 299))%nat status body.

Record stores : Type := mkStores {
  ui : UIStore.store;
  storage : StorageStore.store
}.

Section FetchStorageData.

(** The time value of [new Date(v)]. *)
Variable parseDate : value -> number.
(** The message of the [TypeError] of a property read on [null] or
    [undefined]. *)
Variable nullReadMessage : string.

(** [v.key ? new Date(v.key) : new Date()] *)
Definition dateOr (now : Z) (v : value) : value :=
  if Js.truthy v then VDate (parseDate v) else Encode.date (Date_now now).

(** [rawData.files.map((file) => ({ ...file, lastModified: ... }))] *)
Fixpoint filesWithDates (now : Z) (files : list value) : completion (list value) :=
  match files with
  | [] => Normal []
  | VUndefined :: _ | VNull :: _ => Throw (Error nullReadMessage)
  | file :: rest =>
      match filesWithDates now rest with
      | Throw e => Throw e
      | Normal rest' =>
          Normal (VObject (Js.assign "lastModified"
                                     (dateOr now (Js.get file "lastModified"))
                                     (Js.entries file)) :: rest')
      end
  end.

Definition dataWithDates (now : Z) (rawData : value) : completion value :=
  match rawData with
  | VUndefined | VNull => Throw (Error nullReadMessage)
  | _ =>
      let lastUpdated := dateOr now (Js.get rawData "lastUpdated") in
      match
        (if Js.isArray (Js.get rawData "files")
         then filesWithDates now (Cast.asArray (Js.get rawData "files"))
         else Normal [])
      with
      | Throw e => Throw e
      | Normal files =>
          Normal (VObject (Js.assign "files" (VArray files)
                             (Js.assign "lastUpdated" lastUpdated
                                (Js.entries rawData))))
      end
  end.

(** The body of the [try] block, entered with the stores as the
    first two statements leave them. *)
Definition attempt (fetched : completion Response) (now : Z) (s : stores)
  : completion StorageData.t * stores :=
  match fetched with
  | Throw e => (Throw e, s)
  | Normal response =>
      if negb (ok response) then
        (Throw (Error ("HTTP error! status: " ++ Str.of_nat (status response))), s)
      else
        match json response with
        | Throw e => (Throw e, s)
        | Normal rawData =>
            match dataWithDates now rawData with
            | Throw e => (Throw e, s)
            | Normal withDates =>
                let validation := Validation.validateStorageData withDates in
                match Validation.isValid validation, Validation.data validation with
                | true, Some d =>
                    let validatedData :=
                      StorageStore.withLastUpdated (Date_now now) d in
                    match StorageStore.customSet validatedData (storage s) with
                    | (Throw e, st) => (Throw e, mkStores (ui s) st)
                    | (Normal _, st) =>
                        (Normal validatedData,
                         mkStores (UIStore.setLoading false (ui s)) st)
                    end
                | _, _ =>
                    (Throw (Error ("Invalid storage data received: "
                                   ++ Str.join ", " (Validation.errors validation))),
                     s)
                end
            end
        end
  end.

Definition fetchStorageData (fetched : completion Response) (now : Z) (s : stores)
  : completion StorageData.t * stores :=
  let s := mkStores (UIStore.clearError (UIStore.setLoading true (ui s))) (storage s) in
  match attempt fetched now s with
  | (Normal validatedData, s) => (Normal validatedData, s)
  | (Throw error, s) =>
      let errorMessage :=
        match error with
        | Error message => message
        | NotAnError _ => "Failed to fetch storage data"
        end in
      (Throw error,
       mkStores (UIStore.setLoading false (UIStore.setError (Some errorMessage) (ui s)))
                (storage s))
  end.

End FetchStorageData.

End Fetch.

(** * Specification-side notions *)

Module Spec.

Import StorageData.

(** A non-negative finite number. *)
Definition nonNegative (n : number) : Prop :=
  exists q, n = Fin q /\ 0 <= q.

(** The sum of finite values, without any rounding; there is none when
    a value is not finite. *)
Fixpoint exactSum (values : list number) : option Q :=
  match values with
  | [] => Some 0
  | Fin q :: rest => option_map (Qplus q) (exactSum rest)
  | _ :: rest => None
  end.

(** The values added one after the other to [start], every sum rounded
    to a double: the sum as double arithmetic yields it. *)
Fixpoint addedUp (start : number) (values : list number) : number :=
  match values with
  | [] => start
  | v :: rest => addedUp (Num.add start v) rest
  end.

(** The aggregate invariants of a snapshot, the sum of the values of
    [storageByType] being their sum. *)
Definition aggregateInvariants (d : t) : Prop :=
  exists total used sum : Q,
    totalStorage d = Fin total /\ 0 < total /\
    usedStorage d = Fin used /\ 0 <= used /\ used <= total /\
    exactSum (map snd (storageByType d)) = Some sum /\ sum <= used.

(** The aggregate invariants with the sum taken in double arithmetic,
    in the order of the mapping. *)
Definition invariantsInDoubles (d : t) : Prop :=
  exists total used sum : Q,
    totalStorage d = Fin total /\ 0 < total /\
    usedStorage d = Fin used /\ 0 <= used /\ used <= total /\
    addedUp (Fin 0) (map snd (storageByType d)) = Fin sum /\ sum <= used.

(** The file records that pass [validateFileItem]. *)
Definition validFile (f : FileItem.t) : bool :=
  Validation.validateFileItem (Encode.file f).

(** A snapshot that passes every check of the validator and holds
    valid file records only. *)
Definition accepted (d : t) : Prop :=
  Validation.criticalErrors (Encode.storage d) = [] /\
  forallb validFile (files d) = true.

(** The store holds accepted snapshots only, and has only ever held
    such. *)
Definition sound (w : StorageStore.store) : Prop :=
  accepted (Writable.current w) /\ Forall accepted (Writable.history w).

(** A candidate that passes every check but the one on the sum of
    [storageByType], which in double arithmetic is [sum] and exceeds
    [used]. *)
Definition exceedsOnlyInSum (d : t) (used sum : Q) : Prop :=
  (exists total, totalStorage d = Fin total /\ 0 < total /\ used <= total) /\
  usedStorage d = Fin used /\ 0 <= used /\
  Forall (fun kv => nonNegative (snd kv)) (storageByType d) /\
  addedUp (Fin 0) (map snd (storageByType d)) = Fin sum /\ used < sum /\
  Num.isNaN (getTime (lastUpdated d)) = false.



(** A value [v] scaled in double arithmetic: the quotient [used / sum]
    is rounded, then its product with [v], and the floor is taken of
    that. *)
Definition scaledInDoubles (used sum : Q) (v : number) : number :=
  Num.floor (Num.mul v (Num.div (Fin used) (Fin sum))).

Definition correctedInDoubles (used sum : Q) (d : t) : t :=
  mk (totalStorage d) (usedStorage d)
     (filter validFile (files d))
     (map (fun kv => (fst kv, scaledInDoubles used sum (snd kv))) (storageByType d))
     (lastUpdated d).

(** The values of a breakdown add up, in double arithmetic, to a finite
    number that is at most [used]. *)
Definition withinUsed (used : Q) (m : list (string * number)) : Prop :=
  exists s, addedUp (Fin 0) (map snd m) = Fin s /\ s <= used.

(** Modelled on the words of the specification: removal of the first
    record whose id is [fileId]. *)
Fixpoint removeFirst (fileId : string) (l : list FileItem.t) : list FileItem.t :=
  match l with
  | [] => []
  | f :: rest =>
      if String.eqb (FileItem.id f) fileId then rest
      else f :: removeFirst fileId rest
  end.

Definition hasId (fileId : string) (f : FileItem.t) : bool :=
  String.eqb (FileItem.id f) fileId.

End Spec.

(** * Specification-side notions for the validator *)

Module CheckSpec.

(** The hard checks of a snapshot. *)
Inductive check : Type :=
| TotalStorage
| UsedStorage
| UsedWithinTotal
| Files
| ByType
| ByTypeEntry (type : string)
| ByTypeSum
| LastUpdated.

(** The message of each check. *)
Definition message (c : check) : string :=
  match c with
  | TotalStorage => Validation.msgTotal
  | UsedStorage => Validation.msgUsed
  | UsedWithinTotal => Validation.msgExceeds
  | Files => Validation.msgFiles
  | ByType => Validation.msgByType
  | ByTypeEntry type => Validation.msgEntry type
  | ByTypeSum => Validation.msgSum
  | LastUpdated => Validation.msgDate
  end.

(** A value that is an object other than [null]. *)
Definition isObject (v : value) : Prop :=
  Js.truthy v = true /\ Js.typeof v = TObject.

Definition positiveNumber (v : value) : Prop :=
  exists q, v = VNumber (Fin q) /\ 0 < q.

Definition nonNegativeNumber (v : value) : Prop :=
  exists q, v = VNumber (Fin q) /\ 0 <= q.

(** What a value of the mapping counts for in its sum: itself when it
    is a number, nothing otherwise. *)
Definition counted (v : value) : number :=
  match v with
  | VNumber n => n
  | _ => Fin 0
  end.

(** The sum of the values of the mapping, in double arithmetic and in
    the order of the mapping. *)
Definition typeSum (byType : value) : number :=
  Spec.addedUp (Fin 0) (map counted (Js.values byType)).

(** The sum of the values of the mapping, without rounding. *)
Definition exactTypeSum (byType : value) : option Q :=
  Spec.exactSum (map counted (Js.values byType)).

(** What it is for a candidate to fail a check. *)
Definition fails (storage : value) (c : check) : Prop :=
  let total := Js.get storage "totalStorage" in
  let used := Js.get storage "usedStorage" in
  let byType := Js.get storage "storageByType" in
  match c with
  | TotalStorage => ~ positiveNumber total
  | UsedStorage => ~ nonNegativeNumber used
  | UsedWithinTotal =>
      exists t u, total = VNumber t /\ used = VNumber u /\ Num.gt u t = true
  | Files => forall elems, Js.get storage "files" <> VArray elems
  | ByType => ~ isObject byType \/ exists elems, byType = VArray elems
  | ByTypeEntry type =>
      isObject byType /\
      exists x, In (type, x) (Js.entries byType) /\ ~ nonNegativeNumber x
  | ByTypeSum =>
      isObject byType /\
      exists u, used = VNumber u /\ Num.gt (typeSum byType) u = true
  | LastUpdated =>
      ~ exists time, Js.get storage "lastUpdated" = VDate time /\ time <> NaN
  end.

(** The number of records of a list that [validateFileItem] refuses. *)
Definition invalidCount (records : list value) : nat :=
  List.length (filter (fun x => negb (Validation.validateFileItem x)) records).

(** The snapshot that validation yields from a candidate with the file
    records [records]: the records that pass, in order. *)
Definition normalized (storage : value) (records : list value) : StorageData.t :=
  StorageData.mk (Cast.asNumber (Js.get storage "totalStorage"))
                 (Cast.asNumber (Js.get storage "usedStorage"))
                 (map Cast.asFileItem (filter Validation.validateFileItem records))
                 (Cast.asRecord (Js.get storage "storageByType"))
                 (Cast.asDate (Js.get storage "lastUpdated")).

End CheckSpec.

(** * Specification-side notions for the tab registry *)

Module TabSpec.

Import TabDefinition.

(** The entry as [registerTab] stores it: [order] defaulted to 100. *)
Definition withDefaultOrder (tabDef : t) : t :=
  mk (id tabDef) (label tabDef) (icon tabDef) (component tabDef)
     (Some (TabRegistry.orderOrDefault tabDef)).

(** The sort key of an entry is a number that can be compared: any
    number but [NaN]. *)
Definition comparable (tab : t) : Prop :=
  Num.isNaN (TabRegistry.orderOrDefault tab) = false.

Definition comparableEntries (op : TabRegistry.operation) : Prop :=
  match op with
  | TabRegistry.RegisterTab tabDef => comparable tabDef
  | TabRegistry.SetTabs tabs => Forall comparable tabs
  end.

(** [a] may precede [b]: its sort key is not the greater one. *)
Definition orderLe (a b : t) : Prop :=
  Num.le (TabRegistry.orderOrDefault a) (TabRegistry.orderOrDefault b) = true.

(** The entry has sort key [key]. *)
Definition hasOrder (key : number) (tab : t) : bool :=
  match Num.compare (TabRegistry.orderOrDefault tab) key with
  | Some Eq => true
  | _ => false
  end.

(** The entries in the order in which they arrived: a registered entry
    comes last, a bulk replacement comes in the order of the given list. *)
Definition arrive (arrived : list t) (op : TabRegistry.operation) : list t :=
  match op with
  | TabRegistry.RegisterTab tabDef =>
      if TabRegistry.someWithId (id tabDef) arrived then arrived
      else (arrived ++ [withDefaultOrder tabDef])%list
  | TabRegistry.SetTabs tabs => tabs
  end.

Definition arrival (ops : list TabRegistry.operation) : list t :=
  fold_left arrive ops [].

Definition hasId (tabId : string) (tab : t) : bool := String.eqb (id tab) tabId.

(** The collection [tabs] is the list [arrived] put in order: sorted by
    sort key, the entries of one key in their order of arrival, the same
    ids on both sides. *)
Definition ordered (tabs arrived : list t) : Prop :=
  Forall comparable tabs /\
  StronglySorted orderLe tabs /\
  (forall key, filter (hasOrder key) tabs = filter (hasOrder key) arrived) /\
  (forall tabId, TabRegistry.someWithId tabId tabs = TabRegistry.someWithId tabId arrived).


(** The comparator that [sortTabs] passes to [sort]. *)
Definition comparefn (a b : t) : number :=
  Num.sub (TabRegistry.orderOrDefault a) (TabRegistry.orderOrDefault b).

End TabSpec.

(** * Sample data *)

Module Examples.

Import StorageData.

Definition fileA : FileItem.t :=
  FileItem.mk "1" "a.txt" (Num.of_Z 100) "text/plain" (Date_now 1) "/a.txt".

Definition fileB : FileItem.t :=
  FileItem.mk "1" "b.txt" (Num.of_Z 200) "text/plain" (Date_now 1) "/b.txt".

(** Two valid file records that share the id ["1"]. *)
Definition twoWithSameId : t :=
  mk (Num.of_Z 1000) (Num.of_Z 500) [fileA; fileB] [] (Date_now 1).

Definition oneFile : t :=
  mk (Num.of_Z 1000) (Num.of_Z 500) [fileA] [] (Date_now 1).

(** A breakdown of 300 + 200 against 400 used out of 1000. *)
Definition oversized : t :=
  mk (Num.of_Z 1000) (Num.of_Z 400) []
     [("image/png", Num.of_Z 300); ("text/plain", Num.of_Z 200)] (Date_now 1).

(** The initial snapshot with a breakdown of 2 GiB against 1 GiB used,
    as [updateStorageByType] proposes it at the instant 1. *)
Definition doubleVideos : t :=
  StorageStore.withStorageByType [("videos", Num.of_Z (2 * 1024 ^ 3))] (Date_now 1)
                                 (StorageStore.initialStorageData 0).



(** A breakdown of [2 ^ 53] and [1] against [2 ^ 53] used: in double
    arithmetic the two add up to [2 ^ 53]. *)
Definition roundedAway : t :=
  mk (Num.of_Z (2 ^ 54)) (Num.of_Z (2 ^ 53)) []
     [("a", Num.of_Z (2 ^ 53)); ("b", Num.of_Z 1)] (Date_now 1).

(** A store that holds 3 used in one value of 3, and an amount just
    below 1: the double [1 - 2 ^ -53]. *)
Definition threeUsed : t :=
  mk (Num.of_Z 10) (Num.of_Z 3) [] [("a", Num.of_Z 3)] (Date_now 1).
Definition justBelowOne : number := Fin (9007199254740991 # 9007199254740992).

(** A store that is full, and a breakdown of two large values. *)
Definition allUsed : t :=
  mk (Num.of_Z 25737237213867380) (Num.of_Z 25737237213867380) [] [] (Date_now 1).
Definition twoLargeValues : list (string * number) :=
  [("a", Num.of_Z 51757390810360592); ("b", Num.of_Z 23837623364354296)].

(** More used than there is. *)
Definition overfull : t :=
  mk (Num.of_Z 500) (Num.of_Z 1000) [] [] (Date_now 1).

(** Tabs of order 30, 10 and 20. *)
Definition tab3 : TabDefinition.t :=
  TabDefinition.mk "tab-3" "Tab 3" None (VObject []) (Some (Num.of_Z 30)).
Definition tab1 : TabDefinition.t :=
  TabDefinition.mk "tab-1" "Tab 1" None (VObject []) (Some (Num.of_Z 10)).
Definition tab2 : TabDefinition.t :=
  TabDefinition.mk "tab-2" "Tab 2" None (VObject []) (Some (Num.of_Z 20)).

(** Two tabs with one id and different labels, neither with an order. *)
Definition firstTab : TabDefinition.t :=
  TabDefinition.mk "duplicate-tab" "First Tab" None (VObject []) None.
Definition secondTab : TabDefinition.t :=
  TabDefinition.mk "duplicate-tab" "Second Tab" None (VObject []) None.



(** A raw snapshot with three file records, the second with an empty id. *)
Definition fileNoId : FileItem.t :=
  FileItem.mk "" "invalid.txt" (Num.of_Z 50) "text/plain" (Date_now 1) "/invalid.txt".
Definition fileC : FileItem.t :=
  FileItem.mk "3" "c.txt" (Num.of_Z 10) "text/plain" (Date_now 1) "/c.txt".
Definition oneOfThreeInvalid : value :=
  Encode.storage (mk (Num.of_Z 1000) (Num.of_Z 500) [fileA; fileNoId; fileC] [] (Date_now 1)).

End Examples.

(** * Further code of the repository *)

(** ** The derived stores of [stores/storageStore.ts] *)

Module Derived.

Import StorageData.

(** [a === b] on numbers. *)
Definition strictEquals (a b : number) : bool :=
  match Num.compare a b with
  | Some Eq => true
  | _ => false
  end.

Definition storagePercentage (storageStore : t) : number :=
  if strictEquals (totalStorage storageStore) (Fin 0) then Fin 0
  else Num.mul (Num.div (usedStorage storageStore) (totalStorage storageStore)) (Fin 100).

Definition availableStorage (storageStore : t) : number :=
  Num.sub (totalStorage storageStore) (usedStorage storageStore).

End Derived.

(** ** All the operations of the tab registry *)

Module TabCommands.

Inductive command : Type :=
| Register (tabDef : TabDefinition.t)
| Unregister (tabId : string)
| Clear
| SetAll (tabs : list TabDefinition.t).

Definition execute (c : command) (w : TabRegistry.registry) : TabRegistry.registry :=
  match c with
  | Register tabDef => snd (TabRegistry.registerTab tabDef w)
  | Unregister tabId => snd (TabRegistry.unregisterTab tabId w)
  | Clear => TabRegistry.clear w
  | SetAll tabs => TabRegistry.set tabs w
  end.

Definition runAll (cs : list command) (w : TabRegistry.registry) : TabRegistry.registry :=
  fold_left (fun w c => execute c w) cs w.

(** The ids of a collection. *)
Definition ids (tabs : list TabDefinition.t) : list string :=
  map TabDefinition.id tabs.

(** A bulk replacement is given a list without repeated ids. *)
Definition distinctWhenSet (c : command) : Prop :=
  match c with
  | SetAll tabs => NoDup (ids tabs)
  | _ => True
  end.

End TabCommands.

(** ** [utils/sortFiles.ts] and [utils/filterFiles.ts] *)

Module FileUtils.

(** [c.toLowerCase()] on a code unit below 256.  On text whose
    characters all lie below U+0100, which is the text of this model,
    [toLowerCase] works character by character: the capital letters of
    ASCII and of Latin-1 move up by 32, the multiplication sign stays,
    and no rule that looks at the neighbours of a character applies. *)
Definition lowerChar (c : ascii) : ascii :=
  let n := nat_of_ascii c in
  if ((65 <=? n) && (n <=? 90)
      || (192 <=? n) && (n <=? 222) && negb (n =? 215))%nat
  then ascii_of_nat (n + 32)
  else c.

Fixpoint toLowerCase (s : string) : string :=
  match s with
  | EmptyString => EmptyString
  | String c rest => String (lowerChar c) (toLowerCase rest)
  end.

(** [s.includes(sub)] *)
Fixpoint includes (s sub : string) : bool :=
  String.prefix sub s
  || match s with
     | EmptyString => false
     | String _ rest => includes rest sub
     end.

Definition validSortFields : list string := ["name"; "size"; "date"; "type"].

Section SortFiles.

(** [a.localeCompare(b)], which depends on the locale of the host. *)
Variable localeCompare : string -> string -> number.

(** The comparator that [sortFiles] passes to [sort].  The elements of
    [files] are read at the type the signature gives them, [FileItem]:
    what is proved of [sortFiles] is proved of arrays of file records,
    [array fs]. *)
Definition comparator (sortBy order : string) (a b : FileItem.t) : number :=
  let result :=
    if String.eqb sortBy "name" then localeCompare (FileItem.name a) (FileItem.name b)
    else if String.eqb sortBy "size" then Num.sub (FileItem.size a) (FileItem.size b)
    else if String.eqb sortBy "date" then
      Num.sub (getTime (FileItem.lastModified a)) (getTime (FileItem.lastModified b))
    else if String.eqb sortBy "type" then localeCompare (FileItem.type a) (FileItem.type b)
    else Fin 0 in
  if String.eqb order "desc" then Num.neg result else result.

Definition sortFiles (files : value) (sortBy order : string)
  : completion (list FileItem.t) :=
  if negb (Js.isArray files) then Throw (Error "Files must be an array") else
  if negb (existsb (String.eqb sortBy) validSortFields) then
    Throw (Error ("Invalid sortBy field: " ++ sortBy ++ ". Must be one of: "
                  ++ Str.join ", " validSortFields))
  else
  if negb (String.eqb order "asc") && negb (String.eqb order "desc") then
    Throw (Error ("Invalid order: " ++ order ++ ". Must be 'asc' or 'desc'"))
  else
  let sortedFiles := map Cast.asFileItem (Cast.asArray files) in
  Normal (ArraySort.sort (comparator sortBy order) sortedFiles).

End SortFiles.

(** The predicate of the [filter] call of [filterFiles], on a file
    record. *)
Definition matches (normalizedFilter : string) (file : FileItem.t) : bool :=
  let nameMatch := includes (toLowerCase (FileItem.name file)) normalizedFilter in
  let pathMatch := includes (toLowerCase (FileItem.path file)) normalizedFilter in
  nameMatch || pathMatch.

Section FilterFiles.

(** The message of the [TypeError] that the callback of [filter] raises
    on an element that is [null] or [undefined], or whose [name] or
    [path] is not a string; its wording is the engine's. *)
Variable typeErrorMessage : value -> string.

(** [file.key.toLowerCase()], where it can be evaluated. *)
Definition lowered (file : value) (key : string) : option string :=
  match Js.get file key with
  | VString s => Some (toLowerCase s)
  | _ => None
  end.

(** The callback of the [filter] call, on an element of the array as it
    comes. *)
Definition matching (normalizedFilter : string) (file : value) : completion bool :=
  match lowered file "name", lowered file "path" with
  | Some name, Some path =>
      let nameMatch := includes name normalizedFilter in
      let pathMatch := includes path normalizedFilter in
      Normal (nameMatch || pathMatch)
  | _, _ => Throw (Error (typeErrorMessage file))
  end.

(** [files.filter(callback)]: the elements are visited in order, and the
    first one on which the callback throws ends the call. *)
Fixpoint select (normalizedFilter : string) (files : list value)
  : completion (list value) :=
  match files with
  | [] => Normal []
  | file :: rest =>
      match matching normalizedFilter file with
      | Throw e => Throw e
      | Normal keep =>
          match select normalizedFilter rest with
          | Throw e => Throw e
          | Normal kept => Normal (if keep then file :: kept else kept)
          end
      end
  end.

Definition filterFiles (files : value) (filterText : value)
  : completion (list FileItem.t) :=
  if negb (Js.isArray files) then Throw (Error "Files must be an array") else
  match filterText with
  | VString text =>
      let trimmedFilter := Str.trim text in
      if String.eqb trimmedFilter "" then
        Normal (map Cast.asFileItem (Cast.asArray files))
      else
        let normalizedFilter := toLowerCase trimmedFilter in
        match select normalizedFilter (Cast.asArray files) with
        | Throw e => Throw e
        | Normal kept => Normal (map Cast.asFileItem kept)
        end
  | _ => Throw (Error "Filter text must be a string")
  end.

End FilterFiles.

(** The array of typed file records. *)
Definition array (files : list FileItem.t) : value := VArray (map Encode.file files).

End FileUtils.

(** * Specification-side notions for the further code *)

Module MoreSpec.

(** A string with a character that is not white space. *)
Definition nonBlank (s : string) : Prop :=
  exists c, In c (list_ascii_of_string s) /\ Str.isWhiteSpace c = false.

(** The field constraints of a file record. *)
Definition wellFormedFile (f : FileItem.t) : Prop :=
  nonBlank (FileItem.id f) /\
  nonBlank (FileItem.name f) /\
  Spec.nonNegative (FileItem.size f) /\
  nonBlank (FileItem.type f) /\
  getTime (FileItem.lastModified f) <> NaN /\
  nonBlank (FileItem.path f).

(** A component that can be mounted: an object or a function. *)
Definition renderable (c : value) : Prop :=
  Js.truthy c = true /\ (Js.typeof c = TFunction \/ Js.typeof c = TObject).

(** The field constraints of a tab definition. *)
Definition wellFormedTab (t : TabDefinition.t) : Prop :=
  nonBlank (TabDefinition.id t) /\
  nonBlank (TabDefinition.label t) /\
  renderable (TabDefinition.component t) /\
  match TabDefinition.order t with
  | None => True
  | Some n => exists z : Z, (0 <= z)%Z /\ exists q, n = Fin q /\ q == inject_Z z
  end.

(** The new snapshot after [updateUsedStorage(n)] on [cur], whose
    breakdown adds up to [sum]: the breakdown is scaled when it no longer
    fits. *)
Definition withUsed (q sum : Q) (now : Z) (cur : StorageData.t) : StorageData.t :=
  StorageData.mk
    (StorageData.totalStorage cur) (Fin q) (StorageData.files cur)
    (if Qlt_le_dec q sum
     then map (fun kv => (fst kv, Spec.scaledInDoubles q sum (snd kv)))
              (StorageData.storageByType cur)
     else StorageData.storageByType cur)
    (Date_now now).

(** An element that the callback of [filterFiles] can look at: its
    [name] and its [path] are strings. *)
Definition searchable (file : value) : Prop :=
  (exists name, Js.get file "name" = VString name) /\
  (exists path, Js.get file "path" = VString path).

(** Sort keys of file records, and the two directions. *)
Definition sizeKey (f : FileItem.t) : number := FileItem.size f.
Definition dateKey (f : FileItem.t) : number := getTime (FileItem.lastModified f).

(** The key of the two sort fields that compare by subtraction. *)
Definition numericKey (sortBy : string) : option (FileItem.t -> number) :=
  if String.eqb sortBy "size" then Some sizeKey
  else if String.eqb sortBy "date" then Some dateKey
  else None.

(** The two orders that [sortFiles] accepts. *)
Definition validOrder (order : string) : Prop := order = "asc" \/ order = "desc".

(** Sorting by a numeric key, upwards or downwards: the comparator, the
    order it aims at, and the elements that can be compared. *)
Definition keyCompare {A : Type} (key : A -> number) (desc : bool) (a b : A) : number :=
  let result := Num.sub (key a) (key b) in
  if desc then Num.neg result else result.

Definition inOrder {A : Type} (key : A -> number) (desc : bool) (a b : A) : Prop :=
  if desc then Num.le (key b) (key a) = true else Num.le (key a) (key b) = true.

Definition sameKey {A : Type} (key : A -> number) (k : number) (a : A) : bool :=
  match Num.compare (key a) k with
  | Some Eq => true
  | _ => false
  end.

Definition comparableKey {A : Type} (key : A -> number) (a : A) : Prop :=
  Num.isNaN (key a) = false.

End MoreSpec.

(** * Facts about rounding *)

Module RoundFacts.

Lemma Fin_inj p q : Fin p = Fin q -> p = q.
Proof. intros H. injection H as H. exact H. Qed.

Lemma pow2_pos e : 0 < 2 ^ e.
Proof. apply Qpower_0_lt. reflexivity. Qed.

Lemma nearestEven_above (J : Z) s : inject_Z J <= s -> (J <= Num.nearestEven s)%Z.
Proof.
  intros H. apply Qfloor_resp_le in H. rewrite Qfloor_Z in H.
  unfold Num.nearestEven. destruct (Qcompare _ _); [destruct (Z.even _) | | ]; lia.
Qed.

Lemma nearestEven_below (J : Z) s : s <= inject_Z J -> (Num.nearestEven s <= J)%Z.
Proof.
  intros H. pose proof (Qfloor_resp_le _ _ H) as Hf. rewrite Qfloor_Z in Hf.
  unfold Num.nearestEven.
  destruct (Qcompare (s - inject_Z (Qfloor s)) (1 # 2)) eqn:E.
  - destruct (Z.even _); [exact Hf | ].
    apply Qeq_alt in E. enough (Qfloor s < J)%Z by lia.
    rewrite Zlt_Qlt. lra.
  - exact Hf.
  - apply Qgt_alt in E. enough (Qfloor s < J)%Z by lia.
    rewrite Zlt_Qlt. lra.
Qed.

(** A bound on a quotient, multiplied through. *)
Lemma le_div_inv a b c : 0 < c -> a <= b / c -> a * c <= b.
Proof.
  intros Hc H. apply Qle_trans with (b / c * c).
  - apply Qmult_le_compat_r; [exact H | apply Qlt_le_weak, Hc].
  - apply Qle_lteq. right. field. lra.
Qed.

Lemma roundPositive_cases a :
  0 < a ->
  Num.roundPositive a = PInf \/ exists r, Num.roundPositive a = Fin r /\ 0 <= r.
Proof.
  intros Ha. unfold Num.roundPositive. cbv zeta.
  destruct (Qle_bool _ _); [left; reflexivity | right].
  eexists. split; [reflexivity | ]. rewrite Qred_correct.
  apply Qmult_le_0_compat; [ | apply Qlt_le_weak, pow2_pos].
  change 0 with (inject_Z 0). rewrite <- Zle_Qle. apply nearestEven_above.
  pose proof (pow2_pos (Num.ulpExponent a)) as Hp.
  apply Qle_shift_div_l; [exact Hp | ]. change (inject_Z 0) with 0.
  rewrite Qmult_0_l. apply Qlt_le_weak, Ha.
Qed.

(** The quotient of the bit lengths is within one of the binary logarithm. *)
Lemma log2_guess a :
  0 < a -> 2 ^ (Z.log2 (Qnum a) - Z.log2 (Zpos (Qden a)) - 1) < a.
Proof.
  destruct a as [n d]. intros Ha. cbn [Qnum Qden].
  assert (Hn : (0 < n)%Z).
  { unfold Qlt in Ha. cbn in Ha. lia. }
  destruct (Z.log2_spec n Hn) as (Hn1 & _).
  destruct (Z.log2_spec (Zpos d) (Pos2Z.is_pos d)) as (_ & Hd2).
  set (ln := Z.log2 n) in *. set (ld := Z.log2 (Zpos d)) in *.
  assert (Hln : (0 <= ln)%Z) by apply Z.log2_nonneg.
  assert (Hld : (0 <= ld)%Z) by apply Z.log2_nonneg.
  replace (ln - ld - 1)%Z with (ln + - (ld + 1))%Z by lia.
  rewrite Qpower_plus by discriminate. rewrite Qpower_opp.
  rewrite <- (Zpower_Qpower 2 ln Hln), <- (Zpower_Qpower 2 (ld + 1)) by lia.
  assert (Hp : (0 < 2 ^ (ld + 1))%Z) by (apply Z.pow_pos_nonneg; lia).
  assert (Hq : (0 < 2 ^ ln)%Z) by (apply Z.pow_pos_nonneg; lia).
  apply Qlt_shift_div_r;
    [change (inject_Z 0 < inject_Z (2 ^ (ld + 1))); rewrite <- Zlt_Qlt; exact Hp | ].
  unfold Qlt, Qmult, inject_Z. cbn [Qnum Qden]. 
  replace (Z.succ ld) with (ld + 1)%Z in Hd2 by lia. nia.
Qed.

Lemma pow2_le m n : (m <= n)%Z -> 2 ^ m <= 2 ^ n.
Proof. intros H. apply Qpower_le_compat_l; [exact H | discriminate]. Qed.

Lemma pow2_lt_inv m n : 2 ^ m < 2 ^ n -> (m < n)%Z.
Proof. intros H. apply (Qpower_lt_compat_l_inv 2); [exact H | reflexivity]. Qed.

Lemma pow2_succ e : 2 ^ (e + 1) == 2 * 2 ^ e.
Proof. rewrite Qpower_plus by discriminate. change (2 ^ 1) with 2. ring. Qed.

(** The exponent the rounding works at leaves at least a unit. *)
Lemma ulpExponent_below a :
  2 ^ (-1074) <= a -> 2 ^ Num.ulpExponent a <= a.
Proof.
  intros Ha. assert (Hpos : 0 < a) by (pose proof (pow2_pos (-1074)); lra).
  unfold Num.ulpExponent. cbv zeta.
  set (guess := (Z.log2 (Qnum a) - Z.log2 (Zpos (Qden a)))%Z).
  set (low := Z.max (-1074) (guess - 53)).
  assert (Hlow : 2 ^ low <= a).
  { destruct (Z.max_spec (-1074) (guess - 53)) as [(_ & E) | (_ & E)]; fold low in E; rewrite E.
    - apply Qle_trans with (2 ^ (guess - 1)); [apply pow2_le; lia | ].
      apply Qlt_le_weak. apply (log2_guess a Hpos).
    - exact Ha. }
  destruct (Z.leb_spec (2 ^ 53) (Qfloor (a / 2 ^ low))) as [Hb | _]; [ | exact Hlow].
  pose proof (pow2_pos low) as Hp.
  assert (H1 : inject_Z (2 ^ 53) <= a / 2 ^ low).
  { apply Qle_trans with (inject_Z (Qfloor (a / 2 ^ low))); [ | apply Qfloor_le].
    rewrite <- Zle_Qle. exact Hb. }
  rewrite pow2_succ.
  apply le_div_inv in H1; [ | exact Hp]. 
  assert (H2 : 2 <= inject_Z (2 ^ 53)) by discriminate.
  nra.
Qed.

Lemma ulpExponent_integers a :
  0 < a -> a < 2 ^ 53 -> (Num.ulpExponent a <= 0)%Z.
Proof.
  intros Hpos Ha. unfold Num.ulpExponent. cbv zeta.
  set (guess := (Z.log2 (Qnum a) - Z.log2 (Zpos (Qden a)))%Z).
  set (low := Z.max (-1074) (guess - 53)).
  assert (Hg : (guess - 1 < 53)%Z).
  { apply pow2_lt_inv. apply Qlt_trans with a; [apply (log2_guess a Hpos) | exact Ha]. }
  assert (Hlow : (low <= 0)%Z) by (unfold low; lia).
  destruct (Z.leb_spec (2 ^ 53) (Qfloor (a / 2 ^ low))) as [Hb | _]; [ | exact Hlow].
  enough (low < 0)%Z by lia.
  pose proof (pow2_pos low) as Hp.
  assert (H1 : inject_Z (2 ^ 53) <= a / 2 ^ low).
  { apply Qle_trans with (inject_Z (Qfloor (a / 2 ^ low))); [ | apply Qfloor_le].
    rewrite <- Zle_Qle. exact Hb. }
  apply le_div_inv in H1; [ | exact Hp].
  destruct (Z.eq_dec low 0) as [E | ]; [ | lia].
  exfalso. rewrite E in H1. change (2 ^ 0) with 1 in H1.
  change (inject_Z (2 ^ 53)) with (2 ^ 53) in H1. lra.
Qed.


(** A positive number that is no smaller than the least double is
    rounded to a positive double, or overflows. *)
Lemma roundPositive_positive a :
  2 ^ (-1074) <= a ->
  Num.roundPositive a = PInf \/ exists r, Num.roundPositive a = Fin r /\ 0 < r.
Proof.
  intros Ha. unfold Num.roundPositive. cbv zeta.
  destruct (Qle_bool _ _); [left; reflexivity | right].
  eexists. split; [reflexivity | ]. rewrite Qred_correct.
  pose proof (pow2_pos (Num.ulpExponent a)) as Hp.
  assert (Hm : (1 <= Num.nearestEven (a / 2 ^ Num.ulpExponent a))%Z).
  { apply nearestEven_above. apply Qle_shift_div_l; [exact Hp | ].
    rewrite Qmult_1_l. apply ulpExponent_below, Ha. }
  rewrite Zle_Qle in Hm. change (inject_Z 1) with 1 in Hm. nra.
Qed.

(** Rounding does not step over an integer below [2 ^ 53]. *)
Lemma rounded_below (J : Z) a :
  0 < a -> a < 2 ^ 53 -> a <= inject_Z J ->
  inject_Z (Num.nearestEven (a / 2 ^ Num.ulpExponent a)) * 2 ^ Num.ulpExponent a
  <= inject_Z J.
Proof.
  intros Hpos Hsmall HJ.
  pose proof (ulpExponent_integers a Hpos Hsmall) as He.
  set (e := Num.ulpExponent a) in *.
  pose proof (pow2_pos e) as Hp.
  assert (Hgrid : inject_Z J / 2 ^ e == inject_Z (J * 2 ^ (- e))).
  { rewrite inject_Z_mult, Zpower_Qpower by lia. rewrite Qpower_opp.
    change (inject_Z 2) with 2. field. lra. }
  assert (Hm : (Num.nearestEven (a / 2 ^ e) <= J * 2 ^ (- e))%Z).
  { apply nearestEven_below. rewrite <- Hgrid.
    apply Qle_shift_div_l; [exact Hp | ].
    apply Qle_trans with a; [ | exact HJ].
    apply Qle_lteq. right. field. lra. }
  rewrite Zle_Qle, <- Hgrid in Hm.
  apply le_div_inv in Hm; [exact Hm | exact Hp].
Qed.

Lemma roundPositive_le_integer (J : Z) a :
  0 < a -> a < 2 ^ 53 -> a <= inject_Z J ->
  exists r, Num.roundPositive a = Fin r /\ 0 <= r /\ r <= inject_Z J.
Proof.
  intros Hpos Hsmall HJ.
  pose proof (rounded_below J a Hpos Hsmall HJ) as H1.
  pose proof (rounded_below (2 ^ 53) a Hpos Hsmall) as H2.
  destruct (roundPositive_cases a Hpos) as [E | (r & E & Hr)].
  - exfalso. unfold Num.roundPositive in E. cbv zeta in E.
    destruct (Qle_bool _ _) eqn:Eb; [ | discriminate E].
    apply Qle_bool_iff in Eb.
    assert (H3 : a <= inject_Z (2 ^ 53)) by (apply Qlt_le_weak; exact Hsmall).
    specialize (H2 H3).
    assert (H4 : inject_Z (2 ^ 53) < 2 ^ 1024) by reflexivity.
    lra.
  - exists r. split; [exact E | split; [exact Hr | ]].
    unfold Num.roundPositive in E. cbv zeta in E.
    destruct (Qle_bool _ _); [discriminate E | ].
    apply Fin_inj in E. rewrite <- E. eapply Qle_trans; [ | exact H1].
    apply Qle_lteq. right. apply Qred_correct.
Qed.

Lemma round_nonneg q :
  0 <= q -> Num.round q = PInf \/ exists r, Num.round q = Fin r /\ 0 <= r.
Proof.
  intros Hq. unfold Num.round. destruct (Qcompare q 0) eqn:E.
  - right. exists 0. split; [reflexivity | apply Qle_refl].
  - apply Qlt_alt in E. lra.
  - apply Qgt_alt in E. apply roundPositive_cases, E.
Qed.

Lemma sum_nonneg s :
  0 <= s -> Num.sum s = PInf \/ exists r, Num.sum s = Fin r /\ 0 <= r.
Proof.
  intros Hs. unfold Num.sum. destruct (Qle_bool _ _); [apply round_nonneg, Hs | ].
  right. eexists. split; [reflexivity | rewrite Qred_correct; exact Hs].
Qed.

(** A sum has the sign it would have without rounding. *)
Lemma sum_sign s : Num.compare (Num.sum s) (Fin 0) = Some (Qcompare s 0).
Proof.
  unfold Num.sum. destruct (Qle_bool (2 ^ (-1074)) (Qabs s)) eqn:E.
  - apply Qle_bool_iff in E. pose proof (pow2_pos (-1074)) as Hp.
    unfold Num.round. destruct (Qcompare s 0) eqn:Es.
    + apply Qeq_alt in Es. rewrite Es in E. change (Qabs 0) with 0 in E. lra.
    + apply Qlt_alt in Es.
      rewrite (Qabs_neg s) in E by lra.
      destruct (roundPositive_positive (- s) E) as [-> | (r & -> & Hr)]; [reflexivity | ].
      cbn [Num.neg Num.compare]. f_equal. apply (proj1 (Qlt_alt _ _)).
      clear - Hr. lra.
    + apply Qgt_alt in Es.
      rewrite (Qabs_pos s) in E by lra.
      destruct (roundPositive_positive s E) as [-> | (r & -> & Hr)]; [reflexivity | ].
      cbn [Num.compare]. f_equal. apply (proj1 (Qgt_alt _ _)). exact Hr.
  - cbn [Num.compare]. f_equal.
    apply Qcompare_comp; [apply Qred_correct | reflexivity].
Qed.

Lemma round_le_integer (J : Z) q :
  0 <= q -> q < 2 ^ 53 -> q <= inject_Z J ->
  exists r, Num.round q = Fin r /\ 0 <= r /\ r <= inject_Z J.
Proof.
  intros Hq Hsmall HJ. unfold Num.round. destruct (Qcompare q 0) eqn:E.
  - exists 0. split; [reflexivity | split; [apply Qle_refl | lra]].
  - apply Qlt_alt in E. lra.
  - apply Qgt_alt in E. apply roundPositive_le_integer; assumption.
Qed.

End RoundFacts.

(** * Facts about numbers *)

Module NumFacts.

Lemma gt_Fin p q : Num.gt (Fin p) (Fin q) = true <-> q < p.
Proof.
  unfold Num.gt, Num.compare. rewrite (Qgt_alt p q).
  destruct (p ?= q); split; congruence.
Qed.

Lemma gt_Fin_false p q : Num.gt (Fin p) (Fin q) = false <-> p <= q.
Proof.
  unfold Num.gt, Num.compare. rewrite (Qle_alt p q).
  destruct (p ?= q); split; congruence.
Qed.

Lemma lt_Fin_false p q : Num.lt (Fin p) (Fin q) = false <-> q <= p.
Proof.
  unfold Num.lt, Num.compare. split.
  - intros H. apply Qnot_lt_le. intros Hlt.
    destruct (p ?= q) eqn:E; try discriminate;
      apply (proj1 (Qlt_alt p q)) in Hlt; congruence.
  - intros H. destruct (p ?= q) eqn:E; try reflexivity.
    apply (proj2 (Qlt_alt p q)) in E. exfalso. apply (Qlt_not_le _ _ E H).
Qed.

Lemma le_Fin_false p q : Num.le (Fin p) (Fin q) = false <-> q < p.
Proof.
  unfold Num.le, Num.compare. rewrite (Qgt_alt p q).
  destruct (p ?= q); split; congruence.
Qed.

(** A number that is neither negative nor infinite nor [NaN]. *)
Lemma nonNegative_iff n :
  Num.lt n (Fin 0) || negb (Num.isFinite n) = false <-> Spec.nonNegative n.
Proof.
  unfold Spec.nonNegative. destruct n as [ | | | q]; cbn [Num.isFinite negb].
  - split; [discriminate | intros (q & H & _); discriminate].
  - split; [discriminate | intros (q & H & _); discriminate].
  - split; [discriminate | intros (q & H & _); discriminate].
  - rewrite orb_false_r. rewrite lt_Fin_false. split.
    + intros H. exists q. split; [reflexivity | exact H].
    + intros (q' & H & Hq). injection H as <-. exact Hq.
Qed.

Lemma positive_iff n :
  Num.le n (Fin 0) || negb (Num.isFinite n) = false <->
  exists q, n = Fin q /\ 0 < q.
Proof.
  destruct n as [ | | | q]; cbn [Num.isFinite negb].
  - split; [discriminate | intros (q & H & _); discriminate].
  - split; [discriminate | intros (q & H & _); discriminate].
  - split; [discriminate | intros (q & H & _); discriminate].
  - rewrite orb_false_r. rewrite le_Fin_false. split.
    + intros H. exists q. split; [reflexivity | exact H].
    + intros (q' & H & Hq). injection H as <-. exact Hq.
Qed.

(** A sum has the sign of the exact sum. *)
Lemma add_sign p q :
  Num.compare (Num.add (Fin p) (Fin q)) (Fin 0) = Some (Qcompare (p + q) 0).
Proof. apply RoundFacts.sum_sign. Qed.

(** Adding non-negative finite values to positive infinity leaves it. *)
Lemma fold_add_PInf (l : list number) :
  Forall Spec.nonNegative l -> fold_left Num.add l PInf = PInf.
Proof.
  induction 1 as [ | n l (q & -> & Hq) _ IH]; [reflexivity | exact IH].
Qed.

(** The sum of non-negative finite values, from any non-negative finite
    start, is such a value or positive infinity. *)
Lemma fold_add_nonNegative (l : list number) :
  Forall Spec.nonNegative l ->
  forall a, 0 <= a ->
  fold_left Num.add l (Fin a) = PInf \/
  exists s, fold_left Num.add l (Fin a) = Fin s /\ 0 <= s.
Proof.
  induction 1 as [ | n l (q & -> & Hq) Hl IH]; intros a Ha; cbn [fold_left].
  - right. exists a. split; [reflexivity | exact Ha].
  - cbn [Num.add].
    destruct (RoundFacts.sum_nonneg (a + q)) as [-> | (r & -> & Hr)]; [lra | | ].
    + left. apply fold_add_PInf, Hl.
    + apply IH, Hr.
Qed.

Lemma le_Fin p q : Num.le (Fin p) (Fin q) = true <-> p <= q.
Proof.
  unfold Num.le, Num.compare. rewrite (Qle_alt p q).
  destruct (p ?= q); split; congruence.
Qed.

(** The comparator [a - b] is positive exactly when [a] is the greater. *)
Lemma sub_positive a b :
  Num.isNaN a = false -> Num.isNaN b = false ->
  Num.gt (Num.sub a b) (Fin 0) = true <-> Num.compare a b = Some Gt.
Proof.
  destruct a as [ | | | p], b as [ | | | q]; try discriminate; intros _ _;
    try (split; [reflexivity | reflexivity]);
    try (split; discriminate).
  unfold Num.sub, Num.gt. cbn [Num.neg]. rewrite add_sign. cbn [Num.compare].
  split; intros H.
  - f_equal. apply (proj1 (Qgt_alt p q)).
    destruct (Qcompare (p + - q) 0) eqn:E; try discriminate H.
    apply (proj2 (Qgt_alt _ _)) in E. lra.
  - injection H as H. apply (proj2 (Qgt_alt p q)) in H.
    assert (E : Qcompare (p + - q) 0 = Gt) by (apply (proj1 (Qgt_alt _ _)); lra).
    rewrite E. reflexivity.
Qed.

Lemma le_of_not_gt a b :
  Num.isNaN a = false -> Num.isNaN b = false ->
  Num.compare a b <> Some Gt -> Num.le a b = true.
Proof.
  intros Ha Hb H. unfold Num.le.
  destruct a, b; try discriminate; cbn [Num.compare] in *;
    try reflexivity; try (exfalso; apply H; reflexivity).
  destruct (q ?= q0); try reflexivity. exfalso. apply H. reflexivity.
Qed.

Lemma le_of_gt a b : Num.compare a b = Some Gt -> Num.le b a = true.
Proof.
  destruct a as [ | | | p], b as [ | | | q]; cbn [Num.compare]; try discriminate;
    try reflexivity.
  intros [= H]. apply (proj2 (Qgt_alt p q)) in H. apply le_Fin. lra.
Qed.

Lemma le_trans a b c : Num.le a b = true -> Num.le b c = true -> Num.le a c = true.
Proof.
  destruct a as [ | | | p], b as [ | | | q], c as [ | | | r];
    try discriminate; try reflexivity.
  rewrite !le_Fin. apply Qle_trans.
Qed.

(** Two numbers equal to a third are not one greater than the other. *)
Lemma equal_not_gt a b k :
  Num.compare a k = Some Eq -> Num.compare b k = Some Eq ->
  Num.compare a b <> Some Gt.
Proof.
  destruct a as [ | | | p], b as [ | | | q], k as [ | | | r];
    cbn [Num.compare]; try discriminate.
  intros [= H1] [= H2] [= H3].
  apply (proj2 (Qeq_alt p r)) in H1. apply (proj2 (Qeq_alt q r)) in H2.
  apply (proj2 (Qgt_alt p q)) in H3. lra.
Qed.

End NumFacts.

(** * Facts about the validator on typed snapshots *)

Module ValidationFacts.

Import StorageData.

Lemma push_nil errors cond message :
  Validation.push errors cond message = [] -> errors = [] /\ cond = false.
Proof.
  unfold Validation.push. destruct cond; intros H.
  - destruct errors; discriminate.
  - split; [exact H | reflexivity].
Qed.

Lemma asFileItem_file f : Cast.asFileItem (Encode.file f) = f.
Proof. destruct f as [i n s ty [tm] p]. reflexivity. Qed.

Lemma asRecord_record m : Cast.asRecord (Encode.record m) = m.
Proof.
  unfold Cast.asRecord, Encode.record. simpl. rewrite map_map.
  rewrite <- (map_id m) at 2. apply map_ext. intros [k v]. reflexivity.
Qed.

Lemma asDate_date d : Cast.asDate (Encode.date d) = d.
Proof. destruct d. reflexivity. Qed.

Lemma valid_files_of_encoded l :
  map Cast.asFileItem (filter Validation.validateFileItem (map Encode.file l))
  = filter Spec.validFile l.
Proof.
  induction l as [ | f l IH]; [reflexivity | ].
  cbn [map filter]. unfold Spec.validFile at 1.
  destruct (Validation.validateFileItem (Encode.file f)).
  - cbn [map]. rewrite asFileItem_file, IH. reflexivity.
  - exact IH.
Qed.

Lemma sumValues_addedUp m :
  StorageStore.sumValues m = Spec.addedUp (Fin 0) (map snd m).
Proof.
  unfold StorageStore.sumValues.
  enough (G : forall l a, fold_left Num.add l a = Spec.addedUp a l) by apply G.
  induction l as [ | v l IH]; intros a; [reflexivity | apply IH].
Qed.

Lemma storageByTypeSum_record m :
  Validation.storageByTypeSum (Encode.record m) = StorageStore.sumValues m.
Proof.
  unfold Validation.storageByTypeSum, StorageStore.sumValues, Js.values.
  cbn [Encode.record Js.entries].
  enough (G : forall a,
             fold_left (fun sum val =>
                          Num.add sum (match val with VNumber n => n | _ => Fin 0 end))
                       (map snd (map (fun kv => (fst kv, VNumber (snd kv))) m)) a
             = fold_left Num.add (map snd m) a) by apply G.
  induction m as [ | [k v] m IH]; intros a; [reflexivity | ].
  cbn [map fold_left fst snd]. apply IH.
Qed.

Lemma entryErrors_record_nil m :
  Validation.entryErrors (Encode.record m) = [] <->
  Forall (fun kv => Spec.nonNegative (snd kv)) m.
Proof.
  unfold Validation.entryErrors. cbn [Encode.record Js.entries].
  induction m as [ | [k v] m IH]; cbn [map flat_map fst snd].
  - split; [constructor | reflexivity].
  - unfold Validation.notNonNegativeNumber at 1.
    destruct (Num.lt v (Fin 0) || negb (Num.isFinite v)) eqn:E.
    + split; [discriminate | ].
      intros H. inversion H as [ | ? ? Hv _]; subst.
      apply NumFacts.nonNegative_iff in Hv. simpl in Hv. congruence.
    + rewrite app_nil_l, IH. split.
      * intros H. constructor; [ | exact H].
        apply NumFacts.nonNegative_iff. exact E.
      * intros H. inversion H; assumption.
Qed.

(** The critical checks on an encoded snapshot, spelt out on its fields. *)
Lemma criticalErrors_storage d :
  Validation.criticalErrors (Encode.storage d) =
  Validation.push
    (Validation.push
       ((Validation.push
           (Validation.push
              (Validation.push []
                 (Num.le (totalStorage d) (Fin 0) || negb (Num.isFinite (totalStorage d)))
                 Validation.msgTotal)
              (Num.lt (usedStorage d) (Fin 0) || negb (Num.isFinite (usedStorage d)))
              Validation.msgUsed)
           (Num.gt (usedStorage d) (totalStorage d))
           Validation.msgExceeds)
        ++ Validation.entryErrors (Encode.record (storageByType d)))
       (Num.gt (StorageStore.sumValues (storageByType d)) (usedStorage d))
       Validation.msgSum)
    (Num.isNaN (getTime (lastUpdated d)))
    Validation.msgDate.
Proof.
  rewrite <- storageByTypeSum_record. destruct d as [t u l m [tm]]. reflexivity.
Qed.

(** The critical checks do not look into the file records, and see of
    the time stamp only whether it is valid. *)
Lemma criticalErrors_frame d d' :
  totalStorage d' = totalStorage d ->
  usedStorage d' = usedStorage d ->
  storageByType d' = storageByType d ->
  Num.isNaN (getTime (lastUpdated d')) = Num.isNaN (getTime (lastUpdated d)) ->
  Validation.criticalErrors (Encode.storage d')
  = Validation.criticalErrors (Encode.storage d).
Proof.
  intros Ht Hu Hm Hl. rewrite !criticalErrors_storage, Ht, Hu, Hm, Hl. reflexivity.
Qed.

(** What passing the critical checks means for the fields. *)
Lemma criticalErrors_nil d :
  Validation.criticalErrors (Encode.storage d) = [] <->
  exists total used sum : Q,
    totalStorage d = Fin total /\ 0 < total /\
    usedStorage d = Fin used /\ 0 <= used /\ used <= total /\
    Forall (fun kv => Spec.nonNegative (snd kv)) (storageByType d) /\
    StorageStore.sumValues (storageByType d) = Fin sum /\ sum <= used /\
    Num.isNaN (getTime (lastUpdated d)) = false.
Proof.
  rewrite criticalErrors_storage. split.
  - intros H.
    apply push_nil in H. destruct H as (H & Hdate).
    apply push_nil in H. destruct H as (H & Hsum).
    apply app_eq_nil in H. destruct H as (H & Hentries).
    apply push_nil in H. destruct H as (H & Hexceeds).
    apply push_nil in H. destruct H as (H & Hused).
    apply push_nil in H. destruct H as (_ & Htotal).
    apply NumFacts.positive_iff in Htotal. destruct Htotal as (total & Ht & Htpos).
    apply NumFacts.nonNegative_iff in Hused. destruct Hused as (used & Hu & Hupos).
    apply entryErrors_record_nil in Hentries.
    destruct (NumFacts.fold_add_nonNegative (map snd (storageByType d))) with (a := 0)
      as [Hs | (sum & Hs & _)].
    { apply Forall_map. exact Hentries. }
    { apply Qle_refl. }
    { fold (StorageStore.sumValues (storageByType d)) in Hs.
      rewrite Hs, Hu in Hsum. discriminate Hsum. }
    fold (StorageStore.sumValues (storageByType d)) in Hs.
    rewrite Ht, Hu in Hexceeds. rewrite Hs, Hu in Hsum.
    apply NumFacts.gt_Fin_false in Hexceeds. apply NumFacts.gt_Fin_false in Hsum.
    exists total, used, sum. repeat split; assumption.
  - intros (total & used & sum & Ht & Htpos & Hu & Hupos & Hle & Hent & Hs & Hsle & Hdate).
    rewrite Ht, Hu, Hs, Hdate.
    apply entryErrors_record_nil in Hent. rewrite Hent.
    assert (E1 : Num.le (Fin total) (Fin 0) || negb (Num.isFinite (Fin total)) = false).
    { apply NumFacts.positive_iff. exists total. split; [reflexivity | assumption]. }
    assert (E2 : Num.lt (Fin used) (Fin 0) || negb (Num.isFinite (Fin used)) = false).
    { apply NumFacts.nonNegative_iff. exists used. split; [reflexivity | assumption]. }
    assert (E3 : Num.gt (Fin used) (Fin total) = false).
    { apply NumFacts.gt_Fin_false. assumption. }
    assert (E4 : Num.gt (Fin sum) (Fin used) = false).
    { apply NumFacts.gt_Fin_false. assumption. }
    rewrite E1, E2, E3, E4. reflexivity.
Qed.

(** The validator on an encoded snapshot: it passes exactly when there
    is no critical error, and then returns the snapshot with the
    invalid file records dropped. *)
Lemma validated_accepts d :
  Validation.criticalErrors (Encode.storage d) = [] ->
  StorageStore.validated d =
  Normal (mk (totalStorage d) (usedStorage d) (filter Spec.validFile (files d))
             (storageByType d) (lastUpdated d)).
Proof.
  intros H. unfold StorageStore.validated, Validation.validateStorageData.
  change (Validation.notAnObject (Encode.storage d)) with false.
  cbv iota. rewrite H. cbn [List.length Nat.ltb Nat.leb].
  cbn [Validation.isValid Validation.data]. f_equal.
  destruct d as [t u l m lu]. unfold Encode.storage.
  cbn [Js.get Js.lookup String.eqb Ascii.eqb Bool.eqb Cast.asArray Cast.asNumber
       totalStorage usedStorage files storageByType lastUpdated].
  rewrite valid_files_of_encoded, asRecord_record, asDate_date. reflexivity.
Qed.

Lemma validated_rejects d :
  Validation.criticalErrors (Encode.storage d) <> [] ->
  StorageStore.validated d =
  Throw (Error (StorageStore.invalidMessage
                  (Validation.criticalErrors (Encode.storage d)))).
Proof.
  intros H. unfold StorageStore.validated, Validation.validateStorageData.
  change (Validation.notAnObject (Encode.storage d)) with false.
  cbv iota. destruct (Validation.criticalErrors (Encode.storage d)) as [ | e es].
  - contradiction.
  - reflexivity.
Qed.

End ValidationFacts.

(** * Facts about the storage store *)

Module StoreFacts.

Import StorageData.

Lemma validated_Normal d d' :
  StorageStore.validated d = Normal d' ->
  Validation.criticalErrors (Encode.storage d) = [] /\
  d' = mk (totalStorage d) (usedStorage d) (filter Spec.validFile (files d))
          (storageByType d) (lastUpdated d).
Proof.
  intros H. destruct (Validation.criticalErrors (Encode.storage d)) eqn:E.
  - split; [reflexivity | ].
    rewrite (ValidationFacts.validated_accepts d E) in H. congruence.
  - rewrite ValidationFacts.validated_rejects in H; [discriminate | ].
    rewrite E. discriminate.
Qed.


Lemma forallb_filter {A} (p : A -> bool) l : forallb p (filter p l) = true.
Proof.
  induction l as [ | x l IH]; [reflexivity | ].
  simpl. destruct (p x) eqn:E; [simpl; rewrite E | ]; exact IH.
Qed.

Lemma filter_all {A} (p : A -> bool) l : forallb p l = true -> filter p l = l.
Proof.
  induction l as [ | x l IH]; [reflexivity | ].
  simpl. intros H. apply andb_true_iff in H. destruct H as (Hx & Hl).
  rewrite Hx, (IH Hl). reflexivity.
Qed.

Lemma validated_accepted d d' :
  StorageStore.validated d = Normal d' -> Spec.accepted d'.
Proof.
  intros H. apply validated_Normal in H. destruct H as (E & ->). split.
  - rewrite <- E. apply ValidationFacts.criticalErrors_frame; reflexivity.
  - apply forallb_filter.
Qed.

Lemma accepted_invariants d : Spec.accepted d -> Spec.invariantsInDoubles d.
Proof.
  intros (E & _). apply ValidationFacts.criticalErrors_nil in E.
  destruct E as (total & used & sum & Ht & Htp & Hu & Hup & Hle & _ & Hs & Hsle & _).
  rewrite ValidationFacts.sumValues_addedUp in Hs.
  exists total, used, sum. repeat split; assumption.
Qed.

Lemma accepted_date_valid d :
  Spec.accepted d -> Num.isNaN (getTime (lastUpdated d)) = false.
Proof.
  intros (E & _). apply ValidationFacts.criticalErrors_nil in E.
  destruct E as (total & used & sum & H). apply H.
Qed.

(** A snapshot whose sum already fits is left alone by the correction. *)
Lemma clamp_fits d :
  Num.gt (StorageStore.sumValues (storageByType d)) (usedStorage d) = false ->
  StorageStore.clamp d = d.
Proof. intros H. unfold StorageStore.clamp. rewrite H. reflexivity. Qed.

Lemma accepted_fits d :
  Validation.criticalErrors (Encode.storage d) = [] ->
  Num.gt (StorageStore.sumValues (storageByType d)) (usedStorage d) = false.
Proof.
  intros E. apply ValidationFacts.criticalErrors_nil in E.
  destruct E as (total & used & sum & _ & _ & Hu & _ & _ & _ & Hs & Hsle & _).
  rewrite Hu, Hs. apply NumFacts.gt_Fin_false. exact Hsle.
Qed.

(** Changing the file records and stamping the time keeps the critical
    checks passed. *)
Lemma accepted_withFiles d l now :
  Validation.criticalErrors (Encode.storage d) = [] ->
  Validation.criticalErrors
    (Encode.storage (StorageStore.withFiles l (Date_now now) d)) = [].
Proof.
  intros E. rewrite <- E. apply ValidationFacts.criticalErrors_frame; try reflexivity.
  symmetry. apply (accepted_date_valid (mk (totalStorage d) (usedStorage d) []
                                           (storageByType d) (lastUpdated d))).
  split; [ | reflexivity].
  rewrite <- E. apply ValidationFacts.criticalErrors_frame; reflexivity.
Qed.

Lemma sound_set d w : Spec.accepted d -> Spec.sound w -> Spec.sound (Writable.set d w).
Proof.
  intros Hd (_ & Hh). split; [exact Hd | ].
  simpl. apply Forall_app. split; [exact Hh | constructor; [exact Hd | constructor]].
Qed.

Lemma sound_customSet data w :
  Spec.sound w -> Spec.sound (snd (StorageStore.customSet data w)).
Proof.
  intros Hw. unfold StorageStore.customSet.
  destruct (StorageStore.validated (StorageStore.clamp data)) eqn:E; simpl.
  - apply sound_set; [ | exact Hw]. apply (validated_accepted _ _ E).
  - exact Hw.
Qed.

Lemma sound_customUpdate updater w :
  Spec.sound w -> Spec.sound (snd (StorageStore.customUpdate updater w)).
Proof.
  intros Hw. unfold StorageStore.customUpdate, Writable.update.
  destruct (StorageStore.validated
              (StorageStore.clamp (updater (Writable.current w)))) eqn:E; simpl.
  - apply sound_set; [ | exact Hw]. apply (validated_accepted _ _ E).
  - exact Hw.
Qed.

Lemma accepted_initial loaded now :
  Spec.accepted
    (StorageStore.withLastUpdated (Date_now now) (StorageStore.initialStorageData loaded)).
Proof. split; reflexivity. Qed.

Lemma sound_initial loaded : Spec.sound (StorageStore.storageStore loaded).
Proof.
  split.
  - apply (accepted_initial loaded loaded).
  - constructor; [apply (accepted_initial loaded loaded) | constructor].
Qed.

Lemma sound_call loaded op now w :
  Spec.sound w -> Spec.sound (snd (StorageStore.call loaded op now w)).
Proof.
  intros Hw.
  destruct op; cbn [StorageStore.call snd];
    unfold StorageStore.updateUsedStorage, StorageStore.updateTotalStorage,
      StorageStore.updateFiles, StorageStore.addFile, StorageStore.removeFile,
      StorageStore.updateStorageByType.
  1: exact (sound_customSet _ w Hw).
  1-7: exact (sound_customUpdate _ w Hw).
  - (* updateTimestamp *)
    apply sound_set; [ | exact Hw]. destruct Hw as ((E & Hf) & _). split.
    + rewrite <- E. apply ValidationFacts.criticalErrors_frame; try reflexivity.
      symmetry. apply accepted_date_valid. split; assumption.
    + exact Hf.
  - (* reset *)
    apply sound_set; [ | exact Hw]. apply accepted_initial.
Qed.

Lemma sound_run loaded calls w :
  Spec.sound w -> Spec.sound (StorageStore.run loaded calls w).
Proof.
  revert w. induction calls as [ | c calls IH]; intros w Hw; [exact Hw | ].
  simpl. apply IH. apply sound_call. exact Hw.
Qed.

Lemma sound_reachable loaded calls :
  Spec.sound (StorageStore.run loaded calls (StorageStore.storageStore loaded)).
Proof. apply sound_run, sound_initial. Qed.

End StoreFacts.


(** * Facts about the proportional correction *)

Module ScalingFacts.

Import StorageData.

(** Sums of values each of which is finite and not negative, or
    positive infinity. *)
Definition summand (v : number) : Prop := v = PInf \/ Spec.nonNegative v.

Lemma addedUp_PInf l : Forall summand l -> Spec.addedUp PInf l = PInf.
Proof.
  induction 1 as [ | v l [-> | (q & -> & _)] _ IH]; [reflexivity | exact IH | exact IH].
Qed.

(** Such a sum is finite only when every value is. *)
Lemma addedUp_finite l :
  Forall summand l ->
  forall a s, 0 <= a -> Spec.addedUp (Fin a) l = Fin s -> Forall Spec.nonNegative l.
Proof.
  induction 1 as [ | v l Hv Hl IH]; intros a s Ha Hs; [constructor | ].
  cbn [Spec.addedUp] in Hs. destruct Hv as [-> | (q & -> & Hq)].
  - cbn [Num.add] in Hs. rewrite (addedUp_PInf l Hl) in Hs. discriminate Hs.
  - constructor; [exists q; split; [reflexivity | exact Hq] | ].
    cbn [Num.add] in Hs.
    destruct (RoundFacts.sum_nonneg (a + q)) as [E | (r & E & Hr)]; [lra | | ];
      rewrite E in Hs.
    + rewrite (addedUp_PInf l Hl) in Hs. discriminate Hs.
    + apply (IH r s Hr Hs).
Qed.

Section Scaling.

Variables used sum : Q.
Hypothesis used_nonneg : 0 <= used.
Hypothesis sum_exceeds : used < sum.

Lemma sum_pos : 0 < sum.
Proof. lra. Qed.

(** The rounded quotient lies between 0 and 1. *)
Lemma div_used_sum :
  exists scale, Num.div (Fin used) (Fin sum) = Fin scale /\ 0 <= scale /\ scale <= 1.
Proof.
  pose proof sum_pos as Hs. unfold Num.div.
  destruct (sum ?= 0) eqn:E.
  - apply (proj2 (Qeq_alt sum 0)) in E. lra.
  - apply (proj2 (Qlt_alt sum 0)) in E. lra.
  - assert (H0 : 0 <= used / sum).
    { apply Qle_shift_div_l; [exact Hs | ]. lra. }
    assert (H1 : used / sum <= inject_Z 1).
    { apply Qle_shift_div_r; [exact Hs | ]. change (inject_Z 1) with 1. lra. }
    assert (H2 : used / sum < 2 ^ 53).
    { apply Qle_lt_trans with (inject_Z 1); [exact H1 | reflexivity]. }
    exact (RoundFacts.round_le_integer 1 (used / sum) H0 H2 H1).
Qed.

(** A scaled value is a non-negative finite number, or positive
    infinity when the product overflows. *)
Lemma scaledInDoubles_summand v :
  Spec.nonNegative v -> summand (Spec.scaledInDoubles used sum v).
Proof.
  intros (q & -> & Hq). unfold Spec.scaledInDoubles.
  destruct div_used_sum as (scale & -> & H0 & _). cbn [Num.mul].
  destruct (RoundFacts.round_nonneg (q * scale)) as [-> | (r & -> & Hr)].
  - apply Qmult_le_0_compat; assumption.
  - left. reflexivity.
  - right. exists (inject_Z (Qfloor r)). split; [reflexivity | ].
    change 0 with (inject_Z 0). rewrite <- Zle_Qle.
    change 0%Z with (Qfloor 0). apply Qfloor_resp_le, Hr.
Qed.

(** The correction of a candidate that fails the sum check only. *)
Lemma clamp_exceeding d :
  Spec.exceedsOnlyInSum d used sum ->
  StorageStore.clamp d =
  mk (totalStorage d) (usedStorage d) (files d)
     (map (fun kv => (fst kv, Spec.scaledInDoubles used sum (snd kv))) (storageByType d))
     (lastUpdated d).
Proof.
  intros (_ & Hu & _ & Hm & Hs & _ & _). unfold StorageStore.clamp.
  rewrite ValidationFacts.sumValues_addedUp, Hs, Hu.
  assert (G1 : Num.gt (Fin sum) (Fin used) = true) by (apply NumFacts.gt_Fin; lra).
  assert (G2 : Num.gt (Fin sum) (Fin 0) = true) by (apply NumFacts.gt_Fin; lra).
  rewrite G1, G2. reflexivity.
Qed.

(** The corrected candidate passes the checks exactly when its values
    add up, in double arithmetic, to at most [used]. *)
Lemma clamp_exceeding_passes d :
  Spec.exceedsOnlyInSum d used sum ->
  Validation.criticalErrors (Encode.storage (StorageStore.clamp d)) = []
  <-> Spec.withinUsed used (storageByType (Spec.correctedInDoubles used sum d)).
Proof.
  intros H. rewrite (clamp_exceeding d H).
  destruct H as ((total & Ht & Htp & Hle) & Hu & _ & Hm & Hs & _ & Hdate).
  cbn [Spec.correctedInDoubles storageByType].
  set (scaled := map (fun kv => (fst kv, Spec.scaledInDoubles used sum (snd kv)))
                     (storageByType d)).
  rewrite ValidationFacts.criticalErrors_nil.
  cbn [totalStorage usedStorage storageByType lastUpdated]. split.
  - intros (total' & used' & s & _ & _ & Hu' & _ & _ & _ & Hs' & Hfit & _).
    rewrite Hu in Hu'. apply RoundFacts.Fin_inj in Hu'. subst used'.
    rewrite ValidationFacts.sumValues_addedUp in Hs'. exists s. split; assumption.
  - intros (s & Hs' & Hfit). exists total, used, s.
    rewrite ValidationFacts.sumValues_addedUp.
    repeat split; try assumption.
    assert (Hsummands : Forall summand (map snd scaled)).
    { unfold scaled. rewrite map_map. cbn [snd]. apply Forall_map.
      eapply Forall_impl; [ | exact Hm]. intros kv. apply scaledInDoubles_summand. }
    apply (proj1 (Forall_map snd Spec.nonNegative scaled)).
    exact (addedUp_finite _ Hsummands 0 s (Qle_refl 0) Hs').
Qed.

End Scaling.

End ScalingFacts.


(** * The storage store: properties of the specification *)

(** C1, as amended.  Whatever operations are applied to the store,
    starting from its initial snapshot, every snapshot the store holds
    or has held, which is every snapshot a subscriber is shown,
    satisfies the aggregate invariants: [totalStorage] is positive and
    finite, [usedStorage] is finite, non-negative and at most
    [totalStorage], and the values of [storageByType], added up in
    double arithmetic in the order of the mapping, come to at most
    [usedStorage]. *)
Theorem observable_snapshots_satisfy_invariants :
  forall (loaded : Z) (calls : list (StorageStore.operation * Z)),
    let w := StorageStore.run loaded calls (StorageStore.storageStore loaded) in
    Forall Spec.invariantsInDoubles (Writable.history w) /\
    Spec.invariantsInDoubles (Writable.current w).
Proof.
  intros loaded calls w.
  destruct (StoreFacts.sound_reachable loaded calls) as (Hc & Hh).
  split.
  - eapply Forall_impl; [ | exact Hh]. exact StoreFacts.accepted_invariants.
  - apply StoreFacts.accepted_invariants. exact Hc.
Qed.

(** C1 as it is stated, with the sum of the values being their sum,
    fails: [set] accepts a breakdown of [2 ^ 53] and [1] against
    [2 ^ 53] used, because the two add up to [2 ^ 53] in double
    arithmetic; the snapshot is stored as it is and shown to the
    subscribers, and its values add up to more than [usedStorage]. *)
Lemma rounded_sum_hides_an_excess :
  let w := StorageStore.run 0 [(StorageStore.Set_ Examples.roundedAway, 1%Z)]
                            (StorageStore.storageStore 0) in
  Writable.current w = Examples.roundedAway /\
  In Examples.roundedAway (Writable.history w) /\
  ~ Spec.aggregateInvariants Examples.roundedAway.
Proof.
  assert (E : Writable.current
                (StorageStore.run 0 [(StorageStore.Set_ Examples.roundedAway, 1%Z)]
                                  (StorageStore.storageStore 0))
              = Examples.roundedAway) by (vm_compute; reflexivity).
  assert (H : Writable.history
                (StorageStore.run 0 [(StorageStore.Set_ Examples.roundedAway, 1%Z)]
                                  (StorageStore.storageStore 0))
              = [StorageStore.initialStorageData 0; Examples.roundedAway])
    by (vm_compute; reflexivity).
  split; [exact E | split].
  - rewrite H. right. left. reflexivity.
  - intros (total & used & sum & _ & _ & Hu & _ & _ & Hs & Hle).
    apply RoundFacts.Fin_inj in Hu. subst used.
    vm_compute in Hs. injection Hs as <-.
    revert Hle. vm_compute. intros Hle. apply Hle. reflexivity.
Qed.

(** The validation of the corrected candidate, for a candidate that
    fails the sum check only. *)
Lemma validated_exceeding d used sum :
  Spec.exceedsOnlyInSum d used sum ->
  (Spec.withinUsed used (StorageData.storageByType (Spec.correctedInDoubles used sum d)) ->
   StorageStore.validated (StorageStore.clamp d)
   = Normal (Spec.correctedInDoubles used sum d)) /\
  (~ Spec.withinUsed used (StorageData.storageByType (Spec.correctedInDoubles used sum d)) ->
   exists e, StorageStore.validated (StorageStore.clamp d) = Throw e).
Proof.
  intros H.
  assert (Hu : 0 <= used) by apply H.
  assert (Hs : used < sum) by apply H.
  pose proof (ScalingFacts.clamp_exceeding used sum Hu Hs d H) as Hclamp.
  pose proof (ScalingFacts.clamp_exceeding_passes used sum Hu Hs d H) as Hpass.
  split; intros Hfit.
  - rewrite (ValidationFacts.validated_accepts _ (proj2 Hpass Hfit)), Hclamp. reflexivity.
  - rewrite ValidationFacts.validated_rejects; [eexists; reflexivity | ].
    intros E. apply Hfit, Hpass, E.
Qed.














Lemma forallb_of_filter {A} (p q : A -> bool) l :
  forallb p l = true -> forallb p (filter q l) = true.
Proof.
  induction l as [ | x l IH]; [reflexivity | ].
  cbn [forallb filter]. intros H. apply andb_true_iff in H. destruct H as (Hx & Hl).
  destruct (q x); [cbn [forallb]; rewrite Hx | ]; apply IH, Hl.
Qed.

(** An update of the file records by valid records, on a sound store. *)
Lemma customUpdate_files (g : list FileItem.t -> list FileItem.t) now w :
  Spec.sound w ->
  forallb Spec.validFile (g (StorageData.files (Writable.current w))) = true ->
  StorageStore.customUpdate
    (fun data => StorageStore.withFiles (g (StorageData.files data)) (Date_now now) data) w
  = (Normal tt,
     Writable.set (StorageStore.withFiles (g (StorageData.files (Writable.current w)))
                                          (Date_now now) (Writable.current w)) w).
Proof.
  intros ((E & _) & _) Hg. unfold StorageStore.customUpdate, Writable.update.
  set (c := StorageStore.withFiles _ _ _).
  assert (Ec : Validation.criticalErrors (Encode.storage c) = [])
    by (apply StoreFacts.accepted_withFiles; exact E).
  rewrite (StoreFacts.clamp_fits c (StoreFacts.accepted_fits c Ec)).
  rewrite (ValidationFacts.validated_accepts c Ec).
  subst c. cbn [StorageStore.withFiles StorageData.files StorageData.totalStorage
                StorageData.usedStorage StorageData.storageByType StorageData.lastUpdated].
  unfold StorageStore.withFiles.
  cbn [StorageData.files StorageData.totalStorage
       StorageData.usedStorage StorageData.storageByType StorageData.lastUpdated].
  rewrite (StoreFacts.filter_all _ _ Hg). reflexivity.
Qed.

(** [removeFile] on a store reached from the initial one. *)
Lemma removeFile_reachable loaded calls fileId now :
  let w := StorageStore.run loaded calls (StorageStore.storageStore loaded) in
  StorageStore.removeFile fileId now w
  = (Normal tt,
     Writable.set
       (StorageStore.withFiles
          (filter (fun f => negb (Spec.hasId fileId f))
                  (StorageData.files (Writable.current w)))
          (Date_now now) (Writable.current w)) w).
Proof.
  intros w.
  pose proof (StoreFacts.sound_reachable loaded calls) as Hw. fold w in Hw.
  apply (customUpdate_files
           (fun l => filter (fun f => negb (Spec.hasId fileId f)) l) now w Hw).
  apply forallb_of_filter. apply Hw.
Qed.

(** C5, as the code has it.  On a store reached from the initial one by
    any operations, [removeFile(id)] succeeds and removes every record
    whose id is the given one; the other records stay, in their
    original order. *)
Theorem removeFile_removes_every_match :
  forall (loaded : Z) (calls : list (StorageStore.operation * Z)) (fileId : string) (now : Z),
    let w := StorageStore.run loaded calls (StorageStore.storageStore loaded) in
    let kept := filter (fun f => negb (Spec.hasId fileId f))
                       (StorageData.files (Writable.current w)) in
    StorageStore.removeFile fileId now w
    = (Normal tt,
       Writable.set (StorageStore.withFiles kept (Date_now now) (Writable.current w)) w)
    /\ (forall f, In f kept <->
                  In f (StorageData.files (Writable.current w))
                  /\ FileItem.id f <> fileId).
Proof.
  intros loaded calls fileId now w kept.
  split.
  - apply removeFile_reachable.
  - intros f. unfold kept. rewrite filter_In. unfold Spec.hasId.
    rewrite negb_true_iff, String.eqb_neq. reflexivity.
Qed.

(** C5, as the specification words it, fails: after [set] has stored
    two valid records that share the id ["1"], [removeFile("1")] leaves
    no record, where the removal of the first match would leave the
    second. *)
Lemma removeFile_drops_later_duplicates :
  let w := snd (StorageStore.customSet Examples.twoWithSameId (StorageStore.storageStore 0)) in
  StorageData.files (Writable.current w) = [Examples.fileA; Examples.fileB] /\
  StorageData.files (Writable.current (snd (StorageStore.removeFile "1" 2 w))) = [] /\
  Spec.removeFirst "1" (StorageData.files (Writable.current w)) = [Examples.fileB] /\
  StorageData.files (Writable.current (snd (StorageStore.removeFile "1" 2 w)))
  <> Spec.removeFirst "1" (StorageData.files (Writable.current w)).
Proof.
  cbv zeta. repeat split; try reflexivity.
  intros H. vm_compute in H. discriminate H.
Qed.

(** C6, as the code has it.  On a store reached from the initial one by
    any operations, [removeFile(id)] with an id that no record has raises
    no error and changes nothing but [lastUpdated], which becomes the
    instant of the call. *)
Theorem removeFile_absent_only_stamps :
  forall (loaded : Z) (calls : list (StorageStore.operation * Z)) (fileId : string) (now : Z),
    let w := StorageStore.run loaded calls (StorageStore.storageStore loaded) in
    (forall f, In f (StorageData.files (Writable.current w)) -> FileItem.id f <> fileId) ->
    StorageStore.removeFile fileId now w
    = (Normal tt,
       Writable.set (StorageStore.withLastUpdated (Date_now now) (Writable.current w)) w).
Proof.
  intros loaded calls fileId now w Habsent.
  pose proof (removeFile_reachable loaded calls fileId now) as H.
  fold w in H. rewrite H. do 2 f_equal.
  unfold StorageStore.withFiles, StorageStore.withLastUpdated. f_equal.
  apply StoreFacts.filter_all. apply forallb_forall. intros f Hf.
  unfold Spec.hasId. apply negb_true_iff, String.eqb_neq. apply Habsent, Hf.
Qed.

Lemma removeFile_absent_witness :
  StorageStore.removeFile "nonexistent" 2
    (StorageStore.run 0 [(StorageStore.Set_ Examples.oneFile, 1%Z)]
                      (StorageStore.storageStore 0))
  = (Normal tt,
     Writable.set
       (StorageStore.withLastUpdated
          (Date_now 2)
          (Writable.current
             (StorageStore.run 0 [(StorageStore.Set_ Examples.oneFile, 1%Z)]
                               (StorageStore.storageStore 0))))
       (StorageStore.run 0 [(StorageStore.Set_ Examples.oneFile, 1%Z)]
                         (StorageStore.storageStore 0))).
Proof.
  apply (removeFile_absent_only_stamps
           0 [(StorageStore.Set_ Examples.oneFile, 1%Z)] "nonexistent" 2).
  intros f [<- | []]. discriminate.
Defined.

(** C6, as the specification words it, fails: [removeFile] with an id
    that no record has succeeds, but the snapshot is not what it was,
    since [lastUpdated] has moved from the instant 1 to the instant 2 of
    the call. *)
Lemma removeFile_absent_moves_lastUpdated :
  let w := snd (StorageStore.customSet Examples.oneFile (StorageStore.storageStore 0)) in
  let w' := snd (StorageStore.removeFile "nonexistent" 2 w) in
  (forall f, In f (StorageData.files (Writable.current w)) ->
             FileItem.id f <> "nonexistent") /\
  fst (StorageStore.removeFile "nonexistent" 2 w) = Normal tt /\
  StorageData.lastUpdated (Writable.current w) = Date_now 1 /\
  StorageData.lastUpdated (Writable.current w') = Date_now 2 /\
  Writable.current w' <> Writable.current w.
Proof.
  cbv zeta. repeat split; try reflexivity.
  - intros f [<- | []]. discriminate.
  - intros H. vm_compute in H. discriminate H.
Qed.


(** * Facts about sorting and the tab registry *)

Module SortFacts.

Section Generic.

Context {A : Type}.
Variable comparefn : A -> A -> number.

Lemma insert_In x l z :
  In z (ArraySort.insert comparefn x l) <-> z = x \/ In z l.
Proof.
  induction l as [ | y l IH]; cbn [ArraySort.insert].
  - simpl. intuition.
  - destruct (ArraySort.after comparefn x y); simpl; [rewrite IH | ]; intuition.
Qed.

Lemma sort_In l z : In z (ArraySort.sort comparefn l) <-> In z l.
Proof.
  induction l as [ | x l IH]; cbn [ArraySort.sort]; [reflexivity | ].
  rewrite insert_In, IH. simpl. intuition.
Qed.

Lemma insert_existsb p x l :
  existsb p (ArraySort.insert comparefn x l) = p x || existsb p l.
Proof.
  induction l as [ | y l IH]; cbn [ArraySort.insert]; [reflexivity | ].
  destruct (ArraySort.after comparefn x y); cbn [existsb]; [rewrite IH | reflexivity].
  destruct (p x), (p y); reflexivity.
Qed.

Lemma sort_existsb p l :
  existsb p (ArraySort.sort comparefn l) = existsb p l.
Proof.
  induction l as [ | x l IH]; cbn [ArraySort.sort existsb]; [reflexivity | ].
  rewrite insert_existsb, IH. reflexivity.
Qed.

Lemma insert_Forall (P : A -> Prop) x l :
  P x -> Forall P l -> Forall P (ArraySort.insert comparefn x l).
Proof.
  intros Hx Hl. apply Forall_forall. intros z Hz. apply (proj1 (insert_In x l z)) in Hz.
  destruct Hz as [-> | Hz]; [exact Hx | ].
  rewrite Forall_forall in Hl. apply Hl, Hz.
Qed.

Lemma sort_Forall (P : A -> Prop) l :
  Forall P l -> Forall P (ArraySort.sort comparefn l).
Proof.
  intros Hl. apply Forall_forall. intros z Hz. apply (proj1 (sort_In l z)) in Hz.
  rewrite Forall_forall in Hl. apply Hl, Hz.
Qed.

Lemma insert_filter_out (p : A -> bool) x l :
  p x = false ->
  filter p (ArraySort.insert comparefn x l) = filter p l.
Proof.
  intros Hx. induction l as [ | y l IH]; cbn [ArraySort.insert filter].
  - rewrite Hx. reflexivity.
  - destruct (ArraySort.after comparefn x y); cbn [filter].
    + rewrite IH. reflexivity.
    + rewrite Hx. reflexivity.
Qed.

Lemma insert_filter_only (p : A -> bool) x l :
  p x = true -> filter p l = [] ->
  filter p (ArraySort.insert comparefn x l) = [x].
Proof.
  intros Hx. induction l as [ | y l IH]; cbn [ArraySort.insert filter]; intros Hl.
  - rewrite Hx. reflexivity.
  - destruct (p y) eqn:Ey; [discriminate | ].
    destruct (ArraySort.after comparefn x y); cbn [filter].
    + rewrite Ey. apply IH, Hl.
    + rewrite Hx, Ey, Hl. reflexivity.
Qed.

Lemma sort_filter_none (p : A -> bool) l :
  filter p l = [] -> filter p (ArraySort.sort comparefn l) = [].
Proof.
  induction l as [ | y l IH]; cbn [ArraySort.sort filter]; [reflexivity | ].
  destruct (p y) eqn:Ey; [discriminate | ].
  intros Hl. rewrite (insert_filter_out p y _ Ey). apply IH, Hl.
Qed.

(** The only element that a filter keeps is still the only one after
    sorting. *)
Lemma sort_filter_only (p : A -> bool) l x :
  filter p l = [x] -> filter p (ArraySort.sort comparefn l) = [x].
Proof.
  induction l as [ | y l IH]; cbn [ArraySort.sort filter]; [discriminate | ].
  destruct (p y) eqn:Ey.
  - intros [= -> Hl]. apply insert_filter_only; [exact Ey | ].
    apply sort_filter_none, Hl.
  - intros Hl. rewrite (insert_filter_out p y _ Ey). apply IH, Hl.
Qed.

End Generic.

End SortFacts.

Module TabFacts.

Import TabDefinition.

Lemma sortTabs_eq tabs : TabRegistry.sortTabs tabs = ArraySort.sort TabSpec.comparefn tabs.
Proof. reflexivity. Qed.

Lemma after_iff x y :
  TabSpec.comparable x -> TabSpec.comparable y ->
  ArraySort.after TabSpec.comparefn x y = true <->
  Num.compare (TabRegistry.orderOrDefault x) (TabRegistry.orderOrDefault y) = Some Gt.
Proof. intros Hx Hy. apply NumFacts.sub_positive; assumption. Qed.

(** Stability: sorting does not change the relative order of the
    entries that share a sort key. *)
Lemma insert_stable key x l :
  TabSpec.comparable x -> Forall TabSpec.comparable l ->
  filter (TabSpec.hasOrder key) (ArraySort.insert TabSpec.comparefn x l)
  = filter (TabSpec.hasOrder key) (x :: l).
Proof.
  intros Hx Hl. induction Hl as [ | y l Hy _ IH];
    cbn [ArraySort.insert]; [reflexivity | ].
  destruct (ArraySort.after TabSpec.comparefn x y) eqn:E; [ | reflexivity].
  apply (after_iff x y Hx Hy) in E.
  cbn [filter] in *. rewrite IH.
  destruct (TabSpec.hasOrder key x) eqn:Ex; [ | reflexivity].
  destruct (TabSpec.hasOrder key y) eqn:Ey; [ | reflexivity].
  exfalso. unfold TabSpec.hasOrder in Ex, Ey.
  apply (NumFacts.equal_not_gt (TabRegistry.orderOrDefault x)
                               (TabRegistry.orderOrDefault y) key); [ | | exact E].
  - destruct (Num.compare (TabRegistry.orderOrDefault x) key) as [[ | | ] | ];
      try discriminate. reflexivity.
  - destruct (Num.compare (TabRegistry.orderOrDefault y) key) as [[ | | ] | ];
      try discriminate. reflexivity.
Qed.

Lemma sortTabs_stable key tabs :
  Forall TabSpec.comparable tabs ->
  filter (TabSpec.hasOrder key) (TabRegistry.sortTabs tabs)
  = filter (TabSpec.hasOrder key) tabs.
Proof.
  rewrite sortTabs_eq. induction 1 as [ | x l Hx Hl IH]; [reflexivity | ].
  cbn [ArraySort.sort]. rewrite insert_stable.
  - cbn [filter]. rewrite IH. reflexivity.
  - exact Hx.
  - apply SortFacts.sort_Forall. exact Hl.
Qed.

Lemma insert_sorted x l :
  TabSpec.comparable x -> Forall TabSpec.comparable l ->
  StronglySorted TabSpec.orderLe l ->
  StronglySorted TabSpec.orderLe (ArraySort.insert TabSpec.comparefn x l).
Proof.
  intros Hx Hcmp Hs. induction Hs as [ | y l Hs IH Hy]; cbn [ArraySort.insert].
  - constructor; constructor.
  - inversion Hcmp as [ | ? ? Hcy Hcmp' ]; subst.
    destruct (ArraySort.after TabSpec.comparefn x y) eqn:E.
    + apply (after_iff x y Hx Hcy) in E. constructor.
      * apply IH. exact Hcmp'.
      * apply SortFacts.insert_Forall; [ | exact Hy].
        apply NumFacts.le_of_gt. exact E.
    + assert (Hxy : TabSpec.orderLe x y).
      { apply NumFacts.le_of_not_gt; [exact Hx | exact Hcy | ].
        intros H. apply (after_iff x y Hx Hcy) in H. congruence. }
      constructor.
      * constructor; assumption.
      * constructor; [exact Hxy | ].
        eapply Forall_impl; [ | exact Hy]. intros z Hz.
        apply (NumFacts.le_trans _ _ _ Hxy Hz).
Qed.

Lemma sortTabs_sorted tabs :
  Forall TabSpec.comparable tabs ->
  StronglySorted TabSpec.orderLe (TabRegistry.sortTabs tabs).
Proof.
  rewrite sortTabs_eq. induction 1 as [ | x l Hx Hl IH]; cbn [ArraySort.sort].
  - constructor.
  - apply insert_sorted; [exact Hx | | exact IH].
    apply SortFacts.sort_Forall. exact Hl.
Qed.

Lemma comparable_withDefaultOrder tabDef :
  TabSpec.comparable tabDef -> TabSpec.comparable (TabSpec.withDefaultOrder tabDef).
Proof. intros H. exact H. Qed.

Lemma someWithId_sortTabs tabId tabs :
  TabRegistry.someWithId tabId (TabRegistry.sortTabs tabs)
  = TabRegistry.someWithId tabId tabs.
Proof. apply SortFacts.sort_existsb. Qed.

End TabFacts.


(** * The tab registry: properties of the specification *)

Lemma registerTab_duplicate (tabDef : TabDefinition.t) (w : TabRegistry.registry) :
  TabRegistry.hasTab (TabDefinition.id tabDef) w = true ->
  TabRegistry.registerTab tabDef w = (false, Writable.set (Writable.current w) w).
Proof.
  unfold TabRegistry.hasTab, TabRegistry.registerTab, TabRegistry.registering.
  intros ->. reflexivity.
Qed.

Lemma registerTab_fresh (tabDef : TabDefinition.t) (w : TabRegistry.registry) :
  TabRegistry.hasTab (TabDefinition.id tabDef) w = false ->
  TabRegistry.registerTab tabDef w
  = (true,
     Writable.set
       (TabRegistry.sortTabs (Writable.current w ++ [TabSpec.withDefaultOrder tabDef])) w).
Proof.
  unfold TabRegistry.hasTab, TabRegistry.registerTab, TabRegistry.registering.
  intros ->. reflexivity.
Qed.

Lemma existsb_false_filter {A} (p : A -> bool) l :
  existsb p l = false -> filter p l = [].
Proof.
  induction l as [ | x l IH]; [reflexivity | ].
  cbn [existsb filter]. intros H. apply orb_false_iff in H. destruct H as (-> & Hl).
  apply IH, Hl.
Qed.

(** C7.  [registerTab] with an id that is already registered returns
    [false] and leaves the collection as it is; with an id that is not
    registered it returns [true] and inserts the entry; and of two
    successive calls with one id the second is refused, so that the
    registry holds exactly one entry of that id, the first. *)
Theorem registerTab_rejects_duplicate_id :
  forall (w : TabRegistry.registry) (tabDef : TabDefinition.t),
    (TabRegistry.hasTab (TabDefinition.id tabDef) w = true ->
     fst (TabRegistry.registerTab tabDef w) = false /\
     Writable.current (snd (TabRegistry.registerTab tabDef w)) = Writable.current w) /\
    (TabRegistry.hasTab (TabDefinition.id tabDef) w = false ->
     fst (TabRegistry.registerTab tabDef w) = true /\
     (forall tab,
         In tab (Writable.current (snd (TabRegistry.registerTab tabDef w))) <->
         In tab (Writable.current w) \/ tab = TabSpec.withDefaultOrder tabDef) /\
     forall second,
       TabDefinition.id second = TabDefinition.id tabDef ->
       let w1 := snd (TabRegistry.registerTab tabDef w) in
       fst (TabRegistry.registerTab second w1) = false /\
       Writable.current (snd (TabRegistry.registerTab second w1)) = Writable.current w1 /\
       filter (TabSpec.hasId (TabDefinition.id tabDef))
              (Writable.current (snd (TabRegistry.registerTab second w1)))
       = [TabSpec.withDefaultOrder tabDef]).
Proof.
  intros w tabDef. split.
  - intros H. rewrite (registerTab_duplicate tabDef w H). split; reflexivity.
  - intros H. rewrite (registerTab_fresh tabDef w H). cbn [fst snd].
    split; [reflexivity | split].
    + intros tab. cbn [Writable.set Writable.current].
      rewrite TabFacts.sortTabs_eq, SortFacts.sort_In, in_app_iff. simpl. intuition.
    + intros second Hid.
      set (w1 := Writable.set
                   (TabRegistry.sortTabs
                      (Writable.current w ++ [TabSpec.withDefaultOrder tabDef])) w).
      assert (Hone : filter (TabSpec.hasId (TabDefinition.id tabDef)) (Writable.current w1)
                     = [TabSpec.withDefaultOrder tabDef]).
      { subst w1. cbn [Writable.set Writable.current].
        rewrite TabFacts.sortTabs_eq. apply SortFacts.sort_filter_only.
        rewrite filter_app. unfold TabRegistry.hasTab, TabRegistry.someWithId in H.
        change (fun tab => String.eqb (TabDefinition.id tab) (TabDefinition.id tabDef))
          with (TabSpec.hasId (TabDefinition.id tabDef)) in H.
        rewrite (existsb_false_filter _ _ H). cbn [filter app].
        unfold TabSpec.hasId at 1. cbn [TabSpec.withDefaultOrder TabDefinition.id].
        rewrite String.eqb_refl. reflexivity. }
      assert (Hdup : TabRegistry.hasTab (TabDefinition.id second) w1 = true).
      { rewrite Hid. unfold TabRegistry.hasTab, TabRegistry.someWithId.
        change (fun tab => String.eqb (TabDefinition.id tab) (TabDefinition.id tabDef))
          with (TabSpec.hasId (TabDefinition.id tabDef)).
        destruct (existsb (TabSpec.hasId (TabDefinition.id tabDef)) (Writable.current w1))
          eqn:E; [reflexivity | ].
        rewrite (existsb_false_filter _ _ E) in Hone. discriminate. }
      rewrite (registerTab_duplicate second w1 Hdup). cbn [fst snd].
      split; [reflexivity | split; [reflexivity | exact Hone]].
Qed.

Lemma registerTab_duplicate_witness :
  fst (TabRegistry.registerTab Examples.secondTab
         (snd (TabRegistry.registerTab Examples.firstTab TabRegistry.tabRegistry)))
  = false /\
  filter (TabSpec.hasId "duplicate-tab")
         (Writable.current
            (snd (TabRegistry.registerTab Examples.secondTab
                    (snd (TabRegistry.registerTab Examples.firstTab
                                                  TabRegistry.tabRegistry)))))
  = [TabSpec.withDefaultOrder Examples.firstTab].
Proof.
  destruct (proj2 (proj2 (proj2 (registerTab_rejects_duplicate_id
                                   TabRegistry.tabRegistry Examples.firstTab)
                                eq_refl))
                  Examples.secondTab eq_refl) as (H1 & _ & H3).
  split; [exact H1 | exact H3].
Defined.

Lemma ordered_sortTabs tabs :
  Forall TabSpec.comparable tabs -> TabSpec.ordered (TabRegistry.sortTabs tabs) tabs.
Proof.
  intros H. repeat split.
  - rewrite TabFacts.sortTabs_eq. apply SortFacts.sort_Forall, H.
  - apply TabFacts.sortTabs_sorted, H.
  - intros key. apply TabFacts.sortTabs_stable, H.
  - intros tabId. apply TabFacts.someWithId_sortTabs.
Qed.

Lemma ordered_call op w arrived :
  TabSpec.comparableEntries op ->
  TabSpec.ordered (Writable.current w) arrived ->
  TabSpec.ordered (Writable.current (TabRegistry.call op w)) (TabSpec.arrive arrived op).
Proof.
  intros Hop Hw. destruct op as [tabDef | tabs]; cbn [TabRegistry.call TabSpec.arrive].
  - destruct Hw as (Hfin & Hsorted & Hstable & Hids).
    unfold TabRegistry.registerTab, TabRegistry.registering. rewrite <- Hids.
    destruct (TabRegistry.someWithId (TabDefinition.id tabDef) (Writable.current w));
      cbn [fst snd Writable.set Writable.current].
    + repeat split; assumption.
    + fold (TabSpec.withDefaultOrder tabDef).
      assert (Hall : Forall TabSpec.comparable
                            (Writable.current w ++ [TabSpec.withDefaultOrder tabDef])).
      { apply Forall_app. split; [exact Hfin | ].
        constructor; [ | constructor].
        apply TabFacts.comparable_withDefaultOrder, Hop. }
      destruct (ordered_sortTabs _ Hall) as (G1 & G2 & G3 & G4).
      repeat split; try assumption.
      * intros key. rewrite G3, !filter_app, Hstable. reflexivity.
      * intros tabId. rewrite G4. unfold TabRegistry.someWithId.
        rewrite !existsb_app. f_equal. apply Hids.
  - apply ordered_sortTabs. exact Hop.
Qed.

Lemma ordered_run ops :
  Forall TabSpec.comparableEntries ops ->
  forall w arrived,
    TabSpec.ordered (Writable.current w) arrived ->
    TabSpec.ordered (Writable.current (TabRegistry.run ops w))
                    (fold_left TabSpec.arrive ops arrived).
Proof.
  induction 1 as [ | op ops Hop _ IH]; intros w arrived Hw; [exact Hw | ].
  cbn [TabRegistry.run fold_left]. apply IH. apply ordered_call; assumption.
Qed.







(** * The fetch collaborator: properties of the specification *)

Lemma received_ok status body :
  Fetch.ok (Fetch.received status body) = true <-> (200 <= status <= 299)%nat.
Proof.
  cbn [Fetch.received Fetch.ok].
  rewrite andb_true_iff, !Nat.leb_le. reflexivity.
Qed.

(** C9.  When the response is not a success, [fetchStorageData] throws
    the error whose message is ["HTTP error! status: "] followed by the
    status code, the [error] field of the UI state holds that very
    string, [isLoading] is back to [false], and the storage store is
    what it was. *)
Theorem http_error_is_surfaced :
  forall (parseDate : value -> number) (nullReadMessage : string)
         (response : Fetch.Response) (now : Z) (s : Fetch.stores),
    Fetch.ok response = false ->
    let r := Fetch.fetchStorageData parseDate nullReadMessage (Normal response) now s in
    let message := "HTTP error! status: " ++ Str.of_nat (Fetch.status response) in
    fst r = Throw (Error message) /\
    UIState.error (Writable.current (Fetch.ui (snd r))) = Some message /\
    UIState.isLoading (Writable.current (Fetch.ui (snd r))) = false /\
    Fetch.storage (snd r) = Fetch.storage s.
Proof.
  intros parseDate nullReadMessage response now s Hok r message.
  subst r. unfold Fetch.fetchStorageData, Fetch.attempt. rewrite Hok.
  cbn [negb fst snd Fetch.ui Fetch.storage]. repeat split.
Qed.

Lemma http_error_witness :
  let r := Fetch.fetchStorageData
             (fun _ => NaN) "" (Normal (Fetch.received 404 (Normal VNull))) 5
             (Fetch.mkStores UIStore.uiStore (StorageStore.storageStore 0)) in
  fst r = Throw (Error "HTTP error! status: 404") /\
  UIState.error (Writable.current (Fetch.ui (snd r))) = Some "HTTP error! status: 404" /\
  UIState.isLoading (Writable.current (Fetch.ui (snd r))) = false /\
  Fetch.storage (snd r) = StorageStore.storageStore 0.
Proof.
  apply (http_error_is_surfaced
           (fun _ => NaN) "" (Fetch.received 404 (Normal VNull)) 5
           (Fetch.mkStores UIStore.uiStore (StorageStore.storageStore 0))).
  reflexivity.
Defined.


(** * Facts about the validator on arbitrary values *)

Module CheckFacts.

Import CheckSpec.

Lemma push_In errors cond message m :
  In m (Validation.push errors cond message) <->
  In m errors \/ (cond = true /\ m = message).
Proof.
  unfold Validation.push. destruct cond.
  - rewrite in_app_iff. simpl. intuition congruence.
  - intuition congruence.
Qed.

Lemma typeName_eqb_eq a b : Js.typeName_eqb a b = true <-> a = b.
Proof. destruct a, b; simpl; split; congruence. Qed.

Lemma notPositiveNumber_true v :
  Validation.notPositiveNumber v = true <-> ~ positiveNumber v.
Proof.
  unfold positiveNumber.
  destruct v as [ | | b | n | s | | tm | l | props]; cbn [Validation.notPositiveNumber];
    try (split; [intros _ (q & H & _); discriminate | reflexivity]).
  destruct (Num.le n (Fin 0) || negb (Num.isFinite n)) eqn:E.
  - split; [ | reflexivity]. intros _ (q & [= ->] & Hq).
    assert (F : Num.le (Fin q) (Fin 0) || negb (Num.isFinite (Fin q)) = false)
      by (apply NumFacts.positive_iff; exists q; split; [reflexivity | exact Hq]).
    congruence.
  - apply NumFacts.positive_iff in E. destruct E as (q & -> & Hq).
    split; [discriminate | ]. intros H. exfalso. apply H. exists q.
    split; [reflexivity | exact Hq].
Qed.

Lemma notNonNegativeNumber_true v :
  Validation.notNonNegativeNumber v = true <-> ~ nonNegativeNumber v.
Proof.
  unfold nonNegativeNumber.
  destruct v as [ | | b | n | s | | tm | l | props]; cbn [Validation.notNonNegativeNumber];
    try (split; [intros _ (q & H & _); discriminate | reflexivity]).
  destruct (Num.lt n (Fin 0) || negb (Num.isFinite n)) eqn:E.
  - split; [ | reflexivity]. intros _ (q & [= ->] & Hq).
    assert (F : Num.lt (Fin q) (Fin 0) || negb (Num.isFinite (Fin q)) = false)
      by (apply NumFacts.nonNegative_iff; exists q; split; [reflexivity | exact Hq]).
    congruence.
  - apply NumFacts.nonNegative_iff in E. destruct E as (q & -> & Hq).
    split; [discriminate | ]. intros H. exfalso. apply H. exists q.
    split; [reflexivity | exact Hq].
Qed.

Lemma notValidDate_true v :
  Validation.notValidDate v = true <-> ~ exists time, v = VDate time /\ time <> NaN.
Proof.
  destruct v as [ | | b | n | s | | tm | l | props]; cbn [Validation.notValidDate];
    try (split; [intros _ (q & H & _); discriminate | reflexivity]).
  destruct tm; cbn [Num.isNaN].
  - split; [ | reflexivity]. intros _ (q & [= <-] & Hq). apply Hq. reflexivity.
  - split; [discriminate | ]. intros H. exfalso. apply H. eexists. split; [reflexivity | discriminate].
  - split; [discriminate | ]. intros H. exfalso. apply H. eexists. split; [reflexivity | discriminate].
  - split; [discriminate | ]. intros H. exfalso. apply H. eexists. split; [reflexivity | discriminate].
Qed.

Lemma bothNumbers_true rel a b :
  Validation.bothNumbersAnd rel a b = true <->
  exists x y, a = VNumber x /\ b = VNumber y /\ rel x y = true.
Proof.
  split.
  - destruct a; try discriminate. destruct b; try discriminate.
    intros H. eexists. eexists. repeat split. exact H.
  - intros (x & y & -> & -> & H). exact H.
Qed.

Lemma notArray_true v :
  negb (Js.isArray v) = true <-> forall elems, v <> VArray elems.
Proof.
  destruct v; cbn [Js.isArray negb];
    try (split; [intros _ elems; discriminate | reflexivity]).
  split; [discriminate | ]. intros H. exfalso. apply (H elems). reflexivity.
Qed.

Lemma object_true v :
  Js.truthy v && Js.typeName_eqb (Js.typeof v) TObject = true <-> isObject v.
Proof. unfold isObject. rewrite andb_true_iff, typeName_eqb_eq. reflexivity. Qed.

Lemma shape_true v :
  negb (Js.truthy v) || negb (Js.typeName_eqb (Js.typeof v) TObject) || Js.isArray v = true
  <-> ~ isObject v \/ exists elems, v = VArray elems.
Proof.
  rewrite <- object_true.
  destruct (Js.truthy v && Js.typeName_eqb (Js.typeof v) TObject) eqn:E.
  - apply andb_true_iff in E. destruct E as (-> & ->). cbn [negb orb]. split.
    + destruct v; try discriminate. intros _. right. eexists. reflexivity.
    + intros [H | (elems & ->)]; [exfalso; apply H; reflexivity | reflexivity].
  - split; [intros _; left; discriminate | intros _].
    apply andb_false_iff in E. destruct E as [-> | ->]; [reflexivity | ].
    cbn [negb]. rewrite orb_true_r. reflexivity.
Qed.

Lemma entryErrors_In byType m :
  In m (Validation.entryErrors byType) <->
  exists type x, In (type, x) (Js.entries byType) /\ ~ nonNegativeNumber x /\
                 m = Validation.msgEntry type.
Proof.
  unfold Validation.entryErrors. rewrite in_flat_map. split.
  - intros ((type & x) & Hin & Hm). cbn [fst snd] in Hm.
    destruct (Validation.notNonNegativeNumber x) eqn:E; [ | destruct Hm].
    destruct Hm as [<- | []]. exists type, x.
    split; [exact Hin | split; [ | reflexivity]].
    apply notNonNegativeNumber_true. exact E.
  - intros (type & x & Hin & Hx & ->). exists (type, x). split; [exact Hin | ].
    cbn [fst snd]. apply notNonNegativeNumber_true in Hx. rewrite Hx. left. reflexivity.
Qed.

(** The sum that the validator accumulates is the sum of the mapping in
    double arithmetic. *)
Lemma storageByTypeSum_typeSum byType :
  Validation.storageByTypeSum byType = typeSum byType.
Proof.
  unfold Validation.storageByTypeSum, typeSum.
  enough (G : forall l a,
             fold_left (fun sum val =>
                          Num.add sum (match val with VNumber n => n | _ => Fin 0 end))
                       l a
             = Spec.addedUp a (map counted l)) by apply G.
  induction l as [ | v l IH]; intros a; [reflexivity | ].
  cbn [fold_left map Spec.addedUp]. rewrite IH. destruct v; reflexivity.
Qed.

(** The critical errors are the messages of the failed checks. *)
Lemma criticalErrors_In storage m :
  In m (Validation.criticalErrors storage) <-> exists c, fails storage c /\ m = message c.
Proof.
  unfold Validation.criticalErrors. cbv zeta.
  set (total := Js.get storage "totalStorage").
  set (used := Js.get storage "usedStorage").
  set (byType := Js.get storage "storageByType").
  assert (Hfails : forall c, fails storage c <->
            match c with
            | TotalStorage => Validation.notPositiveNumber total = true
            | UsedStorage => Validation.notNonNegativeNumber used = true
            | UsedWithinTotal =>
                Validation.bothNumbersAnd (fun t u => Num.gt u t) total used = true
            | Files => negb (Js.isArray (Js.get storage "files")) = true
            | ByType =>
                negb (Js.truthy byType) || negb (Js.typeName_eqb (Js.typeof byType) TObject)
                || Js.isArray byType = true
            | ByTypeEntry type =>
                isObject byType /\
                exists x, In (type, x) (Js.entries byType) /\ ~ nonNegativeNumber x
            | ByTypeSum =>
                isObject byType /\
                exists u, used = VNumber u /\
                          Num.gt (Validation.storageByTypeSum byType) u = true
            | LastUpdated =>
                Validation.notValidDate (Js.get storage "lastUpdated") = true
            end).
  { intros c. destruct c; unfold fails; fold total; fold used; fold byType; cbv zeta.
    - symmetry. apply notPositiveNumber_true.
    - symmetry. apply notNonNegativeNumber_true.
    - symmetry. apply bothNumbers_true.
    - symmetry. apply notArray_true.
    - symmetry. apply shape_true.
    - reflexivity.
    - rewrite storageByTypeSum_typeSum. reflexivity.
    - symmetry. apply notValidDate_true. }
  assert (Hsum : forall b : bool,
             (match used with
              | VNumber u => Num.gt (Validation.storageByTypeSum byType) u
              | _ => false
              end) = b ->
             b = true <->
             exists u, used = VNumber u /\
                       Num.gt (Validation.storageByTypeSum byType) u = true).
  { intros b <-. destruct used; split; try discriminate;
      try (intros (u & H & _); discriminate).
    - intros H. eexists. split; [reflexivity | exact H].
    - intros (u & [= <-] & H). exact H. }
  split.
  - intros H. apply push_In in H. destruct H as [H | (H & ->)];
      [ | exists LastUpdated; split; [apply Hfails; exact H | reflexivity]].
    destruct (Js.truthy byType && Js.typeName_eqb (Js.typeof byType) TObject) eqn:Eobj.
    + apply object_true in Eobj.
      apply push_In in H. destruct H as [H | (H & ->)].
      * apply in_app_iff in H. destruct H as [H | H].
        -- apply push_In in H. destruct H as [H | (H & ->)];
             [ | exists ByType; split; [apply Hfails; exact H | reflexivity]].
           apply push_In in H. destruct H as [H | (H & ->)];
             [ | exists Files; split; [apply Hfails; exact H | reflexivity]].
           apply push_In in H. destruct H as [H | (H & ->)];
             [ | exists UsedWithinTotal; split; [apply Hfails; exact H | reflexivity]].
           apply push_In in H. destruct H as [H | (H & ->)];
             [ | exists UsedStorage; split; [apply Hfails; exact H | reflexivity]].
           apply push_In in H. destruct H as [[] | (H & ->)].
           exists TotalStorage; split; [apply Hfails; exact H | reflexivity].
        -- apply entryErrors_In in H. destruct H as (type & x & Hin & Hx & ->).
           exists (ByTypeEntry type). split; [ | reflexivity].
           apply Hfails. split; [exact Eobj | ]. exists x. split; assumption.
      * exists ByTypeSum. split; [ | reflexivity]. apply Hfails.
        split; [exact Eobj | ]. apply (Hsum _ eq_refl). exact H.
    + apply push_In in H. destruct H as [H | (H & ->)];
        [ | exists ByType; split; [apply Hfails; exact H | reflexivity]].
      apply push_In in H. destruct H as [H | (H & ->)];
        [ | exists Files; split; [apply Hfails; exact H | reflexivity]].
      apply push_In in H. destruct H as [H | (H & ->)];
        [ | exists UsedWithinTotal; split; [apply Hfails; exact H | reflexivity]].
      apply push_In in H. destruct H as [H | (H & ->)];
        [ | exists UsedStorage; split; [apply Hfails; exact H | reflexivity]].
      apply push_In in H. destruct H as [[] | (H & ->)].
      exists TotalStorage; split; [apply Hfails; exact H | reflexivity].
  - intros (c & Hc & ->). apply Hfails in Hc.
    assert (Hfirst : forall c',
               match c' with
               | TotalStorage | UsedStorage | UsedWithinTotal | Files | ByType => True
               | _ => False
               end ->
               fails storage c' ->
               In (message c')
                  (Validation.push
                     (Validation.push
                        (Validation.push
                           (Validation.push
                              (Validation.push [] (Validation.notPositiveNumber total)
                                               Validation.msgTotal)
                              (Validation.notNonNegativeNumber used) Validation.msgUsed)
                           (Validation.bothNumbersAnd (fun t u => Num.gt u t) total used)
                           Validation.msgExceeds)
                        (negb (Js.isArray (Js.get storage "files"))) Validation.msgFiles)
                     (negb (Js.truthy byType)
                      || negb (Js.typeName_eqb (Js.typeof byType) TObject)
                      || Js.isArray byType)
                     Validation.msgByType)).
    { intros c' Hkind Hc'. apply Hfails in Hc'. rewrite !push_In.
      destruct c'; try contradiction; cbn [message]; tauto. }
    apply push_In.
    destruct c; cbv iota in Hc; try (left;
      destruct (Js.truthy byType && Js.typeName_eqb (Js.typeof byType) TObject);
      [apply push_In; left; apply in_app_iff; left | ];
      (apply Hfirst; [exact I | apply Hfails; exact Hc])).
    + destruct Hc as (Hobj & x & Hin & Hx). left.
      rewrite (proj2 (object_true byType) Hobj).
      apply push_In. left. apply in_app_iff. right.
      apply entryErrors_In. exists type, x. repeat split; assumption.
    + destruct Hc as (Hobj & Hu). left.
      rewrite (proj2 (object_true byType) Hobj).
      apply push_In. right. split; [ | reflexivity].
      apply (Hsum _ eq_refl). exact Hu.
    + right. split; [exact Hc | reflexivity].
Qed.

End CheckFacts.


(** * The validator: properties of the specification *)

Lemma append_length (a b : string) :
  String.length (a ++ b) = (String.length a + String.length b)%nat.
Proof. induction a as [ | c a IH]; [reflexivity | ]. simpl. rewrite IH. reflexivity. Qed.

Lemma append_inv_tail (a b s : string) : a ++ s = b ++ s -> a = b.
Proof.
  revert b. induction a as [ | c a IH]; intros [ | c' b] H.
  - reflexivity.
  - apply (f_equal String.length) in H. simpl in H. rewrite append_length in H. lia.
  - apply (f_equal String.length) in H. simpl in H. rewrite append_length in H. lia.
  - simpl in H. injection H as -> H. f_equal. apply IH, H.
Qed.

(** The checks have messages of their own. *)
Lemma message_injective c c' : CheckSpec.message c = CheckSpec.message c' -> c = c'.
Proof.
  destruct c, c'; cbn [CheckSpec.message]; intros H;
    try reflexivity; try (simpl in H; discriminate H).
  unfold Validation.msgEntry in H. simpl in H. injection H as H.
  apply append_inv_tail in H. rewrite H. reflexivity.
Qed.

Lemma msgFiltered_not_a_check n c : Validation.msgFiltered n <> CheckSpec.message c.
Proof. destruct c; cbn [CheckSpec.message]; intros H; simpl in H; discriminate H. Qed.

Lemma filter_length_split {A} (p : A -> bool) l :
  (List.length l - List.length (filter p l))%nat
  = List.length (filter (fun x => negb (p x)) l).
Proof.
  induction l as [ | x l IH]; [reflexivity | ].
  cbn [filter List.length]. pose proof (filter_length_le p l) as Hle.
  destruct (p x); cbn [negb List.length].
  - rewrite <- IH. lia.
  - rewrite <- IH. lia.
Qed.

(** The result of the validator on an object, by cases on whether some
    critical check has failed. *)
Lemma validateStorageData_object data :
  Validation.notAnObject data = false ->
  (Validation.criticalErrors data <> [] /\
   Validation.validateStorageData data
   = Validation.mkResult false None (Validation.criticalErrors data))
  \/
  (Validation.criticalErrors data = [] /\
   Validation.validateStorageData data
   = Validation.mkResult
       true
       (Some (CheckSpec.normalized data (Cast.asArray (Js.get data "files"))))
       (if (0 <? CheckSpec.invalidCount (Cast.asArray (Js.get data "files")))%nat
        then [Validation.msgFiltered
                (CheckSpec.invalidCount (Cast.asArray (Js.get data "files")))]
        else [])).
Proof.
  intros Hobj. unfold Validation.validateStorageData. rewrite Hobj.
  destruct (Validation.criticalErrors data) as [ | e es] eqn:E.
  - right. split; [reflexivity | ].
    cbn [List.length Nat.ltb Nat.leb]. cbv zeta.
    rewrite length_map, filter_length_split.
    fold (CheckSpec.invalidCount (Cast.asArray (Js.get data "files"))).
    unfold CheckSpec.normalized.
    destruct (CheckSpec.invalidCount (Cast.asArray (Js.get data "files")));
      reflexivity.
  - left. split; [discriminate | reflexivity].
Qed.

(** C4, as amended: the check on the sum is failed when the values of
    [storageByType], added up in double arithmetic in the order of the
    mapping, come to more than [usedStorage].  On a candidate that is an
    object, [validateStorageData] reports each failed check by the
    message of that check and by no other, the messages of the checks
    being distinct; when some check fails the
    result is invalid and carries no snapshot; when none fails the
    result is valid, its snapshot holds exactly the file records that
    pass [validateFileItem], in their order, and the messages are the
    single message ["Filtered out N invalid file item(s)"] when the
    number [N] of dropped records is positive, and none otherwise.  A
    candidate that is not an object is invalid, with a message of its
    own. *)
Theorem validateStorageData_reports_violations :
  forall data : value,
    let r := Validation.validateStorageData data in
    (Validation.notAnObject data = true ->
     r = Validation.mkResult false None [Validation.msgObject]) /\
    (Validation.notAnObject data = false ->
     (forall c, CheckSpec.fails data c ->
                Validation.isValid r = false /\ Validation.data r = None /\
                In (CheckSpec.message c) (Validation.errors r)) /\
     (forall c, In (CheckSpec.message c) (Validation.errors r) -> CheckSpec.fails data c) /\
     (forall c c', CheckSpec.message c = CheckSpec.message c' -> c = c') /\
     ((forall c, ~ CheckSpec.fails data c) ->
      exists records,
        Js.get data "files" = VArray records /\
        Validation.isValid r = true /\
        Validation.data r = Some (CheckSpec.normalized data records) /\
        Validation.errors r
        = if (0 <? CheckSpec.invalidCount records)%nat
          then [Validation.msgFiltered (CheckSpec.invalidCount records)]
          else [])).
Proof.
  intros data r. split.
  - intros H. subst r. unfold Validation.validateStorageData. rewrite H. reflexivity.
  - intros Hobj.
    destruct (validateStorageData_object data Hobj) as [(Hne & Hr) | (Hnil & Hr)];
      fold r in Hr; rewrite Hr; cbn [Validation.isValid Validation.data Validation.errors].
    + split; [ | split; [ | split]].
      * intros c Hc. repeat split.
        apply CheckFacts.criticalErrors_In. exists c. split; [exact Hc | reflexivity].
      * intros c Hin. apply CheckFacts.criticalErrors_In in Hin.
        destruct Hin as (c' & Hc' & Heq). apply message_injective in Heq.
        rewrite Heq. exact Hc'.
      * exact message_injective.
      * intros Hnone. exfalso.
        destruct (Validation.criticalErrors data) as [ | e es] eqn:E; [contradiction | ].
        assert (Hin : In e (Validation.criticalErrors data)) by (rewrite E; left; reflexivity).
        apply CheckFacts.criticalErrors_In in Hin. destruct Hin as (c & Hc & _).
        apply (Hnone c Hc).
    + assert (Hnone : forall c, ~ CheckSpec.fails data c).
      { intros c Hc.
        assert (Hin : In (CheckSpec.message c) (Validation.criticalErrors data))
          by (apply CheckFacts.criticalErrors_In; exists c; split; [exact Hc | reflexivity]).
        rewrite Hnil in Hin. destruct Hin. }
      split; [ | split; [ | split]].
      * intros c Hc. exfalso. apply (Hnone c Hc).
      * intros c Hin. exfalso.
        destruct (0 <? CheckSpec.invalidCount (Cast.asArray (Js.get data "files")))%nat.
        -- destruct Hin as [Hin | []]. apply (msgFiltered_not_a_check _ _ Hin).
        -- destruct Hin.
      * exact message_injective.
      * intros _.
        destruct (Js.get data "files") as [ | | | | | | | records | ] eqn:Ef;
          try (exfalso; apply (Hnone CheckSpec.Files); cbn [CheckSpec.fails];
               rewrite Ef; intros elems; discriminate).
        exists records. cbn [Cast.asArray]. repeat split.
Qed.

Lemma validateStorageData_filter_witness :
  let r := Validation.validateStorageData Examples.oneOfThreeInvalid in
  Validation.isValid r = true /\
  option_map (fun d => List.length (StorageData.files d)) (Validation.data r) = Some 2%nat /\
  Validation.errors r = ["Filtered out 1 invalid file item(s)"].
Proof.
  destruct (proj2 (proj2 (proj2 (proj2 (validateStorageData_reports_violations
                                          Examples.oneOfThreeInvalid)
                                       eq_refl))))
    as (records & Hfiles & Hvalid & Hdata & Herrors).
  - intros c Hc.
    assert (Hin : In (CheckSpec.message c)
                     (Validation.criticalErrors Examples.oneOfThreeInvalid))
      by (apply CheckFacts.criticalErrors_In; exists c; split; [exact Hc | reflexivity]).
    vm_compute in Hin. exact Hin.
  - cbv zeta. rewrite Hvalid, Hdata, Herrors.
    vm_compute in Hfiles. injection Hfiles as <-.
    repeat split.
Defined.

(** C4 as it is stated fails on the check of the sum: the values
    [2 ^ 53] and [1] add up to more than a [usedStorage] of [2 ^ 53],
    and the candidate is returned as valid, without a message, because
    in double arithmetic the two add up to [2 ^ 53]. *)
Lemma validator_misses_a_rounded_excess :
  let data := Encode.storage Examples.roundedAway in
  (exists sum used,
      CheckSpec.exactTypeSum (Js.get data "storageByType") = Some sum /\
      Js.get data "usedStorage" = VNumber (Fin used) /\
      used < sum) /\
  Validation.validateStorageData data
  = Validation.mkResult true (Some Examples.roundedAway) [].
Proof.
  split.
  - exists (inject_Z (2 ^ 53 + 1)), (inject_Z (2 ^ 53)).
    split; [vm_compute; reflexivity | split; [reflexivity | reflexivity]].
  - vm_compute. reflexivity.
Qed.


(** * The cases of the test suite, run on the model *)

Example set_keeps_a_fitting_breakdown :
  Writable.current
    (snd (StorageStore.customSet
            (StorageData.mk (Num.of_Z 1000) (Num.of_Z 500) []
                            [("image/png", Num.of_Z 200); ("text/plain", Num.of_Z 300)]
                            (Date_now 1))
            (StorageStore.storageStore 0)))
  = StorageData.mk (Num.of_Z 1000) (Num.of_Z 500) []
                   [("image/png", Num.of_Z 200); ("text/plain", Num.of_Z 300)]
                   (Date_now 1).
Proof. reflexivity. Qed.

Example set_scales_an_oversized_breakdown :
  StorageData.storageByType
    (Writable.current
       (snd (StorageStore.customSet Examples.oversized (StorageStore.storageStore 0))))
  = [("image/png", Num.of_Z 240); ("text/plain", Num.of_Z 160)].
Proof. reflexivity. Qed.

Example set_rejects_a_negative_total :
  StorageStore.customSet
    (StorageData.mk (Num.of_Z (-100)) (Num.of_Z 0) [] [] (Date_now 1))
    (StorageStore.storageStore 0)
  = (Throw (Error ("Invalid storage data: totalStorage must be a positive number, "
                   ++ "usedStorage cannot exceed totalStorage")),
     StorageStore.storageStore 0).
Proof. reflexivity. Qed.

Example set_rejects_a_negative_used :
  fst (StorageStore.customSet
         (StorageData.mk (Num.of_Z 1000) (Num.of_Z (-50)) [] [] (Date_now 1))
         (StorageStore.storageStore 0))
  = Throw (Error ("Invalid storage data: usedStorage must be a non-negative number, "
                  ++ "Sum of storageByType cannot exceed usedStorage")).
Proof. reflexivity. Qed.

Example set_drops_the_record_without_id :
  StorageData.files
    (Writable.current
       (snd (StorageStore.customSet
               (StorageData.mk (Num.of_Z 1000) (Num.of_Z 500)
                               [Examples.fileA; Examples.fileNoId] [] (Date_now 1))
               (StorageStore.storageStore 0))))
  = [Examples.fileA].
Proof. reflexivity. Qed.

Example removeFile_removes_the_record :
  map FileItem.name
      (StorageData.files
         (Writable.current
            (snd (StorageStore.removeFile "3" 2
                    (snd (StorageStore.customSet
                            (StorageData.mk (Num.of_Z 1000) (Num.of_Z 500)
                                            [Examples.fileA; Examples.fileC] []
                                            (Date_now 1))
                            (StorageStore.storageStore 0)))))))
  = ["a.txt"].
Proof. reflexivity. Qed.

Example updateStorageByType_scales :
  StorageData.storageByType
    (Writable.current
       (snd (StorageStore.updateStorageByType
               [("image/png", Num.of_Z 300); ("text/plain", Num.of_Z 200)] 2
               (snd (StorageStore.customSet
                       (StorageData.mk (Num.of_Z 1000) (Num.of_Z 400) [] [] (Date_now 1))
                       (StorageStore.storageStore 0))))))
  = [("image/png", Num.of_Z 240); ("text/plain", Num.of_Z 160)].
Proof. reflexivity. Qed.

Example registry_places_the_default_order :
  map TabDefinition.id
      (Writable.current
         (TabRegistry.run
            [ TabRegistry.RegisterTab
                (TabDefinition.mk "tab-default" "Default Tab" None (VObject []) None);
              TabRegistry.RegisterTab
                (TabDefinition.mk "tab-early" "Early Tab" None (VObject [])
                                  (Some (Num.of_Z 50)));
              TabRegistry.RegisterTab
                (TabDefinition.mk "tab-late" "Late Tab" None (VObject [])
                                  (Some (Num.of_Z 150))) ]
            TabRegistry.tabRegistry))
  = ["tab-early"; "tab-default"; "tab-late"].
Proof. reflexivity. Qed.

Example validateTabDefinition_accepts_a_plain_tab :
  Validation.validateTabDefinition (Encode.tab Examples.tab1) = true.
Proof. reflexivity. Qed.

Example fetch_stores_a_valid_body :
  let body :=
    VObject [ ("totalStorage", VNumber (Num.of_Z 1000));
              ("usedStorage", VNumber (Num.of_Z 500));
              ("files", VArray []);
              ("storageByType", VObject [("text/plain", VNumber (Num.of_Z 100))]);
              ("lastUpdated", VString "2024-01-01T00:00:00.000Z") ] in
  let r := Fetch.fetchStorageData
             (fun _ => Num.of_Z 1704067200000) ""
             (Normal (Fetch.received 200 (Normal body))) 7
             (Fetch.mkStores UIStore.uiStore (StorageStore.storageStore 0)) in
  fst r = Normal (StorageData.mk (Num.of_Z 1000) (Num.of_Z 500) []
                                 [("text/plain", Num.of_Z 100)] (Date_now 7)) /\
  Writable.current (Fetch.storage (snd r))
  = StorageData.mk (Num.of_Z 1000) (Num.of_Z 500) []
                   [("text/plain", Num.of_Z 100)] (Date_now 7) /\
  Writable.current (Fetch.ui (snd r))
  = UIState.mk "storage-overview" UIState.auto false None.
Proof. cbv zeta. repeat split. Qed.

(** Rounding can make a correction miss: an amount within the total is
    refused by [updateUsedStorage] when the breakdown, scaled to it in
    double arithmetic, comes out above it; and [updateStorageByType]
    refuses a breakdown that still adds up to more than [usedStorage]
    after it has been scaled twice. *)
Example corrections_can_miss :
  (exists e,
      StorageStore.updateUsedStorage
        Examples.justBelowOne 2
        (StorageStore.run 0 [(StorageStore.Set_ Examples.threeUsed, 1%Z)]
                          (StorageStore.storageStore 0))
      = (Throw e,
         StorageStore.run 0 [(StorageStore.Set_ Examples.threeUsed, 1%Z)]
                          (StorageStore.storageStore 0))) /\
  (exists e,
      StorageStore.updateStorageByType
        Examples.twoLargeValues 2
        (StorageStore.run 0 [(StorageStore.Set_ Examples.allUsed, 1%Z)]
                          (StorageStore.storageStore 0))
      = (Throw e,
         StorageStore.run 0 [(StorageStore.Set_ Examples.allUsed, 1%Z)]
                          (StorageStore.storageStore 0))).
Proof. split; eexists; vm_compute; reflexivity. Qed.

(** * Further properties of the storage store *)

(** An update of the file records on a sound store: the records that
    are not valid are dropped. *)
Lemma customUpdate_files_filtered (g : list FileItem.t -> list FileItem.t) now w :
  Spec.sound w ->
  StorageStore.customUpdate
    (fun data => StorageStore.withFiles (g (StorageData.files data)) (Date_now now) data) w
  = (Normal tt,
     Writable.set
       (StorageStore.withFiles
          (filter Spec.validFile (g (StorageData.files (Writable.current w))))
          (Date_now now) (Writable.current w)) w).
Proof.
  intros ((E & _) & _). unfold StorageStore.customUpdate, Writable.update.
  set (c := StorageStore.withFiles _ _ _).
  assert (Ec : Validation.criticalErrors (Encode.storage c) = [])
    by (apply StoreFacts.accepted_withFiles; exact E).
  rewrite (StoreFacts.clamp_fits c (StoreFacts.accepted_fits c Ec)).
  rewrite (ValidationFacts.validated_accepts c Ec). reflexivity.
Qed.

(** X1.  On a store reached from the initial one, [addFile] never
    throws: a record that passes [validateFileItem] is appended after
    the records already held, and a record that does not is dropped
    without an error, the call only moving [lastUpdated]. *)
Theorem addFile_appends_valid_record :
  forall (loaded : Z) (calls : list (StorageStore.operation * Z))
         (file : FileItem.t) (now : Z),
    let w := StorageStore.run loaded calls (StorageStore.storageStore loaded) in
    StorageStore.addFile file now w
    = (Normal tt,
       Writable.set
         (StorageStore.withFiles
            (StorageData.files (Writable.current w)
             ++ (if Spec.validFile file then [file] else []))
            (Date_now now) (Writable.current w)) w).
Proof.
  intros loaded calls file now w.
  pose proof (StoreFacts.sound_reachable loaded calls) as Hw. fold w in Hw.
  unfold StorageStore.addFile.
  rewrite (customUpdate_files_filtered (fun l => l ++ [file])%list now w Hw).
  do 3 f_equal. rewrite filter_app.
  rewrite (StoreFacts.filter_all Spec.validFile _ (proj2 (proj1 Hw))).
  reflexivity.
Qed.

(** X2.  On a store reached from the initial one, [updateFiles] never
    throws and stores the records of the given list that pass
    [validateFileItem], in their order. *)
Theorem updateFiles_keeps_valid_records :
  forall (loaded : Z) (calls : list (StorageStore.operation * Z))
         (files : list FileItem.t) (now : Z),
    let w := StorageStore.run loaded calls (StorageStore.storageStore loaded) in
    StorageStore.updateFiles files now w
    = (Normal tt,
       Writable.set
         (StorageStore.withFiles (filter Spec.validFile files)
                                 (Date_now now) (Writable.current w)) w).
Proof.
  intros loaded calls files now w.
  pose proof (StoreFacts.sound_reachable loaded calls) as Hw. fold w in Hw.
  apply (customUpdate_files_filtered (fun _ => files) now w Hw).
Qed.

Lemma clamp_keeps_totals d :
  StorageData.totalStorage (StorageStore.clamp d) = StorageData.totalStorage d /\
  StorageData.usedStorage (StorageStore.clamp d) = StorageData.usedStorage d.
Proof.
  unfold StorageStore.clamp.
  destruct (Num.gt (StorageStore.sumValues (StorageData.storageByType d))
                   (StorageData.usedStorage d)
            && Num.gt (StorageStore.sumValues (StorageData.storageByType d)) (Fin 0));
    split; reflexivity.
Qed.

(** A candidate whose totals are out of range is thrown out. *)
Lemma customUpdate_out_of_range updater w :
  (forall t u, StorageData.totalStorage (updater (Writable.current w)) = Fin t ->
               StorageData.usedStorage (updater (Writable.current w)) = Fin u ->
               ~ (0 < t /\ 0 <= u /\ u <= t)) ->
  exists e, StorageStore.customUpdate updater w = (Throw e, w).
Proof.
  intros Hbad. unfold StorageStore.customUpdate, Writable.update.
  destruct (StorageStore.validated (StorageStore.clamp (updater (Writable.current w))))
    as [d' | e] eqn:E.
  - exfalso. apply StoreFacts.validated_Normal in E. destruct E as (E & _).
    apply ValidationFacts.criticalErrors_nil in E.
    destruct E as (t & u & s & Ht & Htp & Hu & Hup & Hle & _).
    destruct (clamp_keeps_totals (updater (Writable.current w))) as (Kt & Ku).
    rewrite Kt in Ht. rewrite Ku in Hu. apply (Hbad t u Ht Hu). repeat split; assumption.
  - exists e. reflexivity.
Qed.

(** X3.  On a store reached from the initial one, [updateUsedStorage(n)]
    throws and leaves the store as it was when [n] is not a finite
    number between 0 and [totalStorage].  When [n] is one, the candidate
    keeps the breakdown by type if that adds up, in double arithmetic,
    to at most [n], and otherwise has every value [v] of it replaced by
    [Math.floor(v * (n / sum))]; the call stores the candidate when its
    breakdown adds up to at most [n], which is so whenever the breakdown
    was kept, and throws, leaving the store as it was, when the scaled
    values still add up to more. *)
Theorem updateUsedStorage_outcome :
  forall (loaded : Z) (calls : list (StorageStore.operation * Z)) (n : number) (now : Z),
    let w := StorageStore.run loaded calls (StorageStore.storageStore loaded) in
    exists t s,
      StorageData.totalStorage (Writable.current w) = Fin t /\
      Spec.addedUp (Fin 0) (map snd (StorageData.storageByType (Writable.current w)))
      = Fin s /\
      ((forall q, n = Fin q -> ~ (0 <= q /\ q <= t)) ->
       exists e, StorageStore.updateUsedStorage n now w = (Throw e, w)) /\
      (forall q, n = Fin q -> 0 <= q -> q <= t ->
         let c := MoreSpec.withUsed q s now (Writable.current w) in
         (s <= q -> Spec.withinUsed q (StorageData.storageByType c)) /\
         (Spec.withinUsed q (StorageData.storageByType c) ->
          StorageStore.updateUsedStorage n now w = (Normal tt, Writable.set c w)) /\
         (~ Spec.withinUsed q (StorageData.storageByType c) ->
          exists e, StorageStore.updateUsedStorage n now w = (Throw e, w))).
Proof.
  intros loaded calls n now w.
  pose proof (StoreFacts.sound_reachable loaded calls) as Hw. fold w in Hw.
  destruct Hw as ((E & Hfiles) & _).
  pose proof E as E'. apply ValidationFacts.criticalErrors_nil in E'.
  destruct E' as (t & u & s & Ht & Htp & Hu & Hup & Hle & Hm & Hs & Hsle & Hdate).
  exists t, s. split; [exact Ht | ].
  split; [rewrite <- ValidationFacts.sumValues_addedUp; exact Hs | ].
  set (cur := Writable.current w) in *.
  split.
  - intros Hbad. apply customUpdate_out_of_range. fold cur.
    intros t' u'. cbn [StorageStore.withUsedStorage StorageData.totalStorage
                       StorageData.usedStorage].
    rewrite Ht. intros [= <-] Hn (_ & H1 & H2). apply (Hbad u' Hn). split; assumption.
  - intros q -> Hpos Hfit c.
    unfold StorageStore.updateUsedStorage, StorageStore.customUpdate, Writable.update.
    fold cur. set (c0 := StorageStore.withUsedStorage (Fin q) (Date_now now) cur).
    subst c. unfold MoreSpec.withUsed. destruct (Qlt_le_dec q s) as [Hlt | Hge].
    + assert (Hex : Spec.exceedsOnlyInSum c0 q s).
      { repeat split; try assumption; try reflexivity.
        - exists t. repeat split; assumption.
        - cbn [c0 StorageStore.withUsedStorage StorageData.storageByType].
          rewrite <- ValidationFacts.sumValues_addedUp. exact Hs. }
      destruct (validated_exceeding c0 q s Hex) as (Hyes & Hno).
      assert (Hc : Spec.correctedInDoubles q s c0
                   = StorageData.mk (StorageData.totalStorage cur) (Fin q)
                                    (StorageData.files cur)
                                    (map (fun kv => (fst kv,
                                                     Spec.scaledInDoubles q s (snd kv)))
                                         (StorageData.storageByType cur))
                                    (Date_now now)).
      { unfold Spec.correctedInDoubles.
        cbn [StorageData.files StorageData.totalStorage StorageData.usedStorage
             StorageData.storageByType StorageData.lastUpdated c0
             StorageStore.withUsedStorage].
        rewrite (StoreFacts.filter_all _ _ Hfiles). reflexivity. }
      rewrite Hc in Hyes, Hno. cbn [StorageData.storageByType] in *.
      split; [intros Hge; exfalso; lra | split].
      * intros Hin. rewrite (Hyes Hin). reflexivity.
      * intros Hout. destruct (Hno Hout) as (e & ->). exists e. reflexivity.
    + assert (Ec : Validation.criticalErrors (Encode.storage c0) = []).
      { apply ValidationFacts.criticalErrors_nil. exists t, q, s.
        repeat split; try assumption; reflexivity. }
      assert (Hin : Spec.withinUsed q (StorageData.storageByType cur)).
      { exists s. split; [rewrite <- ValidationFacts.sumValues_addedUp; exact Hs | exact Hge]. }
      cbn [StorageData.storageByType].
      split; [intros _; exact Hin | split].
      * intros _.
        rewrite (StoreFacts.clamp_fits c0 (StoreFacts.accepted_fits c0 Ec)).
        rewrite (ValidationFacts.validated_accepts c0 Ec).
        cbn [StorageData.files StorageData.totalStorage StorageData.usedStorage
             StorageData.storageByType StorageData.lastUpdated c0
             StorageStore.withUsedStorage].
        rewrite (StoreFacts.filter_all _ _ Hfiles). reflexivity.
      * intros Hout. exfalso. apply Hout, Hin.
Qed.

(** X4.  On a store reached from the initial one, [updateTotalStorage(n)]
    succeeds exactly when [n] is a finite positive number that is not
    below [usedStorage]; it then changes [totalStorage] and [lastUpdated]
    only.  Otherwise it throws and leaves the store as it was. *)
Theorem updateTotalStorage_outcome :
  forall (loaded : Z) (calls : list (StorageStore.operation * Z)) (n : number) (now : Z),
    let w := StorageStore.run loaded calls (StorageStore.storageStore loaded) in
    exists u,
      StorageData.usedStorage (Writable.current w) = Fin u /\
      ((exists q, n = Fin q /\ 0 < q /\ u <= q /\
                  StorageStore.updateTotalStorage n now w
                  = (Normal tt,
                     Writable.set (StorageStore.withTotalStorage n (Date_now now)
                                                                 (Writable.current w)) w))
       \/
       ((forall q, n = Fin q -> ~ (0 < q /\ u <= q)) /\
        exists e, StorageStore.updateTotalStorage n now w = (Throw e, w))).
Proof.
  intros loaded calls n now w.
  pose proof (StoreFacts.sound_reachable loaded calls) as Hw. fold w in Hw.
  destruct Hw as ((E & Hfiles) & _).
  pose proof E as E'. apply ValidationFacts.criticalErrors_nil in E'.
  destruct E' as (t & u & s & Ht & Htp & Hu & Hup & Hle & Hm & Hs & Hsle & Hdate).
  exists u. split; [exact Hu | ].
  set (cur := Writable.current w) in *.
  assert (Hout : (forall q, n = Fin q -> ~ (0 < q /\ u <= q)) ->
                 exists e, StorageStore.updateTotalStorage n now w = (Throw e, w)).
  { intros Hbad. apply customUpdate_out_of_range. fold cur.
    intros t' u'. cbn [StorageStore.withTotalStorage StorageData.totalStorage
                       StorageData.usedStorage].
    rewrite Hu. intros Hn [= <-] (H0 & _ & H2). apply (Hbad t' Hn). split; assumption. }
  destruct n as [ | | | q];
    try (right; split; [intros q; discriminate | apply Hout; intros q; discriminate]).
  destruct (Qlt_le_dec 0 q) as [Hpos | Hneg];
    [ | right; split; [ | apply Hout]; intros q' [= <-] (H1 & _); lra].
  destruct (Qlt_le_dec q u) as [Hsmall | Hfit];
    [right; split; [ | apply Hout]; intros q' [= <-] (_ & H2); lra | ].
  left. exists q. split; [reflexivity | split; [exact Hpos | split; [exact Hfit | ]]].
  unfold StorageStore.updateTotalStorage, StorageStore.customUpdate, Writable.update.
  fold cur. set (c := StorageStore.withTotalStorage (Fin q) (Date_now now) cur).
  assert (Ec : Validation.criticalErrors (Encode.storage c) = []).
  { apply ValidationFacts.criticalErrors_nil. exists q, u, s.
    repeat split; try assumption; reflexivity. }
  rewrite (StoreFacts.clamp_fits c (StoreFacts.accepted_fits c Ec)).
  rewrite (ValidationFacts.validated_accepts c Ec).
  cbn [StorageData.files StorageData.totalStorage StorageData.usedStorage
       StorageData.storageByType StorageData.lastUpdated c
       StorageStore.withTotalStorage].
  rewrite (StoreFacts.filter_all _ _ Hfiles). reflexivity.
Qed.

Lemma customSet_accepted d w :
  Spec.accepted d -> StorageStore.customSet d w = (Normal tt, Writable.set d w).
Proof.
  intros (E & Hfiles). unfold StorageStore.customSet.
  rewrite (StoreFacts.clamp_fits d (StoreFacts.accepted_fits d E)).
  rewrite (ValidationFacts.validated_accepts d E).
  rewrite (StoreFacts.filter_all _ _ Hfiles). destruct d. reflexivity.
Qed.

(** X5.  A snapshot that the store has held at any time can be put back
    with [set]: it is accepted and stored as it is, without correction
    and without any record dropped. *)
Theorem held_snapshot_is_set_verbatim :
  forall (loaded : Z) (calls : list (StorageStore.operation * Z)) (d : StorageData.t),
    In d (Writable.history
            (StorageStore.run loaded calls (StorageStore.storageStore loaded))) ->
    forall w, StorageStore.customSet d w = (Normal tt, Writable.set d w).
Proof.
  intros loaded calls d Hin w. apply customSet_accepted.
  destruct (StoreFacts.sound_reachable loaded calls) as (_ & Hh).
  rewrite Forall_forall in Hh. apply Hh, Hin.
Qed.

Lemma held_snapshot_witness :
  StorageStore.customSet
    (StorageStore.initialStorageData 0)
    (StorageStore.run 0 [(StorageStore.UpdateUsedStorage (Num.of_Z 5), 3%Z)]
                      (StorageStore.storageStore 0))
  = (Normal tt,
     Writable.set
       (StorageStore.initialStorageData 0)
       (StorageStore.run 0 [(StorageStore.UpdateUsedStorage (Num.of_Z 5), 3%Z)]
                         (StorageStore.storageStore 0))).
Proof.
  apply (held_snapshot_is_set_verbatim
           0 [(StorageStore.UpdateUsedStorage (Num.of_Z 5), 3%Z)]).
  vm_compute. left. reflexivity.
Defined.

(** X6.  For every snapshot the store holds or has held, the derived
    stores are in range.  The guard for a zero total is never taken:
    the usage percentage is the quotient [used / total], rounded to a
    double, times 100, rounded again, and it is a finite number between
    0 and 100.  The available storage, [total - used] rounded, is not
    negative. *)
Theorem derived_stores_in_range :
  forall (loaded : Z) (calls : list (StorageStore.operation * Z)),
    Forall (fun d =>
              exists t u p,
                StorageData.totalStorage d = Fin t /\
                StorageData.usedStorage d = Fin u /\
                Derived.storagePercentage d
                = Num.mul (Num.div (Fin u) (Fin t)) (Fin 100) /\
                Derived.storagePercentage d = Fin p /\ 0 <= p /\ p <= 100 /\
                Num.le (Fin 0) (Derived.availableStorage d) = true)
           (Writable.history
              (StorageStore.run loaded calls (StorageStore.storageStore loaded))).
Proof.
  intros loaded calls.
  destruct (StoreFacts.sound_reachable loaded calls) as (_ & Hh).
  eapply Forall_impl; [ | exact Hh]. intros d Hd.
  apply StoreFacts.accepted_invariants in Hd.
  destruct Hd as (t & u & s & Ht & Htp & Hu & Hup & Hle & _).
  assert (Hcmp : (t ?= 0) = Gt) by (apply (proj1 (Qgt_alt t 0)); exact Htp).
  assert (H0 : 0 <= u / t) by (apply Qle_shift_div_l; [exact Htp | lra]).
  assert (H1 : u / t <= inject_Z 1).
  { apply Qle_shift_div_r; [exact Htp | ]. change (inject_Z 1) with 1. lra. }
  assert (H2 : u / t < 2 ^ 53).
  { apply Qle_lt_trans with (inject_Z 1); [exact H1 | reflexivity]. }
  destruct (RoundFacts.round_le_integer 1 (u / t) H0 H2 H1) as (r & Er & Hr0 & Hr1).
  change (inject_Z 1) with 1 in Hr1.
  assert (H3 : 0 <= r * 100) by lra.
  assert (H4 : r * 100 <= inject_Z 100) by (change (inject_Z 100) with 100; lra).
  assert (H5 : r * 100 < 2 ^ 53).
  { apply Qle_lt_trans with (inject_Z 100); [exact H4 | reflexivity]. }
  destruct (RoundFacts.round_le_integer 100 (r * 100) H3 H5 H4) as (p & Ep & Hp0 & Hp1).
  change (inject_Z 100) with 100 in Hp1.
  assert (Epct : Derived.storagePercentage d
                 = Num.mul (Num.div (Fin u) (Fin t)) (Fin 100)).
  { unfold Derived.storagePercentage, Derived.strictEquals.
    rewrite Ht, Hu. cbn [Num.compare]. rewrite Hcmp. reflexivity. }
  exists t, u, p. split; [exact Ht | split; [exact Hu | split; [exact Epct | ]]].
  split; [ | split; [exact Hp0 | split; [exact Hp1 | ]]].
  - rewrite Epct. unfold Num.div. rewrite Hcmp, Er. cbn [Num.mul]. exact Ep.
  - unfold Derived.availableStorage, Num.sub. rewrite Ht, Hu. cbn [Num.neg Num.add].
    destruct (RoundFacts.sum_nonneg (t + - u)) as [-> | (a & -> & Ha)];
      [lra | reflexivity | ].
    apply NumFacts.le_Fin. exact Ha.
Qed.

(** X7.  Every call of an operation shows the subscribers at most one
    new snapshot: a call that returns normally adds the snapshot it has
    stored to those the store has held, and a call that throws adds
    nothing. *)
Theorem one_notification_per_accepted_write :
  forall (loaded : Z) (op : StorageStore.operation) (now : Z) (w : StorageStore.store),
    Writable.history (snd (StorageStore.call loaded op now w))
    = (Writable.history w
       ++ match fst (StorageStore.call loaded op now w) with
          | Normal _ => [Writable.current (snd (StorageStore.call loaded op now w))]
          | Throw _ => []
          end)%list.
Proof.
  intros loaded op now w.
  assert (Hset : forall data,
             Writable.history (snd (StorageStore.customSet data w))
             = (Writable.history w
                ++ match fst (StorageStore.customSet data w) with
                   | Normal _ => [Writable.current (snd (StorageStore.customSet data w))]
                   | Throw _ => []
                   end)%list).
  { intros data. unfold StorageStore.customSet.
    destruct (StorageStore.validated (StorageStore.clamp data)); cbn [fst snd].
    - reflexivity.
    - symmetry. apply app_nil_r. }
  assert (Hupd : forall updater,
             Writable.history (snd (StorageStore.customUpdate updater w))
             = (Writable.history w
                ++ match fst (StorageStore.customUpdate updater w) with
                   | Normal _ =>
                       [Writable.current (snd (StorageStore.customUpdate updater w))]
                   | Throw _ => []
                   end)%list).
  { intros updater. unfold StorageStore.customUpdate, Writable.update.
    destruct (StorageStore.validated
                (StorageStore.clamp (updater (Writable.current w)))); cbn [fst snd].
    - reflexivity.
    - symmetry. apply app_nil_r. }
  destruct op; cbn [StorageStore.call];
    try apply Hset; try apply Hupd; reflexivity.
Qed.


(** * Further properties of the validator *)

Lemma trimEnd_kept c rest :
  Str.isWhiteSpace c = false -> Str.trimEnd (String c rest) <> EmptyString.
Proof.
  intros Hc. cbn [Str.trimEnd]. destruct (Str.trimEnd rest); [rewrite Hc | ]; discriminate.
Qed.

(** A string trims to the empty string exactly when all its characters
    are white space. *)
Lemma trim_empty s :
  String.eqb (Str.trim s) "" = forallb Str.isWhiteSpace (list_ascii_of_string s).
Proof.
  unfold Str.trim. induction s as [ | c rest IH]; [reflexivity | ].
  cbn [Str.trimStart list_ascii_of_string forallb].
  destruct (Str.isWhiteSpace c) eqn:Hc; [exact IH | ].
  cbn [andb]. apply String.eqb_neq. apply trimEnd_kept. exact Hc.
Qed.

Lemma nonBlank_iff s :
  forallb Str.isWhiteSpace (list_ascii_of_string s) = false <-> MoreSpec.nonBlank s.
Proof.
  unfold MoreSpec.nonBlank. split.
  - intros H. induction (list_ascii_of_string s) as [ | c l IH]; [discriminate | ].
    cbn [forallb] in H. destruct (Str.isWhiteSpace c) eqn:Hc.
    + destruct (IH H) as (c' & Hin & Hc'). exists c'. split; [right; exact Hin | exact Hc'].
    + exists c. split; [left; reflexivity | exact Hc].
  - intros (c & Hin & Hc).
    destruct (forallb Str.isWhiteSpace (list_ascii_of_string s)) eqn:E; [ | reflexivity].
    rewrite forallb_forall in E. rewrite (E c Hin) in Hc. discriminate.
Qed.

Lemma notNonEmptyString_false s :
  Validation.notNonEmptyString (VString s) = false <-> MoreSpec.nonBlank s.
Proof. cbn [Validation.notNonEmptyString]. rewrite trim_empty. apply nonBlank_iff. Qed.

Lemma isNaN_false n : Num.isNaN n = false <-> n <> NaN.
Proof. destruct n; cbn [Num.isNaN]; split; congruence. Qed.

(** [validateFileItem] on a typed record, check by check. *)
Lemma validFile_checks f :
  Spec.validFile f
  = negb (Validation.notNonEmptyString (VString (FileItem.id f)))
    && negb (Validation.notNonEmptyString (VString (FileItem.name f)))
    && negb (Validation.notNonNegativeNumber (VNumber (FileItem.size f)))
    && negb (Validation.notNonEmptyString (VString (FileItem.type f)))
    && negb (Num.isNaN (getTime (FileItem.lastModified f)))
    && negb (Validation.notNonEmptyString (VString (FileItem.path f))).
Proof.
  destruct f as [i n s ty [tm] p]. unfold Spec.validFile, Validation.validateFileItem.
  change (Validation.notAnObject (Encode.file (FileItem.mk i n s ty (mkDate tm) p)))
    with false.
  cbv iota zeta.
  change (Js.get (Encode.file (FileItem.mk i n s ty (mkDate tm) p)) "id") with (VString i).
  change (Js.get (Encode.file (FileItem.mk i n s ty (mkDate tm) p)) "name") with (VString n).
  change (Js.get (Encode.file (FileItem.mk i n s ty (mkDate tm) p)) "size") with (VNumber s).
  change (Js.get (Encode.file (FileItem.mk i n s ty (mkDate tm) p)) "type") with (VString ty).
  change (Js.get (Encode.file (FileItem.mk i n s ty (mkDate tm) p)) "lastModified")
    with (VDate tm).
  change (Js.get (Encode.file (FileItem.mk i n s ty (mkDate tm) p)) "path") with (VString p).
  cbn [FileItem.id FileItem.name FileItem.size FileItem.type FileItem.lastModified
       FileItem.path getTime Validation.notValidDate].
  destruct (Validation.notNonEmptyString (VString i)); [reflexivity | ].
  destruct (Validation.notNonEmptyString (VString n)); [reflexivity | ].
  destruct (Validation.notNonNegativeNumber (VNumber s)); [reflexivity | ].
  destruct (Validation.notNonEmptyString (VString ty)); [reflexivity | ].
  destruct (Num.isNaN tm); [reflexivity | ].
  destruct (Validation.notNonEmptyString (VString p)); reflexivity.
Qed.

(** X8.  [validateFileItem] accepts a file record exactly when its id,
    name, type and path each hold a character that is not white space,
    its size is a finite number that is not negative, and its
    modification date is a valid date. *)
Theorem validateFileItem_accepts_well_formed_records :
  forall f : FileItem.t,
    Validation.validateFileItem (Encode.file f) = true <-> MoreSpec.wellFormedFile f.
Proof.
  intros f. fold (Spec.validFile f). rewrite validFile_checks.
  rewrite !andb_true_iff, !negb_true_iff, !notNonEmptyString_false, isNaN_false.
  cbn [Validation.notNonNegativeNumber]. rewrite NumFacts.nonNegative_iff.
  unfold MoreSpec.wellFormedFile. tauto.
Qed.

(** What [validateFileItem] grants of a value it accepts. *)
Lemma validateFileItem_view :
  forall v : value,
    Validation.validateFileItem v = true ->
    let f := Cast.asFileItem v in
    (exists props, v = VObject props) /\
    Js.get v "id" = VString (FileItem.id f) /\
    Js.get v "name" = VString (FileItem.name f) /\
    Js.get v "size" = VNumber (FileItem.size f) /\
    Js.get v "type" = VString (FileItem.type f) /\
    Js.get v "lastModified" = Encode.date (FileItem.lastModified f) /\
    Js.get v "path" = VString (FileItem.path f) /\
    Validation.validateFileItem (Encode.file f) = true.
Proof.
  intros v H f.
  assert (Hobj : exists props, v = VObject props).
  { destruct v; try discriminate H; try (eexists; reflexivity);
      unfold Validation.validateFileItem, Validation.notAnObject in H;
      cbn [Js.typeof Js.typeName_eqb negb] in H; rewrite ?orb_true_r in H;
      cbn in H; discriminate H. }
  split; [exact Hobj | ]. destruct Hobj as (props & ->).
  unfold Validation.validateFileItem in H.
  change (Validation.notAnObject (VObject props)) with false in H. cbv iota zeta in H.
  subst f. unfold Cast.asFileItem.
  destruct (Js.get (VObject props) "id") as [ | | | | i | | | | ] eqn:Ei;
    try discriminate H.
  destruct (Validation.notNonEmptyString (VString i)) eqn:Ci; [discriminate H | ].
  destruct (Js.get (VObject props) "name") as [ | | | | n | | | | ] eqn:En;
    try discriminate H.
  destruct (Validation.notNonEmptyString (VString n)) eqn:Cn; [discriminate H | ].
  destruct (Js.get (VObject props) "size") as [ | | | s | | | | | ] eqn:Es;
    try discriminate H.
  destruct (Validation.notNonNegativeNumber (VNumber s)) eqn:Cs; [discriminate H | ].
  destruct (Js.get (VObject props) "type") as [ | | | | ty | | | | ] eqn:Ety;
    try discriminate H.
  destruct (Validation.notNonEmptyString (VString ty)) eqn:Cty; [discriminate H | ].
  destruct (Js.get (VObject props) "lastModified") as [ | | | | | | tm | | ] eqn:Etm;
    try discriminate H.
  cbn [Validation.notValidDate] in H.
  destruct (Num.isNaN tm) eqn:Ctm; [discriminate H | ].
  destruct (Js.get (VObject props) "path") as [ | | | | p | | | | ] eqn:Ep;
    try discriminate H.
  destruct (Validation.notNonEmptyString (VString p)) eqn:Cp; [discriminate H | ].
  cbn [Cast.asString Cast.asNumber Cast.asDate FileItem.id FileItem.name FileItem.size
       FileItem.type FileItem.lastModified FileItem.path Encode.date getTime].
  repeat split.
  fold (Spec.validFile (FileItem.mk i n s ty (mkDate tm) p)). rewrite validFile_checks.
  cbn [FileItem.id FileItem.name FileItem.size FileItem.type FileItem.lastModified
       FileItem.path getTime].
  rewrite Ci, Cn, Cs, Cty, Ctm, Cp. reflexivity.
Qed.

(** X9.  [validateFileItem] is a sound type guard: a value it accepts is
    an object whose six properties hold values of the declared types,
    namely the fields of its view as a file record, and that record is
    accepted in its turn.  Values that are not objects are refused. *)
Theorem validateFileItem_guards_the_type :
  forall v : value,
    Validation.validateFileItem v = true ->
    let f := Cast.asFileItem v in
    (exists props, v = VObject props) /\
    Js.get v "id" = VString (FileItem.id f) /\
    Js.get v "name" = VString (FileItem.name f) /\
    Js.get v "size" = VNumber (FileItem.size f) /\
    Js.get v "type" = VString (FileItem.type f) /\
    Js.get v "lastModified" = Encode.date (FileItem.lastModified f) /\
    Js.get v "path" = VString (FileItem.path f) /\
    Validation.validateFileItem (Encode.file f) = true.
Proof. exact validateFileItem_view. Qed.

Lemma validateFileItem_guard_witness :
  Validation.validateFileItem (Encode.file Examples.fileA) = true /\
  Js.get (Encode.file Examples.fileA) "name"
  = VString (FileItem.name (Cast.asFileItem (Encode.file Examples.fileA))).
Proof.
  split; [reflexivity | ].
  apply (validateFileItem_guards_the_type (Encode.file Examples.fileA) eq_refl).
Defined.

Lemma entryErrors_nil byType :
  Validation.entryErrors byType = [] ->
  Forall (fun kv => exists q, snd kv = VNumber (Fin q) /\ 0 <= q) (Js.entries byType).
Proof.
  unfold Validation.entryErrors. induction (Js.entries byType) as [ | [k x] l IH];
    cbn [flat_map fst snd]; intros H; [constructor | ].
  apply app_eq_nil in H. destruct H as (Hx & Hl).
  constructor; [ | apply IH, Hl]. cbn [snd].
  destruct (Validation.notNonNegativeNumber x) eqn:E; [discriminate Hx | ].
  destruct x; try discriminate E. cbn [Validation.notNonNegativeNumber] in E.
  apply NumFacts.nonNegative_iff in E. destruct E as (q & -> & Hq).
  exists q. split; [reflexivity | exact Hq].
Qed.

Lemma storageByTypeSum_asRecord byType :
  Forall (fun kv => exists q, snd kv = VNumber (Fin q) /\ 0 <= q) (Js.entries byType) ->
  Validation.storageByTypeSum byType = StorageStore.sumValues (Cast.asRecord byType) /\
  Forall (fun kv => Spec.nonNegative (snd kv)) (Cast.asRecord byType).
Proof.
  unfold Validation.storageByTypeSum, StorageStore.sumValues, Cast.asRecord, Js.values.
  generalize (Js.entries byType). intros l Hl. split.
  - enough (G : forall a,
               fold_left (fun sum val =>
                            Num.add sum (match val with VNumber n => n | _ => Fin 0 end))
                         (map snd l) a
               = fold_left Num.add
                           (map snd (map (fun kv => (fst kv, Cast.asNumber (snd kv))) l)) a)
      by apply G.
    induction Hl as [ | [k x] l (q & Hx & _) _ IH]; intros a; [reflexivity | ].
    cbn [snd] in Hx. subst x. cbn [map fold_left fst snd Cast.asNumber]. apply IH.
  - induction Hl as [ | [k x] l (q & Hx & Hq) _ IH]; [constructor | ].
    cbn [snd] in Hx. subst x. cbn [map fst snd Cast.asNumber]. constructor; [ | exact IH].
    exists q. split; [reflexivity | exact Hq].
Qed.

(** What validation returns as valid is a snapshot that passes every
    check and holds valid file records only. *)
Lemma validation_output_accepted data d msgs :
  Validation.validateStorageData data = Validation.mkResult true (Some d) msgs ->
  Spec.accepted d.
Proof.
  intros H.
  assert (Hobj : Validation.notAnObject data = false).
  { destruct (Validation.notAnObject data) eqn:E; [ | reflexivity].
    unfold Validation.validateStorageData in H. rewrite E in H. discriminate H. }
  destruct (validateStorageData_object data Hobj) as [(_ & Hr) | (Hnil & Hr)];
    rewrite Hr in H; [discriminate H | ].
  injection H as <- _. split.
  - unfold Validation.criticalErrors in Hnil. cbv zeta in Hnil.
    set (total := Js.get data "totalStorage") in *.
    set (used := Js.get data "usedStorage") in *.
    set (byType := Js.get data "storageByType") in *.
    apply ValidationFacts.push_nil in Hnil. destruct Hnil as (Hnil & Hdate).
    destruct (Js.truthy byType && Js.typeName_eqb (Js.typeof byType) TObject) eqn:Eobj.
    + apply ValidationFacts.push_nil in Hnil. destruct Hnil as (Hnil & Hsum).
      apply app_eq_nil in Hnil. destruct Hnil as (Hnil & Hentries).
      apply ValidationFacts.push_nil in Hnil. destruct Hnil as (Hnil & _).
      apply ValidationFacts.push_nil in Hnil. destruct Hnil as (Hnil & _).
      apply ValidationFacts.push_nil in Hnil. destruct Hnil as (Hnil & Hexceeds).
      apply ValidationFacts.push_nil in Hnil. destruct Hnil as (Hnil & Hused).
      apply ValidationFacts.push_nil in Hnil. destruct Hnil as (_ & Htotal).
      destruct total as [ | | | nt | | | | | ] eqn:Et; try discriminate Htotal.
      destruct used as [ | | | nu | | | | | ] eqn:Eu; try discriminate Hused.
      cbn [Validation.notPositiveNumber] in Htotal.
      cbn [Validation.notNonNegativeNumber] in Hused.
      apply NumFacts.positive_iff in Htotal. destruct Htotal as (t & -> & Htp).
      apply NumFacts.nonNegative_iff in Hused. destruct Hused as (u & -> & Hup).
      cbn [Validation.bothNumbersAnd] in Hexceeds.
      apply NumFacts.gt_Fin_false in Hexceeds.
      destruct (storageByTypeSum_asRecord byType (entryErrors_nil byType Hentries))
        as (Hsumeq & Hnonneg).
      destruct (NumFacts.fold_add_nonNegative (map snd (Cast.asRecord byType)))
        with (a := 0) as [Hs | (sum & Hs & _)].
      { apply Forall_map. exact Hnonneg. }
      { apply Qle_refl. }
      { fold (StorageStore.sumValues (Cast.asRecord byType)) in Hs.
        rewrite Hsumeq, Hs in Hsum. discriminate Hsum. }
      fold (StorageStore.sumValues (Cast.asRecord byType)) in Hs.
      rewrite Hsumeq, Hs in Hsum. apply NumFacts.gt_Fin_false in Hsum.
      destruct (Js.get data "lastUpdated") as [ | | | | | | tm | | ] eqn:Elu;
        try discriminate Hdate.
      cbn [Validation.notValidDate] in Hdate.
      apply ValidationFacts.criticalErrors_nil. exists t, u, sum.
      unfold CheckSpec.normalized. fold total used byType. rewrite Et, Eu, Elu.
      cbn [StorageData.totalStorage StorageData.usedStorage StorageData.storageByType
           StorageData.lastUpdated Cast.asNumber Cast.asDate getTime].
      repeat split; assumption.
    + exfalso. apply ValidationFacts.push_nil in Hnil. destruct Hnil as (_ & Hshape).
      apply orb_false_iff in Hshape. destruct Hshape as (Hshape & _).
      apply orb_false_iff in Hshape. destruct Hshape as (H1 & H2).
      apply negb_false_iff in H1. apply negb_false_iff in H2.
      rewrite H1, H2 in Eobj. discriminate Eobj.
  - cbn [CheckSpec.normalized StorageData.files].
    apply forallb_forall. intros f Hf. apply in_map_iff in Hf.
    destruct Hf as (v & <- & Hv). apply filter_In in Hv. destruct Hv as (_ & Hv).
    apply (validateFileItem_view v Hv).
Qed.

(** An accepted snapshot validates to itself, without a message. *)
Lemma validate_accepted d :
  Spec.accepted d ->
  Validation.validateStorageData (Encode.storage d) = Validation.mkResult true (Some d) [].
Proof.
  intros (E & Hfiles).
  destruct (validateStorageData_object (Encode.storage d) eq_refl)
    as [(Hne & _) | (_ & Hr)]; [contradiction | ].
  rewrite Hr. clear Hr.
  change (Cast.asArray (Js.get (Encode.storage d) "files"))
    with (map Encode.file (StorageData.files d)).
  assert (Hcount : CheckSpec.invalidCount (map Encode.file (StorageData.files d)) = 0%nat).
  { unfold CheckSpec.invalidCount. rewrite <- filter_length_split.
    pose proof (ValidationFacts.valid_files_of_encoded (StorageData.files d)) as Hv.
    apply (f_equal (@List.length _)) in Hv. rewrite length_map in Hv. rewrite Hv.
    rewrite (StoreFacts.filter_all _ _ Hfiles), length_map. lia. }
  rewrite Hcount. cbn [Nat.ltb Nat.leb]. f_equal. f_equal.
  unfold CheckSpec.normalized. rewrite ValidationFacts.valid_files_of_encoded.
  rewrite (StoreFacts.filter_all _ _ Hfiles).
  destruct d as [t u l m lu].
  change (Js.get (Encode.storage (StorageData.mk t u l m lu)) "totalStorage")
    with (VNumber t).
  change (Js.get (Encode.storage (StorageData.mk t u l m lu)) "usedStorage")
    with (VNumber u).
  change (Js.get (Encode.storage (StorageData.mk t u l m lu)) "storageByType")
    with (Encode.record m).
  change (Js.get (Encode.storage (StorageData.mk t u l m lu)) "lastUpdated")
    with (Encode.date lu).
  rewrite ValidationFacts.asRecord_record, ValidationFacts.asDate_date. reflexivity.
Qed.

(** X10.  Validation is a normalisation: the snapshot that
    [validateStorageData] returns for a valid candidate, validated in its
    turn, comes back as it is, valid and without any message. *)
Theorem validated_snapshot_validates_to_itself :
  forall (data : value) (d : StorageData.t) (msgs : list string),
    Validation.validateStorageData data = Validation.mkResult true (Some d) msgs ->
    Validation.validateStorageData (Encode.storage d)
    = Validation.mkResult true (Some d) [].
Proof.
  intros data d msgs H. apply validate_accepted.
  apply (validation_output_accepted data d msgs H).
Qed.

Lemma validated_snapshot_witness :
  Validation.validateStorageData
    (Encode.storage
       (StorageData.mk (Num.of_Z 1000) (Num.of_Z 500)
                       [Examples.fileA; Examples.fileC] [] (Date_now 1)))
  = Validation.mkResult
      true
      (Some (StorageData.mk (Num.of_Z 1000) (Num.of_Z 500)
                            [Examples.fileA; Examples.fileC] [] (Date_now 1)))
      [].
Proof.
  apply (validated_snapshot_validates_to_itself
           Examples.oneOfThreeInvalid _ ["Filtered out 1 invalid file item(s)"]).
  reflexivity.
Defined.

Lemma nonNegativeInteger_iff q :
  Num.lt (Fin q) (Fin 0) || negb (Num.isInteger (Fin q)) = false <->
  exists z : Z, (0 <= z)%Z /\ q == inject_Z z.
Proof.
  rewrite orb_false_iff, negb_false_iff, NumFacts.lt_Fin_false.
  cbn [Num.isInteger]. rewrite Qeq_bool_iff. split.
  - intros (Hq & Hint). exists (Qfloor q). split; [ | symmetry; exact Hint].
    change 0%Z with (Qfloor 0). apply Qfloor_resp_le. exact Hq.
  - intros (z & Hz & Hq). split.
    + rewrite Hq. change 0 with (inject_Z 0). rewrite <- Zle_Qle. exact Hz.
    + rewrite Hq at 2. rewrite Hq, Qfloor_Z. reflexivity.
Qed.

Lemma renderable_iff c :
  negb (Js.truthy c)
  || negb (Js.typeName_eqb (Js.typeof c) TFunction)
     && negb (Js.typeName_eqb (Js.typeof c) TObject) = false
  <-> MoreSpec.renderable c.
Proof.
  unfold MoreSpec.renderable.
  rewrite orb_false_iff, negb_false_iff, andb_false_iff, !negb_false_iff.
  rewrite !CheckFacts.typeName_eqb_eq. reflexivity.
Qed.

(** [validateTabDefinition] on a typed definition, check by check. *)
Lemma validateTabDefinition_checks t :
  Validation.validateTabDefinition (Encode.tab t)
  = negb (Validation.notNonEmptyString (VString (TabDefinition.id t)))
    && negb (Validation.notNonEmptyString (VString (TabDefinition.label t)))
    && negb (negb (Js.truthy (TabDefinition.component t))
             || negb (Js.typeName_eqb (Js.typeof (TabDefinition.component t)) TFunction)
                && negb (Js.typeName_eqb (Js.typeof (TabDefinition.component t)) TObject))
    && match TabDefinition.order t with
       | None => true
       | Some n => negb (Num.lt n (Fin 0) || negb (Num.isInteger n))
       end.
Proof.
  destruct t as [i l ic c o]. unfold Validation.validateTabDefinition.
  change (Validation.notAnObject (Encode.tab (TabDefinition.mk i l ic c o))) with false.
  cbv iota zeta.
  change (Js.get (Encode.tab (TabDefinition.mk i l ic c o)) "id") with (VString i).
  change (Js.get (Encode.tab (TabDefinition.mk i l ic c o)) "label") with (VString l).
  cbn [TabDefinition.id TabDefinition.label TabDefinition.component TabDefinition.order].
  destruct (Validation.notNonEmptyString (VString i)); [reflexivity | ].
  destruct (Validation.notNonEmptyString (VString l)); [reflexivity | ].
  cbn [negb andb].
  destruct ic as [s | ], o as [n | ];
    match goal with
    | |- context [Js.get ?v "icon"] =>
        let x := eval cbn in (Js.get v "icon") in change (Js.get v "icon") with x;
        change (Js.get v "component") with c;
        let y := eval cbn in (Js.get v "order") in change (Js.get v "order") with y
    end;
    cbv iota;
    destruct (negb (Js.truthy c)
              || negb (Js.typeName_eqb (Js.typeof c) TFunction)
                 && negb (Js.typeName_eqb (Js.typeof c) TObject)); reflexivity.
Qed.

(** X11.  [validateTabDefinition] accepts a tab definition exactly when
    its id and label each hold a character that is not white space, its
    component is an object or a function, and its order is missing or a
    non-negative integer. *)
Theorem validateTabDefinition_accepts_well_formed_tabs :
  forall t : TabDefinition.t,
    Validation.validateTabDefinition (Encode.tab t) = true <-> MoreSpec.wellFormedTab t.
Proof.
  intros t. rewrite validateTabDefinition_checks.
  rewrite !andb_true_iff, !negb_true_iff, !notNonEmptyString_false, renderable_iff.
  unfold MoreSpec.wellFormedTab.
  assert (Horder :
            match TabDefinition.order t with
            | None => true
            | Some n => negb (Num.lt n (Fin 0) || negb (Num.isInteger n))
            end = true
            <-> match TabDefinition.order t with
                | None => True
                | Some n => exists z : Z, (0 <= z)%Z /\ exists q, n = Fin q /\ q == inject_Z z
                end).
  { destruct (TabDefinition.order t) as [n | ]; [ | tauto].
    rewrite negb_true_iff. destruct n as [ | | | q];
      try (split; [discriminate | intros (z & _ & q & H & _); discriminate]).
    rewrite nonNegativeInteger_iff. split.
    - intros (z & Hz & Hq). exists z. split; [exact Hz | ]. exists q. split; [reflexivity | exact Hq].
    - intros (z & Hz & q' & [= <-] & Hq). exists z. split; assumption. }
  rewrite Horder. tauto.
Qed.


(** * Sorting by a numeric key *)

Module OrderFacts.

Lemma neg_sub_positive a b :
  Num.isNaN a = false -> Num.isNaN b = false ->
  Num.gt (Num.neg (Num.sub a b)) (Fin 0) = true <-> Num.compare a b = Some Lt.
Proof.
  destruct a as [ | | | p], b as [ | | | q]; try discriminate; intros _ _;
    try (split; [reflexivity | reflexivity]);
    try (split; discriminate).
  unfold Num.sub, Num.gt. cbn [Num.neg].
  pose proof (NumFacts.add_sign p (- q)) as Hsign.
  destruct (Num.add (Fin p) (Fin (- q))) as [ | | | r]; cbn [Num.compare] in Hsign;
    try discriminate Hsign; injection Hsign as Hsign; cbn [Num.neg Num.compare].
  - (* the difference overflows upwards *)
    symmetry in Hsign. apply (proj2 (Qgt_alt _ _)) in Hsign.
    split; [discriminate | ]. intros [= H]. apply (proj2 (Qlt_alt p q)) in H. lra.
  - symmetry in Hsign. apply (proj2 (Qlt_alt _ _)) in Hsign.
    split; [intros _ | reflexivity]. f_equal. apply (proj1 (Qlt_alt p q)). lra.
  - split; intros H.
    + f_equal. apply (proj1 (Qlt_alt p q)).
      destruct (- r ?= 0) eqn:E; try discriminate H.
      apply (proj2 (Qgt_alt _ _)) in E.
      assert (Hr : (r ?= 0) = Lt) by (apply (proj1 (Qlt_alt _ _)); lra).
      rewrite Hr in Hsign. symmetry in Hsign.
      apply (proj2 (Qlt_alt _ _)) in Hsign. lra.
    + injection H as H. apply (proj2 (Qlt_alt p q)) in H.
      assert (Hd : (p + - q ?= 0) = Lt) by (apply (proj1 (Qlt_alt _ _)); lra).
      rewrite Hd in Hsign. apply (proj2 (Qlt_alt _ _)) in Hsign.
      assert (E : (- r ?= 0) = Gt) by (apply (proj1 (Qgt_alt _ _)); lra).
      rewrite E. reflexivity.
Qed.

Lemma le_of_lt a b : Num.compare a b = Some Lt -> Num.le a b = true.
Proof. unfold Num.le. intros ->. reflexivity. Qed.

Lemma le_of_not_lt a b :
  Num.isNaN a = false -> Num.isNaN b = false ->
  Num.compare a b <> Some Lt -> Num.le b a = true.
Proof.
  destruct a as [ | | | p], b as [ | | | q]; try discriminate; intros _ _ H;
    try reflexivity; try (exfalso; apply H; reflexivity).
  apply NumFacts.le_Fin. apply Qnot_lt_le. intros Hlt. apply H.
  unfold Num.compare. f_equal. apply (proj1 (Qlt_alt p q)). exact Hlt.
Qed.

Lemma compare_refl a : Num.isNaN a = false -> Num.compare a a = Some Eq.
Proof.
  destruct a as [ | | | p]; try discriminate; intros _; try reflexivity.
  unfold Num.compare. f_equal. apply (proj1 (Qeq_alt p p)). reflexivity.
Qed.

Lemma equal_to_same a b k :
  Num.compare a k = Some Eq -> Num.compare b k = Some Eq -> Num.compare a b = Some Eq.
Proof.
  destruct a as [ | | | p], b as [ | | | q], k as [ | | | r];
    cbn [Num.compare]; try discriminate; try reflexivity.
  intros [= H1] [= H2]. f_equal.
  apply (proj2 (Qeq_alt p r)) in H1. apply (proj2 (Qeq_alt q r)) in H2.
  apply (proj1 (Qeq_alt p q)). rewrite H1, H2. reflexivity.
Qed.

Lemma le_antisym a b :
  Num.le a b = true -> Num.le b a = true -> Num.compare b a = Some Eq.
Proof.
  destruct a as [ | | | p], b as [ | | | q]; try discriminate; try reflexivity.
  rewrite !NumFacts.le_Fin. intros H1 H2. unfold Num.compare. f_equal.
  apply (proj1 (Qeq_alt q p)). lra.
Qed.

Section KeySort.

Context {A : Type}.
Variable key : A -> number.
Variable desc : bool.

Let comparefn := MoreSpec.keyCompare key desc.
Let ok := MoreSpec.comparableKey key.
Let le := MoreSpec.inOrder key desc.
Let same := MoreSpec.sameKey key.

Lemma after_spec x y :
  ok x -> ok y ->
  ArraySort.after comparefn x y = true <->
  Num.compare (key x) (key y) = Some (if desc then Lt else Gt).
Proof.
  intros Hx Hy. unfold ArraySort.after, comparefn, MoreSpec.keyCompare.
  destruct desc.
  - apply neg_sub_positive; assumption.
  - apply NumFacts.sub_positive; assumption.
Qed.

Lemma after_inOrder x y :
  ok x -> ok y -> ArraySort.after comparefn x y = true -> le y x.
Proof.
  intros Hx Hy H. apply (after_spec x y Hx Hy) in H.
  unfold le, MoreSpec.inOrder. destruct desc.
  - apply le_of_lt. exact H.
  - apply NumFacts.le_of_gt. exact H.
Qed.

Lemma not_after_inOrder x y :
  ok x -> ok y -> ArraySort.after comparefn x y = false -> le x y.
Proof.
  intros Hx Hy H.
  assert (Hn : Num.compare (key x) (key y) <> Some (if desc then Lt else Gt)).
  { intros Hc. apply (after_spec x y Hx Hy) in Hc. congruence. }
  unfold le, MoreSpec.inOrder. destruct desc.
  - apply le_of_not_lt; assumption.
  - apply NumFacts.le_of_not_gt; assumption.
Qed.

Lemma inOrder_trans x y z : le x y -> le y z -> le x z.
Proof.
  unfold le, MoreSpec.inOrder. destruct desc; intros H1 H2.
  - apply (NumFacts.le_trans _ _ _ H2 H1).
  - apply (NumFacts.le_trans _ _ _ H1 H2).
Qed.

Lemma after_not_same x y k :
  ok x -> ok y -> ArraySort.after comparefn x y = true ->
  same k x = true -> same k y = true -> False.
Proof.
  intros Hx Hy H Sx Sy. apply (after_spec x y Hx Hy) in H.
  unfold same, MoreSpec.sameKey in Sx, Sy.
  assert (Ex : Num.compare (key x) k = Some Eq)
    by (destruct (Num.compare (key x) k) as [[ | | ] | ]; try discriminate; reflexivity).
  assert (Ey : Num.compare (key y) k = Some Eq)
    by (destruct (Num.compare (key y) k) as [[ | | ] | ]; try discriminate; reflexivity).
  rewrite (equal_to_same _ _ _ Ex Ey) in H. destruct desc; discriminate H.
Qed.

Lemma same_own_key x : ok x -> same (key x) x = true.
Proof.
  intros Hx. unfold same, MoreSpec.sameKey. rewrite (compare_refl _ Hx). reflexivity.
Qed.

Lemma same_of_both x y : le x y -> le y x -> same (key x) y = true.
Proof.
  unfold le, MoreSpec.inOrder, same, MoreSpec.sameKey. destruct desc; intros H1 H2.
  - rewrite (le_antisym _ _ H2 H1). reflexivity.
  - rewrite (le_antisym _ _ H1 H2). reflexivity.
Qed.

Lemma insert_keeps_order x l :
  ok x -> Forall ok l -> StronglySorted le l ->
  StronglySorted le (ArraySort.insert comparefn x l).
Proof.
  intros Hx Hok Hs. induction Hs as [ | y l Hs IH Hy]; cbn [ArraySort.insert].
  - constructor; constructor.
  - inversion Hok as [ | ? ? Hoy Hok' ]; subst.
    destruct (ArraySort.after comparefn x y) eqn:E.
    + constructor.
      * apply IH. exact Hok'.
      * apply SortFacts.insert_Forall; [ | exact Hy].
        apply after_inOrder; assumption.
    + pose proof (not_after_inOrder x y Hx Hoy E) as Hxy. constructor.
      * constructor; assumption.
      * constructor; [exact Hxy | ].
        eapply Forall_impl; [ | exact Hy]. intros z Hz.
        apply (inOrder_trans _ _ _ Hxy Hz).
Qed.

Lemma sort_in_order l :
  Forall ok l -> StronglySorted le (ArraySort.sort comparefn l).
Proof.
  induction 1 as [ | x l Hx Hl IH]; cbn [ArraySort.sort].
  - constructor.
  - apply insert_keeps_order; [exact Hx | | exact IH].
    apply SortFacts.sort_Forall. exact Hl.
Qed.

Lemma insert_keeps_ties k x l :
  ok x -> Forall ok l ->
  filter (same k) (ArraySort.insert comparefn x l) = filter (same k) (x :: l).
Proof.
  intros Hx Hl. induction Hl as [ | y l Hy _ IH]; cbn [ArraySort.insert]; [reflexivity | ].
  destruct (ArraySort.after comparefn x y) eqn:E; [ | reflexivity].
  cbn [filter] in *. rewrite IH.
  destruct (same k x) eqn:Ex; [ | reflexivity].
  destruct (same k y) eqn:Ey; [ | reflexivity].
  exfalso. apply (after_not_same x y k Hx Hy E Ex Ey).
Qed.

Lemma sort_keeps_ties k l :
  Forall ok l ->
  filter (same k) (ArraySort.sort comparefn l) = filter (same k) l.
Proof.
  induction 1 as [ | x l Hx Hl IH]; [reflexivity | ].
  cbn [ArraySort.sort]. rewrite insert_keeps_ties.
  - cbn [filter]. rewrite IH. reflexivity.
  - exact Hx.
  - apply SortFacts.sort_Forall. exact Hl.
Qed.

(** Two lists in order that agree on the elements of each key, in their
    order, are the same list. *)
Lemma in_order_unique l1 :
  forall l2,
    Forall ok l1 -> Forall ok l2 ->
    StronglySorted le l1 -> StronglySorted le l2 ->
    (forall k, filter (same k) l1 = filter (same k) l2) ->
    l1 = l2.
Proof.
  induction l1 as [ | a l1 IH]; intros l2 Ok1 Ok2 S1 S2 Heq.
  - destruct l2 as [ | b l2]; [reflexivity | ].
    inversion Ok2 as [ | ? ? Hb _]; subst.
    specialize (Heq (key b)). cbn [filter] in Heq.
    rewrite (same_own_key b Hb) in Heq. discriminate Heq.
  - destruct l2 as [ | b l2].
    + inversion Ok1 as [ | ? ? Ha _]; subst.
      specialize (Heq (key a)). cbn [filter] in Heq.
      rewrite (same_own_key a Ha) in Heq. discriminate Heq.
    + inversion Ok1 as [ | ? ? Ha Ok1']; subst.
      inversion Ok2 as [ | ? ? Hb Ok2']; subst.
      inversion S1 as [ | ? ? S1' Fa]; subst.
      inversion S2 as [ | ? ? S2' Fb]; subst.
      assert (Hab : a = b).
      { assert (Ina : In a (b :: l2)).
        { assert (H : In a (filter (same (key a)) (b :: l2))).
          { rewrite <- Heq. cbn [filter]. rewrite (same_own_key a Ha). left. reflexivity. }
          apply filter_In in H. apply H. }
        assert (Inb : In b (a :: l1)).
        { assert (H : In b (filter (same (key b)) (a :: l1))).
          { rewrite Heq. cbn [filter]. rewrite (same_own_key b Hb). left. reflexivity. }
          apply filter_In in H. apply H. }
        destruct Ina as [-> | Ina]; [reflexivity | ].
        destruct Inb as [-> | Inb]; [reflexivity | ].
        rewrite Forall_forall in Fa, Fb.
        pose proof (same_of_both a b (Fa b Inb) (Fb a Ina)) as Hsame.
        specialize (Heq (key a)). cbn [filter] in Heq.
        rewrite (same_own_key a Ha), Hsame in Heq. congruence. }
      subst b. f_equal. apply IH; try assumption.
      intros k. specialize (Heq k). cbn [filter] in Heq.
      destruct (same k a); [congruence | exact Heq].
Qed.

(** A list in order is left as it is by the sort. *)
Lemma sort_fixes_in_order l :
  Forall ok l -> StronglySorted le l -> ArraySort.sort comparefn l = l.
Proof.
  intros Hok Hs. apply in_order_unique.
  - apply SortFacts.sort_Forall. exact Hok.
  - exact Hok.
  - apply sort_in_order. exact Hok.
  - exact Hs.
  - intros k. apply sort_keeps_ties. exact Hok.
Qed.

End KeySort.

End OrderFacts.


(** * Further properties of the tab registry *)

Lemma sortTabs_fixes_sorted tabs :
  Forall TabSpec.comparable tabs -> StronglySorted TabSpec.orderLe tabs ->
  TabRegistry.sortTabs tabs = tabs.
Proof.
  intros Hok Hs. rewrite TabFacts.sortTabs_eq.
  apply (OrderFacts.sort_fixes_in_order TabRegistry.orderOrDefault false tabs Hok Hs).
Qed.

Lemma comparable_arrival ops :
  Forall TabSpec.comparableEntries ops ->
  forall arrived, Forall TabSpec.comparable arrived ->
                  Forall TabSpec.comparable (fold_left TabSpec.arrive ops arrived).
Proof.
  induction 1 as [ | op ops Hop _ IH]; intros arrived Ha; [exact Ha | ].
  cbn [fold_left]. apply IH. destruct op as [tabDef | tabs]; cbn [TabSpec.arrive].
  - destruct (TabRegistry.someWithId (TabDefinition.id tabDef) arrived); [exact Ha | ].
    apply Forall_app. split; [exact Ha | ]. constructor; [exact Hop | constructor].
  - exact Hop.
Qed.

(** X12.  The registry is the stable sort of what has arrived: after any
    [registerTab] and [set] calls on entries whose order is missing or a
    number other than [NaN], the collection is [sortTabs] applied once to
    the entries in their order of arrival, however often it has been
    sorted on the way. *)
Theorem registry_is_sorted_arrival :
  forall ops : list TabRegistry.operation,
    Forall TabSpec.comparableEntries ops ->
    Writable.current (TabRegistry.run ops TabRegistry.tabRegistry)
    = TabRegistry.sortTabs (TabSpec.arrival ops).
Proof.
  intros ops Hops.
  assert (H0 : TabSpec.ordered (Writable.current TabRegistry.tabRegistry) []).
  { repeat split; constructor. }
  destruct (ordered_run ops Hops TabRegistry.tabRegistry [] H0) as (Hok & Hs & Hst & _).
  pose proof (comparable_arrival ops Hops [] (Forall_nil _)) as Harr.
  fold (TabSpec.arrival ops) in Harr, Hst.
  rewrite TabFacts.sortTabs_eq.
  apply (OrderFacts.in_order_unique TabRegistry.orderOrDefault false).
  - exact Hok.
  - apply SortFacts.sort_Forall. exact Harr.
  - exact Hs.
  - apply (OrderFacts.sort_in_order TabRegistry.orderOrDefault false). exact Harr.
  - intros k.
    transitivity (filter (TabSpec.hasOrder k) (TabSpec.arrival ops)); [exact (Hst k) | ].
    symmetry.
    exact (OrderFacts.sort_keeps_ties TabRegistry.orderOrDefault false k _ Harr).
Qed.

Lemma registry_arrival_witness :
  Writable.current
    (TabRegistry.run [ TabRegistry.RegisterTab Examples.tab3;
                       TabRegistry.SetTabs [Examples.tab2; Examples.firstTab];
                       TabRegistry.RegisterTab Examples.tab1 ]
                     TabRegistry.tabRegistry)
  = TabRegistry.sortTabs
      (TabSpec.arrival [ TabRegistry.RegisterTab Examples.tab3;
                         TabRegistry.SetTabs [Examples.tab2; Examples.firstTab];
                         TabRegistry.RegisterTab Examples.tab1 ]).
Proof.
  apply registry_is_sorted_arrival. repeat constructor.
Defined.

(** X13.  Sorting is idempotent on entries whose order is missing or a
    number other than [NaN]: [sortTabs] leaves a sorted collection as it
    is, so that giving [set] the collection read back from the registry
    stores that very collection. *)
Theorem set_of_read_back_is_identity :
  forall tabs : list TabDefinition.t,
    Forall TabSpec.comparable tabs ->
    TabRegistry.sortTabs (TabRegistry.sortTabs tabs) = TabRegistry.sortTabs tabs /\
    forall w,
      Writable.current w = TabRegistry.sortTabs tabs ->
      Writable.current (TabRegistry.set (Writable.current w) w) = Writable.current w.
Proof.
  intros tabs Hok.
  assert (Hidem : TabRegistry.sortTabs (TabRegistry.sortTabs tabs)
                  = TabRegistry.sortTabs tabs).
  { apply sortTabs_fixes_sorted.
    - rewrite TabFacts.sortTabs_eq. apply SortFacts.sort_Forall. exact Hok.
    - apply TabFacts.sortTabs_sorted. exact Hok. }
  split; [exact Hidem | ].
  intros w Hw. cbn [TabRegistry.set Writable.set Writable.current].
  rewrite Hw. exact Hidem.
Qed.

Lemma set_of_read_back_witness :
  TabRegistry.sortTabs
    (TabRegistry.sortTabs [Examples.tab3; Examples.firstTab; Examples.tab1])
  = TabRegistry.sortTabs [Examples.tab3; Examples.firstTab; Examples.tab1].
Proof.
  refine (proj1 (set_of_read_back_is_identity
                   [Examples.tab3; Examples.firstTab; Examples.tab1] _)).
  repeat constructor.
Defined.

Lemma filter_shorter {A} (p : A -> bool) l :
  (List.length (filter (fun x => negb (p x)) l) <? List.length l)%nat = existsb p l.
Proof.
  induction l as [ | x l IH]; [reflexivity | ].
  cbn [filter existsb List.length]. pose proof (filter_length_le (fun x => negb (p x)) l).
  destruct (p x); cbn [negb orb List.length].
  - apply Nat.ltb_lt. lia.
  - rewrite <- IH. destruct (Nat.ltb_spec (List.length (filter (fun y => negb (p y)) l))
                                          (List.length l));
      [apply Nat.ltb_lt | apply Nat.ltb_ge]; lia.
Qed.

Lemma existsb_filter_out {A} (p : A -> bool) l :
  existsb p (filter (fun x => negb (p x)) l) = false.
Proof.
  induction l as [ | x l IH]; [reflexivity | ].
  cbn [filter]. destruct (p x) eqn:E; cbn [negb]; [exact IH | ].
  cbn [existsb]. rewrite E, IH. reflexivity.
Qed.

Lemma filter_none_out {A} (p : A -> bool) l :
  existsb p l = false -> filter (fun x => negb (p x)) l = l.
Proof.
  induction l as [ | x l IH]; [reflexivity | ].
  cbn [existsb filter]. intros H. apply orb_false_iff in H. destruct H as (-> & Hl).
  cbn [negb]. rewrite (IH Hl). reflexivity.
Qed.

Lemma StronglySorted_filter {A} (R : A -> A -> Prop) (p : A -> bool) l :
  StronglySorted R l -> StronglySorted R (filter p l).
Proof.
  induction 1 as [ | x l Hs IH Hx]; cbn [filter]; [constructor | ].
  destruct (p x); [ | exact IH]. constructor; [exact IH | ].
  rewrite Forall_forall in Hx |- *. intros y Hy. apply filter_In in Hy. apply Hx, Hy.
Qed.

(** X14.  [unregisterTab(id)] returns [true] exactly when an entry of
    that id was registered; afterwards no entry has that id, the other
    entries are all there in their order, so that a sorted collection
    stays sorted; and with an id that is not registered the collection
    is left as it is. *)
Theorem unregisterTab_removes_the_id :
  forall (w : TabRegistry.registry) (tabId : string),
    let r := TabRegistry.unregisterTab tabId w in
    fst r = TabRegistry.hasTab tabId w /\
    TabRegistry.hasTab tabId (snd r) = false /\
    Writable.current (snd r)
    = filter (fun tab => negb (TabSpec.hasId tabId tab)) (Writable.current w) /\
    (StronglySorted TabSpec.orderLe (Writable.current w) ->
     StronglySorted TabSpec.orderLe (Writable.current (snd r))) /\
    (TabRegistry.hasTab tabId w = false -> Writable.current (snd r) = Writable.current w).
Proof.
  intros w tabId r. subst r. unfold TabRegistry.unregisterTab, TabRegistry.hasTab,
    TabRegistry.someWithId.
  cbn [fst snd Writable.set Writable.current].
  change (fun tab => String.eqb (TabDefinition.id tab) tabId) with (TabSpec.hasId tabId).
  split; [apply filter_shorter | ].
  split; [apply existsb_filter_out | ].
  split; [reflexivity | ].
  split; [apply StronglySorted_filter | apply filter_none_out].
Qed.

Lemma unregisterTab_witness :
  StronglySorted TabSpec.orderLe
    (Writable.current
       (snd (TabRegistry.unregisterTab "tab-1"
               (TabRegistry.run [ TabRegistry.RegisterTab Examples.tab3;
                                  TabRegistry.RegisterTab Examples.tab1 ]
                                TabRegistry.tabRegistry)))).
Proof.
  apply (proj1 (proj2 (proj2 (proj2 (unregisterTab_removes_the_id
    (TabRegistry.run [ TabRegistry.RegisterTab Examples.tab3;
                       TabRegistry.RegisterTab Examples.tab1 ]
                     TabRegistry.tabRegistry) "tab-1"))))).
  repeat constructor.
Defined.

Lemma filter_filter_comm {A} (p q : A -> bool) l :
  filter p (filter q l) = filter q (filter p l).
Proof.
  induction l as [ | x l IH]; [reflexivity | ].
  cbn [filter]. destruct (p x) eqn:Ep, (q x) eqn:Eq; cbn [filter];
    rewrite ?Ep, ?Eq, IH; reflexivity.
Qed.

(** X15.  Registering and unregistering undo each other: on a registry
    built by [registerTab] and [set] calls, with orders missing or
    numbers other than [NaN], registering an entry of a new id and
    unregistering that id gives back the collection as it was. *)
Theorem unregister_undoes_register :
  forall (ops : list TabRegistry.operation) (tabDef : TabDefinition.t),
    Forall TabSpec.comparableEntries ops ->
    TabSpec.comparable tabDef ->
    let w := TabRegistry.run ops TabRegistry.tabRegistry in
    TabRegistry.hasTab (TabDefinition.id tabDef) w = false ->
    Writable.current
      (snd (TabRegistry.unregisterTab (TabDefinition.id tabDef)
              (snd (TabRegistry.registerTab tabDef w))))
    = Writable.current w.
Proof.
  intros ops tabDef Hops Hdef w Hfresh.
  assert (H0 : TabSpec.ordered (Writable.current TabRegistry.tabRegistry) []).
  { repeat split; constructor. }
  destruct (ordered_run ops Hops TabRegistry.tabRegistry [] H0) as (Hok & Hs & _ & _).
  fold w in Hok, Hs.
  rewrite (registerTab_fresh tabDef w Hfresh).
  unfold TabRegistry.unregisterTab. cbn [fst snd Writable.set Writable.current].
  set (keep := fun tab => negb (String.eqb (TabDefinition.id tab) (TabDefinition.id tabDef))).
  set (new := (Writable.current w ++ [TabSpec.withDefaultOrder tabDef])%list).
  assert (Hnew : Forall TabSpec.comparable new).
  { apply Forall_app. split; [exact Hok | ]. constructor; [exact Hdef | constructor]. }
  assert (Hkeep : filter keep new = Writable.current w).
  { unfold new. rewrite filter_app. cbn [filter]. unfold keep at 2.
    cbn [TabSpec.withDefaultOrder TabDefinition.id]. rewrite String.eqb_refl.
    cbn [negb]. rewrite app_nil_r. apply filter_none_out. exact Hfresh. }
  apply (OrderFacts.in_order_unique TabRegistry.orderOrDefault false).
  - apply Forall_forall. intros x Hx. apply filter_In in Hx. destruct Hx as (Hx & _).
    rewrite TabFacts.sortTabs_eq in Hx. apply (proj1 (SortFacts.sort_In _ _ _)) in Hx.
    rewrite Forall_forall in Hnew. apply Hnew, Hx.
  - exact Hok.
  - apply StronglySorted_filter. apply TabFacts.sortTabs_sorted. exact Hnew.
  - exact Hs.
  - intros k. rewrite filter_filter_comm.
    change (MoreSpec.sameKey TabRegistry.orderOrDefault k) with (TabSpec.hasOrder k).
    rewrite (TabFacts.sortTabs_stable k new Hnew).
    rewrite filter_filter_comm, Hkeep. reflexivity.
Qed.

Lemma unregister_undoes_register_witness :
  Writable.current
    (snd (TabRegistry.unregisterTab "tab-2"
            (snd (TabRegistry.registerTab Examples.tab2
                    (TabRegistry.run [ TabRegistry.RegisterTab Examples.tab3;
                                       TabRegistry.RegisterTab Examples.tab1 ]
                                     TabRegistry.tabRegistry)))))
  = Writable.current
      (TabRegistry.run [ TabRegistry.RegisterTab Examples.tab3;
                         TabRegistry.RegisterTab Examples.tab1 ]
                       TabRegistry.tabRegistry).
Proof.
  apply (unregister_undoes_register
           [ TabRegistry.RegisterTab Examples.tab3; TabRegistry.RegisterTab Examples.tab1 ]
           Examples.tab2).
  - repeat constructor.
  - reflexivity.
  - reflexivity.
Defined.




Lemma insert_Permutation {A} (comparefn : A -> A -> number) x l :
  Permutation (ArraySort.insert comparefn x l) (x :: l).
Proof.
  induction l as [ | y l IH]; cbn [ArraySort.insert]; [apply Permutation_refl | ].
  destruct (ArraySort.after comparefn x y); [ | apply Permutation_refl].
  apply perm_trans with (y :: x :: l); [apply perm_skip, IH | apply perm_swap].
Qed.

(** The sort rearranges: nothing is lost and nothing is added. *)
Lemma sort_Permutation {A} (comparefn : A -> A -> number) l :
  Permutation (ArraySort.sort comparefn l) l.
Proof.
  induction l as [ | x l IH]; cbn [ArraySort.sort]; [apply perm_nil | ].
  apply perm_trans with (x :: ArraySort.sort comparefn l);
    [apply insert_Permutation | apply perm_skip, IH].
Qed.

Lemma NoDup_map_filter {A B} (f : A -> B) (p : A -> bool) l :
  NoDup (map f l) -> NoDup (map f (filter p l)).
Proof.
  induction l as [ | x l IH]; cbn [map filter]; [intros H; exact H | ].
  intros H. inversion H as [ | ? ? Hx Hl]; subst.
  destruct (p x); [ | apply IH, Hl]. cbn [map]. constructor; [ | apply IH, Hl].
  intros Hin. apply Hx. apply in_map_iff in Hin. destruct Hin as (y & Hy & Hin).
  apply in_map_iff. exists y. split; [exact Hy | ]. apply filter_In in Hin. apply Hin.
Qed.

Lemma someWithId_In tabId tabs :
  TabRegistry.someWithId tabId tabs = true <-> In tabId (TabCommands.ids tabs).
Proof.
  unfold TabRegistry.someWithId, TabCommands.ids. rewrite existsb_exists, in_map_iff.
  split; intros (x & H1 & H2).
  - exists x. split; [apply String.eqb_eq, H2 | exact H1].
  - exists x. split; [exact H2 | apply String.eqb_eq, H1].
Qed.

Lemma distinct_execute c w :
  TabCommands.distinctWhenSet c ->
  NoDup (TabCommands.ids (Writable.current w)) ->
  NoDup (TabCommands.ids (Writable.current (TabCommands.execute c w))).
Proof.
  intros Hc Hw. destruct c as [tabDef | tabId | | tabs]; cbn [TabCommands.execute].
  - unfold TabRegistry.registerTab, TabRegistry.registering.
    destruct (TabRegistry.someWithId (TabDefinition.id tabDef) (Writable.current w)) eqn:E;
      cbn [fst snd Writable.set Writable.current]; [exact Hw | ].
    unfold TabCommands.ids. rewrite TabFacts.sortTabs_eq.
    apply (Permutation_NoDup
             (Permutation_map TabDefinition.id
                (Permutation_sym (sort_Permutation TabSpec.comparefn _)))).
    rewrite map_app. cbn [map TabDefinition.id].
    apply NoDup_app; [exact Hw | constructor; [intros [] | constructor] | ].
    intros x Hx [<- | []].
    apply someWithId_In in Hx. congruence.
  - cbn [TabRegistry.unregisterTab snd Writable.set Writable.current].
    apply NoDup_map_filter. exact Hw.
  - constructor.
  - cbn [TabRegistry.set Writable.set Writable.current].
    unfold TabCommands.ids. rewrite TabFacts.sortTabs_eq.
    apply (Permutation_NoDup
             (Permutation_map TabDefinition.id
                (Permutation_sym (sort_Permutation TabSpec.comparefn _)))).
    exact Hc.
Qed.

(** X17.  The ids of the registry stay unique: after any sequence of
    [registerTab], [unregisterTab], [clear] and [set] calls in which
    every list given to [set] is free of repeated ids, no two entries of
    the collection share an id, whatever their orders. *)
Theorem registry_ids_are_unique :
  forall cs : list TabCommands.command,
    Forall TabCommands.distinctWhenSet cs ->
    NoDup (TabCommands.ids
             (Writable.current (TabCommands.runAll cs TabRegistry.tabRegistry))).
Proof.
  intros cs Hcs. unfold TabCommands.runAll.
  assert (G : forall w, NoDup (TabCommands.ids (Writable.current w)) ->
                        NoDup (TabCommands.ids
                                 (Writable.current
                                    (fold_left (fun w c => TabCommands.execute c w) cs w)))).
  { induction Hcs as [ | c cs Hc _ IH]; intros w Hw; [exact Hw | ].
    cbn [fold_left]. apply IH. apply distinct_execute; assumption. }
  apply G. constructor.
Qed.

Lemma registry_ids_witness :
  NoDup (TabCommands.ids
           (Writable.current
              (TabCommands.runAll
                 [ TabCommands.Register Examples.firstTab;
                   TabCommands.Register Examples.secondTab;
                   TabCommands.SetAll [Examples.tab3; Examples.tab1];
                   TabCommands.Register Examples.tab1;
                   TabCommands.Unregister "tab-3";
                   TabCommands.Register Examples.tab2 ]
                 TabRegistry.tabRegistry))).
Proof.
  apply registry_ids_are_unique.
  repeat constructor; cbn; intuition discriminate.
Defined.


(** * Further properties of [fetchStorageData] *)

(** Stamping an accepted snapshot with the time of the clock keeps it
    accepted. *)
Lemma accepted_stamped d now :
  Spec.accepted d -> Spec.accepted (StorageStore.withLastUpdated (Date_now now) d).
Proof.
  intros (E & Hf). split; [ | exact Hf].
  rewrite <- E. apply ValidationFacts.criticalErrors_frame; try reflexivity.
  symmetry. apply StoreFacts.accepted_date_valid. split; assumption.
Qed.

(** X18.  However the request ends, [fetchStorageData] leaves
    [isLoading] at [false] and the active tab and the theme as they
    were.  When it returns, the snapshot it returns passes validation,
    carries the time of the clock, is what the storage store now holds
    (one notification), and no error is shown: the [set] of the store
    cannot throw at that point.  When it throws, the storage store is
    exactly what it was and the error shown is the message of the error,
    or the fixed text for a thrown value that is not an [Error]. *)
Theorem fetchStorageData_settles_both_stores :
  forall (parseDate : value -> number) (nullReadMessage : string)
         (fetched : completion Fetch.Response) (now : Z) (s : Fetch.stores),
    let r := Fetch.fetchStorageData parseDate nullReadMessage fetched now s in
    let before := Writable.current (Fetch.ui s) in
    let after := Writable.current (Fetch.ui (snd r)) in
    UIState.isLoading after = false /\
    UIState.activeTabId after = UIState.activeTabId before /\
    UIState.theme after = UIState.theme before /\
    match fst r with
    | Normal d =>
        UIState.error after = None /\
        Fetch.storage (snd r) = Writable.set d (Fetch.storage s) /\
        Spec.accepted d /\
        StorageData.lastUpdated d = Date_now now
    | Throw e =>
        UIState.error after
        = Some match e with
               | Error message => message
               | NotAnError _ => "Failed to fetch storage data"
               end /\
        Fetch.storage (snd r) = Fetch.storage s
    end.
Proof.
  intros parseDate nullReadMessage fetched now s r before after.
  subst r before after. unfold Fetch.fetchStorageData, Fetch.attempt.
  destruct fetched as [response | e]; [ | cbn; repeat split].
  destruct (Fetch.ok response); cbn [negb]; [ | cbn; repeat split].
  destruct (Fetch.json response) as [rawData | e]; [ | cbn; repeat split].
  destruct (Fetch.dataWithDates parseDate nullReadMessage now rawData)
    as [withDates | e]; [ | cbn; repeat split].
  cbv zeta.
  destruct (Validation.validateStorageData withDates) as [valid data msgs] eqn:EV.
  cbn [Validation.isValid Validation.data Validation.errors].
  destruct valid; [ | cbn; repeat split].
  destruct data as [d | ]; [ | cbn; repeat split].
  pose proof (accepted_stamped d now (validation_output_accepted _ _ _ EV)) as Hacc.
  cbn [Fetch.storage].
  rewrite (customSet_accepted _ (Fetch.storage s) Hacc).
  cbn. repeat split; try apply Hacc.
Qed.


(** * Properties of [sortFiles] *)

Lemma typed_array fs :
  map Cast.asFileItem (Cast.asArray (FileUtils.array fs)) = fs.
Proof.
  unfold FileUtils.array. cbn [Cast.asArray]. rewrite map_map.
  rewrite <- (map_id fs) at 2. apply map_ext. exact ValidationFacts.asFileItem_file.
Qed.

Lemma validSortField_iff sortBy :
  existsb (String.eqb sortBy) FileUtils.validSortFields = true
  <-> In sortBy FileUtils.validSortFields.
Proof.
  rewrite existsb_exists. split.
  - intros (x & Hx & E). apply String.eqb_eq in E. subst x. exact Hx.
  - intros H. exists sortBy. split; [exact H | apply String.eqb_refl].
Qed.

Lemma validOrder_iff order :
  negb (String.eqb order "asc") && negb (String.eqb order "desc") = false
  <-> MoreSpec.validOrder order.
Proof.
  unfold MoreSpec.validOrder.
  destruct (String.eqb_spec order "asc") as [E1 | N1];
    destruct (String.eqb_spec order "desc") as [E2 | N2]; cbn [negb andb];
    split; try tauto; try discriminate; intros [H | H]; contradiction.
Qed.

(** With valid arguments [sortFiles] is the sort of the file records by
    its comparator. *)
Lemma sortFiles_valid localeCompare fs sortBy order :
  In sortBy FileUtils.validSortFields -> MoreSpec.validOrder order ->
  FileUtils.sortFiles localeCompare (FileUtils.array fs) sortBy order
  = Normal (ArraySort.sort (FileUtils.comparator localeCompare sortBy order) fs).
Proof.
  intros Hf Ho. unfold FileUtils.sortFiles.
  change (Js.isArray (FileUtils.array fs)) with true. cbn [negb].
  rewrite (proj2 (validSortField_iff sortBy) Hf). cbn [negb].
  rewrite (proj2 (validOrder_iff order) Ho). cbv zeta.
  rewrite typed_array. reflexivity.
Qed.

Lemma numericKey_valid sortBy key :
  MoreSpec.numericKey sortBy = Some key -> In sortBy FileUtils.validSortFields.
Proof.
  unfold MoreSpec.numericKey.
  destruct (String.eqb_spec sortBy "size") as [-> | _]; [intros _; cbn; tauto | ].
  destruct (String.eqb_spec sortBy "date") as [-> | _]; [intros _; cbn; tauto | ].
  discriminate.
Qed.

(** On the fields [size] and [date] the comparator is the difference
    of the keys, negated for [desc]. *)
Lemma comparator_numeric localeCompare sortBy order key :
  MoreSpec.numericKey sortBy = Some key ->
  FileUtils.comparator localeCompare sortBy order
  = MoreSpec.keyCompare key (String.eqb order "desc").
Proof.
  unfold MoreSpec.numericKey.
  destruct (String.eqb_spec sortBy "size") as [-> | _]; [intros [= <-]; reflexivity | ].
  destruct (String.eqb_spec sortBy "date") as [-> | _]; [intros [= <-]; reflexivity | ].
  discriminate.
Qed.

Lemma sortFiles_numeric localeCompare fs sortBy order key :
  MoreSpec.numericKey sortBy = Some key ->
  MoreSpec.validOrder order ->
  Forall (MoreSpec.comparableKey key) fs ->
  exists l,
    FileUtils.sortFiles localeCompare (FileUtils.array fs) sortBy order = Normal l /\
    StronglySorted (MoreSpec.inOrder key (String.eqb order "desc")) l /\
    (forall k, filter (MoreSpec.sameKey key k) l = filter (MoreSpec.sameKey key k) fs) /\
    FileUtils.sortFiles localeCompare (FileUtils.array l) sortBy order = Normal l.
Proof.
  intros Hk Ho Hfs.
  pose proof (numericKey_valid sortBy key Hk) as Hf.
  exists (ArraySort.sort (FileUtils.comparator localeCompare sortBy order) fs).
  rewrite !(sortFiles_valid localeCompare _ sortBy order Hf Ho).
  rewrite (comparator_numeric localeCompare sortBy order key Hk).
  set (desc := String.eqb order "desc").
  pose proof (OrderFacts.sort_in_order key desc fs Hfs) as Hsorted.
  split; [reflexivity | split; [exact Hsorted | split]].
  - intros k. apply OrderFacts.sort_keeps_ties. exact Hfs.
  - f_equal. apply OrderFacts.sort_fixes_in_order; [ | exact Hsorted].
    apply Forall_forall. intros x Hx.
    apply (proj1 (SortFacts.sort_In _ _ _)) in Hx.
    rewrite Forall_forall in Hfs. apply Hfs, Hx.
Qed.

(** X19.  [sortFiles] returns exactly when the field is one of [name],
    [size], [date], [type] and the order is [asc] or [desc]; what it
    returns then holds the same records as the array it was given, each
    as often, whatever [localeCompare] answers.  With any other field
    or order it throws. *)
Theorem sortFiles_returns_a_rearrangement :
  forall (localeCompare : string -> string -> number)
         (fs : list FileItem.t) (sortBy order : string),
    (In sortBy FileUtils.validSortFields /\ MoreSpec.validOrder order ->
     exists l,
       FileUtils.sortFiles localeCompare (FileUtils.array fs) sortBy order = Normal l /\
       Permutation fs l /\ List.length l = List.length fs) /\
    (~ (In sortBy FileUtils.validSortFields /\ MoreSpec.validOrder order) ->
     exists message,
       FileUtils.sortFiles localeCompare (FileUtils.array fs) sortBy order
       = Throw (Error message)).
Proof.
  intros localeCompare fs sortBy order. split.
  - intros (Hf & Ho). eexists. split; [apply (sortFiles_valid _ _ _ _ Hf Ho) | ].
    pose proof (sort_Permutation (FileUtils.comparator localeCompare sortBy order) fs) as P.
    split; [apply Permutation_sym, P | apply Permutation_length, P].
  - intros Hbad. unfold FileUtils.sortFiles.
    change (Js.isArray (FileUtils.array fs)) with true. cbn [negb].
    destruct (existsb (String.eqb sortBy) FileUtils.validSortFields) eqn:Ef; cbn [negb];
      [ | eexists; reflexivity].
    destruct (negb (String.eqb order "asc") && negb (String.eqb order "desc")) eqn:Eo;
      [eexists; reflexivity | ].
    exfalso. apply Hbad. split; [apply validSortField_iff, Ef | apply validOrder_iff, Eo].
Qed.

Lemma sortFiles_rearrangement_witness :
  exists l,
    FileUtils.sortFiles (fun _ _ => NaN)
      (FileUtils.array [Examples.fileB; Examples.fileA]) "name" "desc" = Normal l /\
    Permutation [Examples.fileB; Examples.fileA] l /\ List.length l = 2%nat.
Proof.
  apply (proj1 (sortFiles_returns_a_rearrangement
                  (fun _ _ => NaN) [Examples.fileB; Examples.fileA] "name" "desc")).
  split; [cbn; tauto | right; reflexivity].
Defined.

(** X20.  Sorting by [size] or by [date], when no key is [NaN]: the
    result is in the requested order, ascending for [asc] and descending
    for [desc]; records of equal key keep the order they had in the
    input, in both directions; and sorting the result again with the
    same arguments gives it back. *)
Theorem sortFiles_by_number_is_ordered_and_stable :
  forall (localeCompare : string -> string -> number)
         (fs : list FileItem.t) (sortBy order : string) (key : FileItem.t -> number),
    MoreSpec.numericKey sortBy = Some key ->
    MoreSpec.validOrder order ->
    Forall (MoreSpec.comparableKey key) fs ->
    exists l,
      FileUtils.sortFiles localeCompare (FileUtils.array fs) sortBy order = Normal l /\
      StronglySorted (MoreSpec.inOrder key (String.eqb order "desc")) l /\
      (forall k, filter (MoreSpec.sameKey key k) l = filter (MoreSpec.sameKey key k) fs) /\
      FileUtils.sortFiles localeCompare (FileUtils.array l) sortBy order = Normal l.
Proof. exact sortFiles_numeric. Qed.

Lemma sortFiles_by_number_witness :
  exists l,
    FileUtils.sortFiles (fun _ _ => NaN)
      (FileUtils.array [Examples.fileB; Examples.fileA; Examples.fileC]) "size" "desc"
    = Normal l /\
    StronglySorted (MoreSpec.inOrder MoreSpec.sizeKey true) l /\
    (forall k, filter (MoreSpec.sameKey MoreSpec.sizeKey k) l
               = filter (MoreSpec.sameKey MoreSpec.sizeKey k)
                        [Examples.fileB; Examples.fileA; Examples.fileC]) /\
    FileUtils.sortFiles (fun _ _ => NaN) (FileUtils.array l) "size" "desc" = Normal l.
Proof.
  apply (sortFiles_by_number_is_ordered_and_stable
           (fun _ _ => NaN) [Examples.fileB; Examples.fileA; Examples.fileC]
           "size" "desc" MoreSpec.sizeKey).
  - reflexivity.
  - right. reflexivity.
  - repeat constructor.
Defined.

Lemma validFile_keys f :
  Spec.validFile f = true ->
  MoreSpec.comparableKey MoreSpec.sizeKey f /\ MoreSpec.comparableKey MoreSpec.dateKey f.
Proof.
  intros H. rewrite validFile_checks in H.
  rewrite !andb_true_iff, !negb_true_iff in H.
  destruct H as (((((_ & _) & Hs) & _) & Hd) & _).
  cbn [Validation.notNonNegativeNumber] in Hs. apply NumFacts.nonNegative_iff in Hs.
  destruct Hs as (q & Hq & _).
  unfold MoreSpec.comparableKey, MoreSpec.sizeKey, MoreSpec.dateKey.
  rewrite Hq. split; [reflexivity | exact Hd].
Qed.

(** X21.  The file records that the storage store holds can always be
    sorted by [size] and by [date]: whatever calls the store has
    received, [sortFiles] on the files of its snapshot returns them in
    the requested order, records of equal key in the order of the
    store. *)
Theorem stored_files_sort_by_size_and_date :
  forall (loaded : Z) (calls : list (StorageStore.operation * Z))
         (localeCompare : string -> string -> number)
         (sortBy order : string) (key : FileItem.t -> number),
    MoreSpec.numericKey sortBy = Some key ->
    MoreSpec.validOrder order ->
    let fs := StorageData.files
                (Writable.current
                   (StorageStore.run loaded calls (StorageStore.storageStore loaded))) in
    exists l,
      FileUtils.sortFiles localeCompare (FileUtils.array fs) sortBy order = Normal l /\
      StronglySorted (MoreSpec.inOrder key (String.eqb order "desc")) l /\
      (forall k, filter (MoreSpec.sameKey key k) l = filter (MoreSpec.sameKey key k) fs).
Proof.
  intros loaded calls localeCompare sortBy order key Hk Ho fs.
  destruct (StoreFacts.sound_reachable loaded calls) as ((_ & Hfiles) & _).
  fold fs in Hfiles. rewrite forallb_forall in Hfiles.
  assert (Hfs : Forall (MoreSpec.comparableKey key) fs).
  { apply Forall_forall. intros f Hf. destruct (validFile_keys f (Hfiles f Hf)) as (H1 & H2).
    revert Hk. unfold MoreSpec.numericKey.
    destruct (String.eqb sortBy "size"); [intros [= <-]; exact H1 | ].
    destruct (String.eqb sortBy "date"); [intros [= <-]; exact H2 | discriminate]. }
  destruct (sortFiles_numeric localeCompare fs sortBy order key Hk Ho Hfs)
    as (l & H1 & H2 & H3 & _).
  exists l. repeat split; assumption.
Qed.

Lemma stored_files_sort_witness :
  let fs := StorageData.files
              (Writable.current
                 (StorageStore.run 0
                    [ (StorageStore.AddFile Examples.fileB, 1%Z);
                      (StorageStore.AddFile Examples.fileA, 2%Z) ]
                    (StorageStore.storageStore 0))) in
  exists l,
    FileUtils.sortFiles (fun _ _ => NaN) (FileUtils.array fs) "date" "asc" = Normal l /\
    StronglySorted (MoreSpec.inOrder MoreSpec.dateKey false) l /\
    (forall k, filter (MoreSpec.sameKey MoreSpec.dateKey k) l
               = filter (MoreSpec.sameKey MoreSpec.dateKey k) fs).
Proof.
  apply (stored_files_sort_by_size_and_date
           0 [ (StorageStore.AddFile Examples.fileB, 1%Z);
               (StorageStore.AddFile Examples.fileA, 2%Z) ]
           (fun _ _ => NaN) "date" "asc" MoreSpec.dateKey).
  - reflexivity.
  - left. reflexivity.
Defined.


(** * Properties of [filterFiles] *)

Lemma isWhiteSpace_lowerChar c :
  Str.isWhiteSpace (FileUtils.lowerChar c) = Str.isWhiteSpace c.
Proof.
  destruct c as [b0 b1 b2 b3 b4 b5 b6 b7].
  destruct b0, b1, b2, b3, b4, b5, b6, b7; reflexivity.
Qed.

Lemma lowerChar_idempotent c :
  FileUtils.lowerChar (FileUtils.lowerChar c) = FileUtils.lowerChar c.
Proof.
  destruct c as [b0 b1 b2 b3 b4 b5 b6 b7].
  destruct b0, b1, b2, b3, b4, b5, b6, b7; reflexivity.
Qed.

Lemma toLowerCase_idempotent s :
  FileUtils.toLowerCase (FileUtils.toLowerCase s) = FileUtils.toLowerCase s.
Proof.
  induction s as [ | c rest IH]; [reflexivity | ].
  cbn [FileUtils.toLowerCase]. rewrite lowerChar_idempotent, IH. reflexivity.
Qed.

Lemma trimStart_toLowerCase s :
  FileUtils.toLowerCase (Str.trimStart s) = Str.trimStart (FileUtils.toLowerCase s).
Proof.
  induction s as [ | c rest IH]; [reflexivity | ].
  cbn [Str.trimStart FileUtils.toLowerCase]. rewrite isWhiteSpace_lowerChar.
  destruct (Str.isWhiteSpace c); [exact IH | reflexivity].
Qed.

Lemma trimEnd_toLowerCase s :
  FileUtils.toLowerCase (Str.trimEnd s) = Str.trimEnd (FileUtils.toLowerCase s).
Proof.
  induction s as [ | c rest IH]; [reflexivity | ].
  cbn [Str.trimEnd FileUtils.toLowerCase]. rewrite <- IH, isWhiteSpace_lowerChar.
  destruct (Str.trimEnd rest); cbn [FileUtils.toLowerCase];
    [destruct (Str.isWhiteSpace c) | ]; reflexivity.
Qed.

(** Trimming and lowering the case commute. *)
Lemma trim_toLowerCase s :
  FileUtils.toLowerCase (Str.trim s) = Str.trim (FileUtils.toLowerCase s).
Proof. unfold Str.trim. rewrite trimEnd_toLowerCase, trimStart_toLowerCase. reflexivity. Qed.

Lemma toLowerCase_empty s :
  String.eqb (FileUtils.toLowerCase s) "" = String.eqb s "".
Proof. destruct s; reflexivity. Qed.

(** [filterFiles] reads its text through trimming and lowering only. *)
Lemma filterFiles_normalized typeErrorMessage files text :
  FileUtils.filterFiles typeErrorMessage files (VString text)
  = if negb (Js.isArray files) then Throw (Error "Files must be an array")
    else
      let normalizedFilter := Str.trim (FileUtils.toLowerCase text) in
      if String.eqb normalizedFilter ""
      then Normal (map Cast.asFileItem (Cast.asArray files))
      else match FileUtils.select typeErrorMessage normalizedFilter (Cast.asArray files) with
           | Throw e => Throw e
           | Normal kept => Normal (map Cast.asFileItem kept)
           end.
Proof.
  unfold FileUtils.filterFiles. cbv zeta.
  rewrite <- trim_toLowerCase, toLowerCase_empty. reflexivity.
Qed.

(** On file records the callback is the predicate [matches], and does
    not throw. *)
Lemma select_typed typeErrorMessage normalizedFilter fs :
  FileUtils.select typeErrorMessage normalizedFilter (map Encode.file fs)
  = Normal (map Encode.file (filter (FileUtils.matches normalizedFilter) fs)).
Proof.
  induction fs as [ | f fs IH]; [reflexivity | ].
  cbn [map FileUtils.select filter]. rewrite IH.
  destruct f as [i n sz ty lm pth].
  change (FileUtils.matching typeErrorMessage normalizedFilter
            (Encode.file (FileItem.mk i n sz ty lm pth)))
    with (Normal (FileUtils.matches normalizedFilter (FileItem.mk i n sz ty lm pth))).
  destruct (FileUtils.matches normalizedFilter (FileItem.mk i n sz ty lm pth)); reflexivity.
Qed.

(** The callback evaluates exactly on the elements whose [name] and
    [path] are strings. *)
Lemma matching_searchable typeErrorMessage normalizedFilter file :
  (exists keep, FileUtils.matching typeErrorMessage normalizedFilter file = Normal keep)
  <-> MoreSpec.searchable file.
Proof.
  unfold FileUtils.matching, FileUtils.lowered, MoreSpec.searchable.
  destruct (Js.get file "name") as [ | | | | name | | | | ];
    try (split; [intros (k & H); discriminate H | intros ((x & H) & _); discriminate H]).
  destruct (Js.get file "path") as [ | | | | path | | | | ];
    try (split; [intros (k & H); discriminate H | intros (_ & (x & H)); discriminate H]).
  split.
  - intros _. split; eexists; reflexivity.
  - intros _. eexists. reflexivity.
Qed.

Lemma select_searchable typeErrorMessage normalizedFilter files :
  (exists kept, FileUtils.select typeErrorMessage normalizedFilter files = Normal kept)
  <-> Forall MoreSpec.searchable files.
Proof.
  induction files as [ | file rest IH].
  - split; [constructor | intros _; eexists; reflexivity].
  - cbn [FileUtils.select]. split.
    + intros (kept & H).
      destruct (FileUtils.matching typeErrorMessage normalizedFilter file) as [keep | e] eqn:E;
        [ | discriminate H].
      destruct (FileUtils.select typeErrorMessage normalizedFilter rest) as [kept' | e] eqn:E';
        [ | discriminate H].
      constructor.
      * apply (matching_searchable typeErrorMessage normalizedFilter). exists keep. exact E.
      * apply IH. exists kept'. reflexivity.
    + intros H. inversion H as [ | ? ? Hfile Hrest]; subst.
      apply (matching_searchable typeErrorMessage normalizedFilter) in Hfile.
      destruct Hfile as (keep & ->). apply IH in Hrest. destruct Hrest as (kept & ->).
      eexists. reflexivity.
Qed.

Lemma prefix_toLowerCase sub s :
  String.prefix sub s = true ->
  String.prefix (FileUtils.toLowerCase sub) (FileUtils.toLowerCase s) = true.
Proof.
  revert s. induction sub as [ | a sub IH]; intros s; [intros _; destruct s; reflexivity | ].
  destruct s as [ | b s]; [discriminate | ].
  cbn [String.prefix FileUtils.toLowerCase].
  destruct (ascii_dec a b) as [-> | ]; [ | discriminate].
  destruct (ascii_dec (FileUtils.lowerChar b) (FileUtils.lowerChar b)); [ | contradiction].
  apply IH.
Qed.

(** A text that contains another still does when both are lowered. *)
Lemma includes_toLowerCase s sub :
  FileUtils.includes s sub = true ->
  FileUtils.includes (FileUtils.toLowerCase s) (FileUtils.toLowerCase sub) = true.
Proof.
  induction s as [ | c rest IH].
  - cbn [FileUtils.includes FileUtils.toLowerCase]. rewrite !orb_false_r.
    apply (prefix_toLowerCase sub EmptyString).
  - cbn [FileUtils.includes FileUtils.toLowerCase].
    rewrite !orb_true_iff. intros [H | H].
    + left. apply (prefix_toLowerCase sub (String c rest)). exact H.
    + right. apply IH, H.
Qed.

Lemma filterFiles_typed typeErrorMessage fs text :
  FileUtils.filterFiles typeErrorMessage (FileUtils.array fs) (VString text)
  = Normal (if String.eqb (Str.trim text) "" then fs
            else filter (FileUtils.matches (FileUtils.toLowerCase (Str.trim text))) fs).
Proof.
  unfold FileUtils.filterFiles.
  change (Js.isArray (FileUtils.array fs)) with true. cbn [negb]. cbv zeta.
  destruct (String.eqb (Str.trim text) ""); [rewrite typed_array; reflexivity | ].
  unfold FileUtils.array. cbn [Cast.asArray]. rewrite select_typed.
  f_equal. rewrite map_map. rewrite <- (map_id (filter _ fs)) at 2.
  apply map_ext. exact ValidationFacts.asFileItem_file.
Qed.

Lemma trimEnd_idempotent s : Str.trimEnd (Str.trimEnd s) = Str.trimEnd s.
Proof.
  induction s as [ | c rest IH]; [reflexivity | ].
  cbn [Str.trimEnd]. destruct (Str.trimEnd rest) as [ | a kept] eqn:E.
  - destruct (Str.isWhiteSpace c) eqn:Hc; [reflexivity | ].
    cbn [Str.trimEnd]. rewrite Hc. reflexivity.
  - cbn [Str.trimEnd] in *. rewrite IH. reflexivity.
Qed.

Lemma trimStart_of_trimEnd s :
  Str.trimStart (Str.trimEnd (Str.trimStart s)) = Str.trimEnd (Str.trimStart s).
Proof.
  induction s as [ | c rest IH]; [reflexivity | ].
  cbn [Str.trimStart]. destruct (Str.isWhiteSpace c) eqn:Hc; [exact IH | ].
  cbn [Str.trimEnd]. destruct (Str.trimEnd rest); [rewrite Hc | ];
    cbn [Str.trimStart]; rewrite Hc; reflexivity.
Qed.

(** Trimming what is trimmed changes nothing. *)
Lemma trim_trimmed s : Str.trim (Str.trim s) = Str.trim s.
Proof. unfold Str.trim. rewrite trimStart_of_trimEnd. apply trimEnd_idempotent. Qed.

Lemma filter_idempotent {A} (p : A -> bool) l : filter p (filter p l) = filter p l.
Proof.
  induction l as [ | x l IH]; [reflexivity | ].
  cbn [filter]. destruct (p x) eqn:E; [cbn [filter]; rewrite E, IH; reflexivity | exact IH].
Qed.

(** X22.  A filter text that holds white space only, or nothing, filters
    nothing: [filterFiles] returns the records as they are. *)
Theorem filterFiles_blank_text_returns_all :
  forall (typeErrorMessage : value -> string) (fs : list FileItem.t) (text : string),
    ~ MoreSpec.nonBlank text ->
    FileUtils.filterFiles typeErrorMessage (FileUtils.array fs) (VString text) = Normal fs.
Proof.
  intros typeErrorMessage fs text Hblank. rewrite filterFiles_typed, trim_empty.
  destruct (forallb Str.isWhiteSpace (list_ascii_of_string text)) eqn:E; [reflexivity | ].
  exfalso. apply Hblank, nonBlank_iff, E.
Qed.

Lemma filterFiles_blank_witness :
  FileUtils.filterFiles (fun _ => "TypeError")
                        (FileUtils.array [Examples.fileA; Examples.fileB]) (VString "  ")
  = Normal [Examples.fileA; Examples.fileB].
Proof.
  apply (filterFiles_blank_text_returns_all
           (fun _ => "TypeError") [Examples.fileA; Examples.fileB] "  ").
  intros (c & Hin & Hc). cbn in Hin.
  destruct Hin as [<- | [<- | []]]; discriminate Hc.
Defined.

(** X23.  The case of the filter text does not matter, nor does the
    white space around it: two texts that are equal once lowered give
    the same outcome on every argument, and so does a text and its
    trimmed form. *)
Theorem filterFiles_ignores_case_of_text :
  forall (typeErrorMessage : value -> string) (files : value) (text1 text2 : string),
    FileUtils.toLowerCase text1 = FileUtils.toLowerCase text2 ->
    FileUtils.filterFiles typeErrorMessage files (VString text1)
    = FileUtils.filterFiles typeErrorMessage files (VString text2)
    /\ FileUtils.filterFiles typeErrorMessage files (VString (Str.trim text1))
       = FileUtils.filterFiles typeErrorMessage files (VString text1).
Proof.
  intros typeErrorMessage files text1 text2 H. split.
  - rewrite !filterFiles_normalized, H. reflexivity.
  - rewrite !filterFiles_normalized.
    assert (E : Str.trim (FileUtils.toLowerCase (Str.trim text1))
                = Str.trim (FileUtils.toLowerCase text1)).
    { rewrite <- !trim_toLowerCase. f_equal. apply trim_trimmed. }
    rewrite E. reflexivity.
Qed.

Lemma filterFiles_case_witness :
  FileUtils.filterFiles (fun _ => "TypeError")
                        (FileUtils.array [Examples.fileA]) (VString " PDF")
  = FileUtils.filterFiles (fun _ => "TypeError")
                          (FileUtils.array [Examples.fileA]) (VString " pdf")
  /\ FileUtils.filterFiles (fun _ => "TypeError")
                           (FileUtils.array [Examples.fileA]) (VString (Str.trim " PDF"))
     = FileUtils.filterFiles (fun _ => "TypeError")
                             (FileUtils.array [Examples.fileA]) (VString " PDF").
Proof.
  apply (filterFiles_ignores_case_of_text
           (fun _ => "TypeError") (FileUtils.array [Examples.fileA]) " PDF" " pdf").
  reflexivity.
Defined.

(** X24.  On text whose characters all lie below U+0100, for which
    [toLowerCase] works character by character: a record whose name or
    path contains the trimmed filter text, letter for letter or in
    another case, is among the records that [filterFiles] returns.
    (Outside that range [toLowerCase] may look at the neighbours of a
    character, as with the final sigma of Greek, and a name can contain
    a text without its lowered form containing the lowered text.) *)
Theorem filterFiles_keeps_what_contains_the_text :
  forall (typeErrorMessage : value -> string)
         (fs : list FileItem.t) (text : string) (f : FileItem.t),
    MoreSpec.nonBlank text ->
    In f fs ->
    FileUtils.includes (FileItem.name f) (Str.trim text) = true
    \/ FileUtils.includes (FileItem.path f) (Str.trim text) = true
    \/ FileUtils.includes (FileUtils.toLowerCase (FileItem.name f))
                          (FileUtils.toLowerCase (Str.trim text)) = true
    \/ FileUtils.includes (FileUtils.toLowerCase (FileItem.path f))
                          (FileUtils.toLowerCase (Str.trim text)) = true ->
    exists l,
      FileUtils.filterFiles typeErrorMessage (FileUtils.array fs) (VString text) = Normal l
      /\ In f l.
Proof.
  intros typeErrorMessage fs text f Htext Hin Hf.
  rewrite filterFiles_typed. eexists. split; [reflexivity | ].
  rewrite trim_empty. rewrite (proj2 (nonBlank_iff text) Htext).
  apply filter_In. split; [exact Hin | ].
  unfold FileUtils.matches. cbv zeta. apply orb_true_iff.
  destruct Hf as [H | [H | [H | H]]].
  - left. apply includes_toLowerCase, H.
  - right. apply includes_toLowerCase, H.
  - left. exact H.
  - right. exact H.
Qed.

(** X25.  [filterFiles] returns exactly when [files] is an array,
    [filterText] is a string and, unless the text is blank, the [name]
    and the [path] of every element are strings; otherwise it throws,
    a [TypeError] on the first element that is not so.  What it returns
    for an array of file records is the array with some records left
    out, the others in their order, and filtering the result again by
    the same text changes nothing. *)
Theorem filterFiles_selects_in_order :
  forall (typeErrorMessage : value -> string)
         (files filterText : value) (fs : list FileItem.t) (text : string),
    ((exists l, FileUtils.filterFiles typeErrorMessage files filterText = Normal l)
     <-> Js.isArray files = true /\
         exists t, filterText = VString t /\
                   (MoreSpec.nonBlank t ->
                    Forall MoreSpec.searchable (Cast.asArray files))) /\
    exists (keep : FileItem.t -> bool) (l : list FileItem.t),
      FileUtils.filterFiles typeErrorMessage (FileUtils.array fs) (VString text) = Normal l /\
      l = filter keep fs /\
      FileUtils.filterFiles typeErrorMessage (FileUtils.array l) (VString text) = Normal l.
Proof.
  intros typeErrorMessage files filterText fs text. split.
  - unfold FileUtils.filterFiles. split.
    + intros (l & H). destruct (Js.isArray files); [ | discriminate H].
      split; [reflexivity | ]. destruct filterText as [ | | | | t | | | | ];
        try discriminate H.
      exists t. split; [reflexivity | ]. intros Ht. cbv zeta in H.
      rewrite trim_empty, (proj2 (nonBlank_iff t) Ht) in H.
      apply (select_searchable typeErrorMessage (FileUtils.toLowerCase (Str.trim t))).
      destruct (FileUtils.select _ _ _) as [kept | e]; [ | discriminate H].
      exists kept. reflexivity.
    + intros (Ha & t & -> & Hall). rewrite Ha. cbn [negb]. cbv zeta.
      rewrite trim_empty.
      destruct (forallb Str.isWhiteSpace (list_ascii_of_string t)) eqn:E;
        [eexists; reflexivity | ].
      apply nonBlank_iff in E.
      apply (select_searchable typeErrorMessage (FileUtils.toLowerCase (Str.trim t)))
        in Hall; [ | exact E].
      destruct Hall as (kept & ->). eexists. reflexivity.
  - rewrite filterFiles_typed. destruct (String.eqb (Str.trim text) "") eqn:E.
    + exists (fun _ => true), fs. split; [reflexivity | ]. split.
      * symmetry. apply forallb_filter_id. apply forallb_forall. reflexivity.
      * rewrite filterFiles_typed, E. reflexivity.
    + eexists. eexists. split; [reflexivity | ]. split; [reflexivity | ].
      rewrite filterFiles_typed, E, filter_idempotent. reflexivity.
Qed.

(** An array that holds [null] makes [filterFiles] throw, unless the
    text is blank. *)
Example filterFiles_throws_on_null :
  FileUtils.filterFiles (fun _ => "TypeError") (VArray [VNull]) (VString "a")
  = Throw (Error "TypeError")
  /\ FileUtils.filterFiles (fun _ => "TypeError") (VArray [VNull]) (VString " ")
     = Normal [Cast.asFileItem VNull].
Proof. split; reflexivity. Qed.

(** X26.  Narrowing a listing by two texts, one after the other, gives
    the same records whichever text comes first. *)
Theorem filterFiles_narrowing_commutes :
  forall (typeErrorMessage : value -> string) (fs : list FileItem.t) (text1 text2 : string),
    exists l1 l2 l,
      FileUtils.filterFiles typeErrorMessage (FileUtils.array fs) (VString text1)
      = Normal l1 /\
      FileUtils.filterFiles typeErrorMessage (FileUtils.array fs) (VString text2)
      = Normal l2 /\
      FileUtils.filterFiles typeErrorMessage (FileUtils.array l1) (VString text2)
      = Normal l /\
      FileUtils.filterFiles typeErrorMessage (FileUtils.array l2) (VString text1)
      = Normal l.
Proof.
  intros typeErrorMessage fs text1 text2. rewrite !filterFiles_typed.
  eexists. eexists. eexists. split; [reflexivity | ]. split; [reflexivity | ].
  rewrite !filterFiles_typed. split; [reflexivity | ]. f_equal.
  destruct (String.eqb (Str.trim text1) ""), (String.eqb (Str.trim text2) "");
    try reflexivity.
  apply filter_filter_comm.
Qed.

Lemma filterFiles_contains_witness :
  exists l,
    FileUtils.filterFiles (fun _ => "TypeError")
                          (FileUtils.array [Examples.fileA; Examples.fileB])
                          (VString " A.TXT ") = Normal l
    /\ In Examples.fileA l.
Proof.
  apply (filterFiles_keeps_what_contains_the_text
           (fun _ => "TypeError")
           [Examples.fileA; Examples.fileB] " A.TXT " Examples.fileA).
  - exists "A"%char. split; [cbn; tauto | reflexivity].
  - left. reflexivity.
  - right. right. left. reflexivity.
Defined.


(** * Further properties of [updateStorageByType] *)

Lemma scaleEntries_keys scale m :
  map fst (StorageStore.scaleEntries scale m) = map fst m.
Proof. unfold StorageStore.scaleEntries. rewrite map_map. reflexivity. Qed.

(** X27.  On a store reached from the initial one, [updateStorageByType]
    stores a breakdown of finite values that are not negative as it is
    given, when its values add up, in double arithmetic, to at most
    [usedStorage].  Whatever the breakdown, a call that throws leaves
    the store as it was, and a call that returns has stored a breakdown
    with the keys of the given one, in their order, whose values add
    up, in double arithmetic, to at most [usedStorage]; nothing else
    has changed but [lastUpdated]. *)
Theorem updateStorageByType_keeps_the_keys :
  forall (loaded : Z) (calls : list (StorageStore.operation * Z))
         (storageByType : list (string * number)) (now : Z),
    let w := StorageStore.run loaded calls (StorageStore.storageStore loaded) in
    let r := StorageStore.updateStorageByType storageByType now w in
    exists used,
      StorageData.usedStorage (Writable.current w) = Fin used /\
      (Forall (fun kv => Spec.nonNegative (snd kv)) storageByType ->
       Spec.withinUsed used storageByType ->
       r = (Normal tt,
            Writable.set
              (StorageStore.withStorageByType storageByType (Date_now now)
                                              (Writable.current w)) w)) /\
      match fst r with
      | Throw _ => snd r = w
      | Normal _ =>
          exists stored,
            snd r = Writable.set
                      (StorageStore.withStorageByType stored (Date_now now)
                                                      (Writable.current w)) w /\
            map fst stored = map fst storageByType /\
            Spec.withinUsed used stored
      end.
Proof.
  intros loaded calls m now w r.
  pose proof (StoreFacts.sound_reachable loaded calls) as Hw. fold w in Hw.
  destruct Hw as ((E & Hfiles) & _).
  apply ValidationFacts.criticalErrors_nil in E.
  destruct E as (t & u & s0 & Ht & Htp & Hu & Hup & Hle & _ & _ & _ & Hdate).
  set (cur := Writable.current w) in *.
  exists u. split; [exact Hu | ].
  subst r. unfold StorageStore.updateStorageByType, StorageStore.customUpdate,
             Writable.update.
  cbv zeta. fold cur. split.
  - intros Hm (s & Hs & Hfit).
    rewrite <- ValidationFacts.sumValues_addedUp in Hs. rewrite Hs, Hu.
    assert (G1 : Num.gt (Fin s) (Fin u) = false) by (apply NumFacts.gt_Fin_false; exact Hfit).
    rewrite G1. cbn [andb].
    set (c := StorageStore.withStorageByType m (Date_now now) cur).
    assert (Ec : Validation.criticalErrors (Encode.storage c) = []).
    { apply ValidationFacts.criticalErrors_nil. exists t, u, s.
      repeat split; try assumption; reflexivity. }
    rewrite (StoreFacts.clamp_fits c (StoreFacts.accepted_fits c Ec)).
    rewrite (ValidationFacts.validated_accepts c Ec).
    cbn [StorageData.files StorageData.totalStorage StorageData.usedStorage
         StorageData.storageByType StorageData.lastUpdated c
         StorageStore.withStorageByType].
    rewrite (StoreFacts.filter_all _ _ Hfiles). reflexivity.
  - set (proposed :=
           if Num.gt (StorageStore.sumValues m) (StorageData.usedStorage cur)
              && Num.gt (StorageStore.sumValues m) (Fin 0)
           then StorageStore.scaleEntries
                  (Num.div (StorageData.usedStorage cur) (StorageStore.sumValues m)) m
           else m).
    assert (Hkeys : map fst proposed = map fst m).
    { unfold proposed.
      destruct (Num.gt (StorageStore.sumValues m) (StorageData.usedStorage cur)
                && Num.gt (StorageStore.sumValues m) (Fin 0));
        [apply scaleEntries_keys | reflexivity]. }
    set (c := StorageStore.withStorageByType proposed (Date_now now) cur).
    destruct (StorageStore.validated (StorageStore.clamp c)) as [d' | e] eqn:Ev;
      cbn [fst snd]; [ | reflexivity].
    apply StoreFacts.validated_Normal in Ev. destruct Ev as (Ec & ->).
    apply ValidationFacts.criticalErrors_nil in Ec.
    destruct Ec as (t' & u' & s & _ & _ & Hu' & _ & _ & _ & Hs & Hfit & _).
    assert (Hclamp :
              exists stored,
                StorageStore.clamp c
                = StorageStore.withStorageByType stored (Date_now now) cur /\
                map fst stored = map fst m).
    { unfold StorageStore.clamp.
      destruct (Num.gt (StorageStore.sumValues (StorageData.storageByType c))
                       (StorageData.usedStorage c)
                && Num.gt (StorageStore.sumValues (StorageData.storageByType c)) (Fin 0)).
      - eexists. split; [reflexivity | ].
        cbn [c StorageStore.withStorageByType StorageData.storageByType].
        rewrite scaleEntries_keys. exact Hkeys.
      - exists proposed. split; [reflexivity | exact Hkeys]. }
    destruct Hclamp as (stored & Hc & Hk). rewrite Hc in *.
    cbn [StorageStore.withStorageByType StorageData.files StorageData.totalStorage
         StorageData.usedStorage StorageData.storageByType StorageData.lastUpdated]
      in *.
    exists stored. rewrite (StoreFacts.filter_all _ _ Hfiles).
    split; [reflexivity | split; [exact Hk | ]].
    rewrite Hu in Hu'. apply RoundFacts.Fin_inj in Hu'. subst u'.
    exists s. split; [rewrite <- ValidationFacts.sumValues_addedUp; exact Hs | exact Hfit].
Qed.

Lemma updateStorageByType_witness :
  StorageStore.updateStorageByType [("videos", Num.of_Z 1024)] 1
                                   (StorageStore.run 0 [] (StorageStore.storageStore 0))
  = (Normal tt,
     Writable.set
       (StorageStore.withStorageByType
          [("videos", Num.of_Z 1024)] (Date_now 1)
          (Writable.current (StorageStore.run 0 [] (StorageStore.storageStore 0))))
       (StorageStore.run 0 [] (StorageStore.storageStore 0))).
Proof.
  destruct (updateStorageByType_keeps_the_keys 0 [] [("videos", Num.of_Z 1024)] 1)
    as (used & Hused & Hfits & _).
  apply Hfits.
  - constructor; [ | constructor].
    exists (inject_Z 1024). split; [reflexivity | discriminate].
  - apply RoundFacts.Fin_inj in Hused. subst used.
    exists (inject_Z 1024). split; [vm_compute; reflexivity | discriminate].
Defined.


(** * What [fetchStorageData] hands to the validator *)

Lemma lookup_assign key x props :
  Js.lookup key (Js.assign key x props) = Some x.
Proof.
  induction props as [ | [k v] rest IH]; cbn [Js.assign Js.lookup].
  - rewrite String.eqb_refl. reflexivity.
  - destruct (String.eqb k key) eqn:E; cbn [Js.lookup]; rewrite E; [reflexivity | exact IH].
Qed.

Lemma lookup_assign_other key key' x props :
  String.eqb key key' = false ->
  Js.lookup key' (Js.assign key x props) = Js.lookup key' props.
Proof.
  intros Hne. induction props as [ | [k v] rest IH]; cbn [Js.assign Js.lookup].
  - rewrite Hne. reflexivity.
  - destruct (String.eqb k key) eqn:E; cbn [Js.lookup].
    + apply String.eqb_eq in E. subst k. rewrite Hne. reflexivity.
    + rewrite IH. reflexivity.
Qed.

(** The object that [fetchStorageData] builds from the body. *)
Lemma dataWithDates_shape parseDate nullReadMessage now rawData withDates :
  Fetch.dataWithDates parseDate nullReadMessage now rawData = Normal withDates ->
  exists files props,
    withDates = VObject props /\
    Js.get withDates "files" = VArray files /\
    (Js.isArray (Js.get rawData "files") = false -> files = []) /\
    Js.get withDates "lastUpdated"
    = Fetch.dateOr parseDate now (Js.get rawData "lastUpdated").
Proof.
  unfold Fetch.dataWithDates. intros H.
  assert (G : forall files,
             (Js.isArray (Js.get rawData "files") = false -> files = []) ->
             Normal (VObject
                       (Js.assign "files" (VArray files)
                          (Js.assign "lastUpdated"
                             (Fetch.dateOr parseDate now (Js.get rawData "lastUpdated"))
                             (Js.entries rawData)))) = Normal withDates ->
             exists files props,
               withDates = VObject props /\
               Js.get withDates "files" = VArray files /\
               (Js.isArray (Js.get rawData "files") = false -> files = []) /\
               Js.get withDates "lastUpdated"
               = Fetch.dateOr parseDate now (Js.get rawData "lastUpdated")).
  { intros files Hfiles [= <-]. exists files. eexists. split; [reflexivity | ].
    cbn [Js.get]. rewrite lookup_assign.
    rewrite (lookup_assign_other "files" "lastUpdated" _ _ eq_refl), lookup_assign.
    repeat split. exact Hfiles. }
  destruct (Js.isArray (Js.get rawData "files")) eqn:Ea.
  - destruct (Fetch.filesWithDates parseDate nullReadMessage now
                (Cast.asArray (Js.get rawData "files"))) as [files | e] eqn:Ef.
    + destruct rawData; try discriminate H; apply (G files); try discriminate; exact H.
    + destruct rawData; discriminate H.
  - destruct rawData; try discriminate H; apply (G []); try reflexivity; exact H.
Qed.

(** X28.  The object that [fetchStorageData] hands to the validator
    always has an array as its [files]: a body whose [files] is missing
    or is not an array is read as a body without file records, so the
    validator never reports ['files must be an array'] for a response.
    A body without [lastUpdated] is never reported for its date
    either. *)
Theorem fetched_body_is_never_refused_for_its_files :
  forall (parseDate : value -> number) (nullReadMessage : string) (now : Z)
         (rawData withDates : value),
    Fetch.dataWithDates parseDate nullReadMessage now rawData = Normal withDates ->
    let reported := Validation.errors (Validation.validateStorageData withDates) in
    (exists files,
        Js.get withDates "files" = VArray files /\
        (Js.isArray (Js.get rawData "files") = false -> files = [])) /\
    ~ In Validation.msgFiles reported /\
    (Js.truthy (Js.get rawData "lastUpdated") = false ->
     ~ In Validation.msgDate reported).
Proof.
  intros parseDate nullReadMessage now rawData withDates H reported.
  destruct (dataWithDates_shape _ _ _ _ _ H) as (files & props & Hobj & Hfiles & Hnone & Hdate).
  assert (Hrep : forall m,
             In m reported ->
             In m (Validation.criticalErrors withDates) \/ exists n, m = Validation.msgFiltered n).
  { intros m Hm. subst reported.
    destruct (validateStorageData_object withDates) as [(_ & Hr) | (_ & Hr)];
      [rewrite Hobj; reflexivity | | ]; rewrite Hr in Hm;
      cbn [Validation.errors] in Hm; [left; exact Hm | ].
    destruct (0 <? _)%nat; [ | destruct Hm].
    destruct Hm as [<- | []]. right. eexists. reflexivity. }
  split; [exists files; split; assumption | split].
  - intros Hin. destruct (Hrep _ Hin) as [Hc | (n & Hn)]; [ | discriminate Hn].
    apply CheckFacts.criticalErrors_In in Hc. destruct Hc as (c & Hc & Hm).
    destruct c; try discriminate Hm.
    apply (Hc files). exact Hfiles.
  - intros Hfalsy Hin. destruct (Hrep _ Hin) as [Hc | (n & Hn)]; [ | discriminate Hn].
    apply CheckFacts.criticalErrors_In in Hc. destruct Hc as (c & Hc & Hm).
    destruct c; try discriminate Hm.
    apply Hc. exists (Num.of_Z now). split; [ | discriminate].
    rewrite Hdate. unfold Fetch.dateOr. rewrite Hfalsy. reflexivity.
Qed.

Lemma fetched_body_witness :
  let withDates := VObject [("totalStorage", VNumber (Num.of_Z 10));
                            ("lastUpdated", VDate (Num.of_Z 7));
                            ("files", VArray [])] in
  let reported := Validation.errors (Validation.validateStorageData withDates) in
  (exists files,
      Js.get withDates "files" = VArray files /\
      (Js.isArray (Js.get (VObject [("totalStorage", VNumber (Num.of_Z 10))]) "files") = false ->
       files = [])) /\
  ~ In Validation.msgFiles reported /\
  (Js.truthy (Js.get (VObject [("totalStorage", VNumber (Num.of_Z 10))]) "lastUpdated") = false ->
   ~ In Validation.msgDate reported).
Proof.
  apply (fetched_body_is_never_refused_for_its_files
           (fun _ => NaN) "" 7 (VObject [("totalStorage", VNumber (Num.of_Z 10))])).
  reflexivity.
Defined.
